(** * Audio overview tool of the retail location-strategy pipeline

    A shallow embedding of [app/tools/audio_generator.py] and of the
    instruction selection of [app/sub_agents/audio_overview/agent.py],
    together with the pieces of the Python runtime they call:
    [str.split], [int], [base64.b64encode], [struct.pack], [io.BytesIO],
    [wave.Wave_write] and tenacity's retry loop.

    Conventions.
    - A Python [str] is a Rocq [string]; its characters are the code
      points 0..255.  A Python [bytes] is a [list byte].
    - A Python [int] is a [Z].
    - A computation that may raise is a value of [result A]; one that
      also mutates an object threads that object explicitly
      ([SE St A]): a raise keeps the mutations made before it. *)

From Stdlib Require Import ZArith QArith Qround Lia Ascii String List.
From Stdlib Require Import Strings.Byte.
From stdpp Require Import base tactics option list strings gmap pretty.

Local Open Scope string_scope.
Local Open Scope list_scope.
Local Open Scope Z_scope.

(* String append computes under [simpl] when its first argument is a
   constructor. *)
Local Arguments String.append !_ _ : simpl nomatch.

(** ** Exceptions *)

Module Py.

(** The exception classes the tool can meet.  [KeyboardInterrupt] and
    [CancelledError] derive from [BaseException] only. *)
Inductive exn_class : Set :=
  | BaseException
  | KeyboardInterrupt
  | CancelledError
  | Exception
  | ValueError
  | IndexError
  | TypeError
  | AttributeError
  | ZeroDivisionError
  | WaveError          (* wave.Error *)
  | StructError        (* struct.error *)
  | APIError           (* google.genai.errors.APIError *)
  | ClientError        (* google.genai.errors.ClientError *)
  | ServerError        (* google.genai.errors.ServerError *)
  | TryAgain           (* tenacity.TryAgain *)
  | RetryErrorClass.   (* tenacity.RetryError *)

Definition exn_class_eqb (c d : exn_class) : bool :=
  match c, d with
  | BaseException, BaseException | KeyboardInterrupt, KeyboardInterrupt
  | CancelledError, CancelledError | Exception, Exception
  | ValueError, ValueError | IndexError, IndexError | TypeError, TypeError
  | AttributeError, AttributeError | ZeroDivisionError, ZeroDivisionError
  | WaveError, WaveError
  | StructError, StructError | APIError, APIError
  | ClientError, ClientError | ServerError, ServerError
  | TryAgain, TryAgain | RetryErrorClass, RetryErrorClass => true
  | _, _ => false
  end.

(** The direct base class. *)
Definition base_class (c : exn_class) : option exn_class :=
  match c with
  | BaseException => None
  | KeyboardInterrupt | CancelledError | Exception => Some BaseException
  | ClientError | ServerError => Some APIError
  | IndexError => Some Exception   (* through LookupError *)
  | _ => Some Exception
  end.

(** [issubclass c d]; the hierarchy above is three levels deep. *)
Definition issubclass (c d : exn_class) : bool :=
  exn_class_eqb c d ||
  match base_class c with
  | None => false
  | Some c1 =>
      exn_class_eqb c1 d ||
      match base_class c1 with
      | None => false
      | Some c2 =>
          exn_class_eqb c2 d ||
          match base_class c2 with
          | None => false
          | Some c3 => exn_class_eqb c3 d
          end
      end
  end.

(** A raised exception: its class and what [str(e)] gives.  A
    [RetryError] carries the [Future] that holds the outcome of the last
    attempt: the exception it finished with, and the address of the
    [Future] object ([id], in the hexadecimal form of its [repr]). *)
Inductive exn : Type :=
  | Exn (cls : exn_class) (msg : string)
  | RetryError (future_at : string) (last_attempt : exn).

Definition class_of (e : exn) : exn_class :=
  match e with
  | Exn c _ => c
  | RetryError _ _ => RetryErrorClass
  end.

Definition isinstance (e : exn) (c : exn_class) : bool :=
  issubclass (class_of e) c.

Definition class_name (c : exn_class) : string :=
  match c with
  | BaseException => "BaseException"
  | KeyboardInterrupt => "KeyboardInterrupt"
  | CancelledError => "CancelledError"
  | Exception => "Exception"
  | ValueError => "ValueError"
  | IndexError => "IndexError"
  | TypeError => "TypeError"
  | AttributeError => "AttributeError"
  | ZeroDivisionError => "ZeroDivisionError"
  | WaveError => "Error"
  | StructError => "error"
  | APIError => "APIError"
  | ClientError => "ClientError"
  | ServerError => "ServerError"
  | TryAgain => "TryAgain"
  | RetryErrorClass => "RetryError"
  end.

(** [str(e)].  tenacity prints a [RetryError] as the class name around
    the repr of the last attempt's [Future], which names the address of
    that object, its state and the class of its exception. *)
Definition str_exn (e : exn) : string :=
  match e with
  | Exn _ msg => msg
  | RetryError at_ last =>
      "RetryError[<Future at " +:+ at_ +:+ " state=finished raised "
        +:+ class_name (class_of last) +:+ ">]"
  end.

(** ** Computations that may raise *)

Definition result (A : Type) : Type := exn + A.

Definition ret {A} (a : A) : result A := inr a.
Definition raise {A} (e : exn) : result A := inl e.

Definition bind {A B} (m : result A) (k : A -> result B) : result B :=
  match m with
  | inl e => inl e
  | inr a => k a
  end.

(** [try: m except classes: handler]. *)
Definition try_except {A} (m : result A) (classes : list exn_class)
    (handler : exn -> result A) : result A :=
  match m with
  | inr a => inr a
  | inl e =>
      if existsb (isinstance e) classes then handler e else inl e
  end.

End Py.

Export Py.

Declare Scope py_scope.
Delimit Scope py_scope with py.
Notation "'let!' x := m 'in' k" := (Py.bind m (fun x => k))
  (at level 10, x name, k at level 200) : py_scope.

(** ** Strings *)

Module Str.

(** [s.startswith(p)] *)
Fixpoint startswith (p s : string) : bool :=
  match p, s with
  | EmptyString, _ => true
  | String _ _, EmptyString => false
  | String a p', String b s' => Ascii.eqb a b && startswith p' s'
  end.

(** [sub in s] *)
Fixpoint contains (sub s : string) : bool :=
  startswith sub s ||
  match s with
  | EmptyString => false
  | String _ s' => contains sub s'
  end.

Fixpoint drop (n : nat) (s : string) : string :=
  match n, s with
  | O, _ => s
  | S _, EmptyString => EmptyString
  | S n', String _ s' => drop n' s'
  end.

(** [s.partition(sep)] at the first occurrence of [sep]: the text before
    it and the text after it, [None] when [sep] does not occur. *)
Fixpoint partition (sep s : string) : option (string * string) :=
  if startswith sep s then Some (EmptyString, drop (String.length sep) s)
  else
    match s with
    | EmptyString => None
    | String c s' =>
        match partition sep s' with
        | Some (a, b) => Some (String c a, b)
        | None => None
        end
    end.

(** The loop of [s.split(sep)]: cut at each occurrence in turn, left to
    right.  Each cut removes at least the separator, so [fuel] equal to
    the length of [s] is never used up (lemma [split_from_unfold]). *)
Fixpoint split_from (fuel : nat) (sep s : string) : list string :=
  match partition sep s with
  | None => [s]
  | Some (a, b) =>
      match fuel with
      | O => [a; b]
      | S fuel' => a :: split_from fuel' sep b
      end
  end.

(** [s.split(sep)]; an empty separator is a [ValueError]. *)
Definition split (s sep : string) : result (list string) :=
  if String.eqb sep EmptyString
  then raise (Exn ValueError "empty separator")
  else ret (split_from (String.length s) sep s).

(** [l[i]] for [i >= 0] *)
Definition getitem {A} (l : list A) (i : nat) : result A :=
  match nth_error l i with
  | Some x => ret x
  | None => raise (Exn IndexError "list index out of range")
  end.

(** *** [int(s)] for a [str] argument, base 10

    CPython first maps the string to ASCII: Unicode white space becomes
    a blank, Unicode decimal digits become ASCII digits, and at any other
    character above 126 the conversion stops with an invalid character.
    Below code point 256 the only such white space is U+0085 and U+00A0,
    and there is no digit besides 0..9.  Then: leading white space, an
    optional sign, digits with single underscores between them, trailing
    white space. *)

Definition code (c : ascii) : Z := Z.of_N (N_of_ascii c).

Definition is_space (c : ascii) : bool :=
  let n := code c in
  ((9 <=? n) && (n <=? 13)) || (n =? 32) || (n =? 133) || (n =? 160).

Definition is_digit (c : ascii) : bool :=
  let n := code c in (48 <=? n) && (n <=? 57).

Definition digit_value (c : ascii) : Z := code c - 48.

Fixpoint lstrip (s : string) : string :=
  match s with
  | String c s' => if is_space c then lstrip s' else s
  | EmptyString => EmptyString
  end.

Fixpoint all_space (s : string) : bool :=
  match s with
  | EmptyString => true
  | String c s' => is_space c && all_space s'
  end.

(** [sys.int_info.default_max_str_digits]: a longer digit string is a
    [ValueError]. *)
Definition int_max_str_digits : nat := 4300.

(** The scan of [long_from_string_base]: digits and underscores are read
    while they last; [prev_us] says that the previous character was an
    underscore, [acc] is the value and [n] the number of digits read so
    far.  The result is the value, the digit count and the unread rest;
    [None] on a doubled or trailing underscore. *)
Fixpoint scan_digits (s : string) (prev_us : bool) (acc : Z) (n : nat)
  : option (Z * nat * string) :=
  match s with
  | String c s' =>
      if is_digit c then scan_digits s' false (10 * acc + digit_value c) (S n)
      else if Ascii.eqb c "_" then
        if prev_us then None else scan_digits s' true acc n
      else if prev_us then None else Some (acc, n, s)
  | EmptyString => if prev_us then None else Some (acc, n, EmptyString)
  end.

Definition invalid_literal (s : string) : exn :=
  Exn ValueError ("invalid literal for int() with base 10: " +:+ s).

Definition py_int (s : string) : result Z :=
  let body := lstrip s in
  let '(sign, body) :=
    match body with
    | String c r =>
        if Ascii.eqb c "+" then (1, r)
        else if Ascii.eqb c "-" then (-1, r)
        else (1, body)
    | EmptyString => (1, body)
    end in
  if startswith "_" body then raise (invalid_literal s)
  else
    match scan_digits body false 0 O with
    | None => raise (invalid_literal s)
    | Some (v, n, rest) =>
        if (n =? 0)%nat then raise (invalid_literal s)
        else if negb (all_space rest) then raise (invalid_literal s)
        else if (int_max_str_digits <? n)%nat
        then raise (Exn ValueError
               "Exceeds the limit (4300 digits) for integer string conversion")
        else ret (sign * v)
    end.

End Str.

(** ** State and exceptions together *)

Module Eff.

(** A computation over a mutable object of type [St].  The final state
    is returned on both outcomes: what was written before a raise stays
    written. *)
Definition SE (St A : Type) : Type := St -> result A * St.

Definition pure {St A} (a : A) : SE St A := fun s => (inr a, s).
Definition throw {St A} (e : exn) : SE St A := fun s => (inl e, s).
Definition get {St} : SE St St := fun s => (inr s, s).
Definition put {St} (s : St) : SE St unit := fun _ => (inr tt, s).
Definition modify {St} (f : St -> St) : SE St unit := fun s => (inr tt, f s).
Definition lift {St A} (r : result A) : SE St A := fun s => (r, s).

Definition bind {St A B} (m : SE St A) (k : A -> SE St B) : SE St B :=
  fun s =>
    match m s with
    | (inl e, s') => (inl e, s')
    | (inr a, s') => k a s'
    end.

(** [try: m except classes as e: handler e] *)
Definition catch {St A} (m : SE St A) (classes : list exn_class)
    (handler : exn -> SE St A) : SE St A :=
  fun s =>
    match m s with
    | (inr a, s') => (inr a, s')
    | (inl e, s') =>
        if existsb (isinstance e) classes then handler e s' else (inl e, s')
    end.

(** [try: m finally: f] *)
Definition finally {St A} (m : SE St A) (f : SE St unit) : SE St A :=
  fun s =>
    match m s with
    | (r, s') =>
        match f s' with
        | (inl e, s'') => (inl e, s'')
        | (inr _, s'') => (r, s'')
        end
    end.

End Eff.

Notation "'let+' x := m 'in' k" := (Eff.bind m (fun x => k))
  (at level 10, x name, k at level 200) : py_scope.
Notation "m ;+ k" := (Eff.bind m (fun _ => k))
  (at level 100, k at level 200, right associativity) : py_scope.

(** ** [bytes], [struct.pack] and [io.BytesIO] *)

Module Bytes.

Definition byte_of_Z (z : Z) : byte :=
  match Byte.of_N (Z.to_N (z mod 256)) with
  | Some b => b
  | None => x00
  end.

Definition Z_of_byte (b : byte) : Z := Z.of_N (Byte.to_N b).

(** The [n] low bytes of [x], least significant first. *)
Fixpoint le_bytes (n : nat) (x : Z) : list byte :=
  match n with
  | O => []
  | S n' => byte_of_Z x :: le_bytes n' (x / 256)
  end.

(** [int.from_bytes(bs, 'little')] *)
Fixpoint le_value (bs : list byte) : Z :=
  match bs with
  | [] => 0
  | b :: bs' => Z_of_byte b + 256 * le_value bs'
  end.

(** A bytes literal [b'...'] *)
Definition bytes_of (s : string) : list byte := list_byte_of_string s.

(** [struct.pack('<L', x)] and [struct.pack('<H', x)] on a 64-bit
    little-endian host: out of range is a [struct.error].  The number is
    first converted to a C integer, [unsigned long] for [L] (the
    standard-size packer) and [long] for [H] (the native packer, which
    takes the place of the standard one where the sizes agree); a number
    that conversion cannot hold is refused before the range of the
    format is looked at. *)
Definition L_range_error (x : Z) : exn :=
  Exn StructError
    (if (x <? 0) || (18446744073709551615 <? x)
     then "argument out of range"
     else "'L' format requires 0 <= number <= 4294967295").

Definition H_range_error (x : Z) : exn :=
  Exn StructError
    (if (x <? -9223372036854775808) || (9223372036854775807 <? x)
     then "argument out of range"
     else "ushort format requires 0 <= number <= 65535").

Definition pack_L (x : Z) : result (list byte) :=
  if (0 <=? x) && (x <=? 4294967295) then ret (le_bytes 4 x)
  else raise (L_range_error x).

Definition pack_H (x : Z) : result (list byte) :=
  if (0 <=? x) && (x <=? 65535) then ret (le_bytes 2 x)
  else raise (H_range_error x).

(** [io.BytesIO]: the bytes and the stream position. *)
Record BytesIO : Type := { buffer : list byte; position : nat }.

Definition BytesIO_new : BytesIO := {| buffer := []; position := O |}.

(** [f.write(data)]: overwrite from the position on, growing the buffer
    (with zero bytes up to the position when it lies past the end). *)
Definition write (data : list byte) (f : BytesIO) : BytesIO :=
  match data with
  | [] => f
  | _ =>
      let p := position f in
      let old := buffer f ++ repeat x00 (p - length (buffer f)) in
      {| buffer := take p old ++ data ++ List.skipn (p + length data) old;
         position := (p + length data)%nat |}
  end.

Definition seek (p : nat) (f : BytesIO) : BytesIO :=
  {| buffer := buffer f; position := p |}.

Definition tell (f : BytesIO) : nat := position f.

Definition getvalue (f : BytesIO) : list byte := buffer f.

End Bytes.

(** ** Formatting and [base64.b64encode] *)

Module Fmt.

Import Bytes.

(** [str(n)] for an [int] *)
Definition str_int (n : Z) : string := pretty n.

(** [f"{n:02d}"]: zeros are added up to two characters. *)
Definition format_02d (n : Z) : string :=
  if (0 <=? n) && (n <=? 9) then "0" +:+ str_int n else str_int n.

Definition b64_alphabet : string :=
  "ABCDEFGHIJKLMNOPQRSTUVWXYZabcdefghijklmnopqrstuvwxyz0123456789+/".

Definition b64_char (n : Z) : ascii :=
  match String.get (Z.to_nat n) b64_alphabet with
  | Some c => c
  | None => "="%char
  end.

(** Three bytes give four characters; a last group of one or two bytes
    is padded with [=]. *)
Fixpoint b64encode (data : list byte) : string :=
  match data with
  | [] => EmptyString
  | [x] =>
      let n := Z_of_byte x in
      String (b64_char (n / 4))
        (String (b64_char (n mod 4 * 16)) "==")
  | [x; y] =>
      let n := Z_of_byte x in
      let m := Z_of_byte y in
      String (b64_char (n / 4))
        (String (b64_char (n mod 4 * 16 + m / 16))
           (String (b64_char (m mod 16 * 4)) "="))
  | x :: y :: z :: rest =>
      let n := Z_of_byte x in
      let m := Z_of_byte y in
      let k := Z_of_byte z in
      String (b64_char (n / 4))
        (String (b64_char (n mod 4 * 16 + m / 16))
           (String (b64_char (m mod 16 * 4 + k / 64))
              (String (b64_char (k mod 64)) (b64encode rest))))
  end.

End Fmt.

(** ** [wave.Wave_write] (CPython's [Lib/wave.py], write side)

    The writer and the file object it was opened on.  The tool keeps its
    own reference to that file object ([wav_buffer]) and reads it after
    the writer is closed, so the file is a component of the state and
    the writer's attribute [_file] only says whether it still refers to
    it.  The host is little-endian: [writeframesraw] swaps no bytes. *)

Module Wave.

Import Bytes Eff.
Local Open Scope py_scope.

Definition WAVE_FORMAT_PCM : Z := 1.

Record Wave_write : Type := {
  _file : bool;                   (* false once set to None *)
  _nchannels : Z;
  _sampwidth : Z;
  _framerate : Z;
  _nframes : Z;
  _nframeswritten : Z;
  _datawritten : Z;
  _datalength : Z;
  _headerwritten : bool;
  _form_length_pos : nat;
  _data_length_pos : nat
}.

Record state : Type := { self : Wave_write; file : BytesIO }.

Definition Error {A} (msg : string) : SE state A :=
  throw (Exn WaveError msg).

(** [wave.open(f, 'wb')]: [Wave_write.__init__] and [initfp] *)
Definition open_wb (f : BytesIO) : state :=
  {| self := {| _file := true; _nchannels := 0; _sampwidth := 0;
                _framerate := 0; _nframes := 0; _nframeswritten := 0;
                _datawritten := 0; _datalength := 0;
                _headerwritten := false;
                _form_length_pos := O; _data_length_pos := O |};
     file := f |}.

Definition update (f : Wave_write -> Wave_write) : SE state unit :=
  modify (fun st => {| self := f (self st); file := file st |}).

Definition file_write (data : list byte) : SE state unit :=
  modify (fun st => {| self := self st; file := write data (file st) |}).

Definition file_seek (p : nat) : SE state unit :=
  modify (fun st => {| self := self st; file := seek p (file st) |}).

Definition attr {A} (f : Wave_write -> A) : SE state A :=
  fun st => (inr (f (self st)), st).

Definition file_tell : SE state nat :=
  fun st => (inr (tell (file st)), st).

Definition set_nchannels v w :=
  {| _file := _file w; _nchannels := v; _sampwidth := _sampwidth w;
     _framerate := _framerate w; _nframes := _nframes w;
     _nframeswritten := _nframeswritten w; _datawritten := _datawritten w;
     _datalength := _datalength w; _headerwritten := _headerwritten w;
     _form_length_pos := _form_length_pos w;
     _data_length_pos := _data_length_pos w |}.

Definition set_sampwidth v w :=
  {| _file := _file w; _nchannels := _nchannels w; _sampwidth := v;
     _framerate := _framerate w; _nframes := _nframes w;
     _nframeswritten := _nframeswritten w; _datawritten := _datawritten w;
     _datalength := _datalength w; _headerwritten := _headerwritten w;
     _form_length_pos := _form_length_pos w;
     _data_length_pos := _data_length_pos w |}.

Definition set_framerate v w :=
  {| _file := _file w; _nchannels := _nchannels w;
     _sampwidth := _sampwidth w; _framerate := v; _nframes := _nframes w;
     _nframeswritten := _nframeswritten w; _datawritten := _datawritten w;
     _datalength := _datalength w; _headerwritten := _headerwritten w;
     _form_length_pos := _form_length_pos w;
     _data_length_pos := _data_length_pos w |}.

Definition set_nframes v w :=
  {| _file := _file w; _nchannels := _nchannels w;
     _sampwidth := _sampwidth w; _framerate := _framerate w; _nframes := v;
     _nframeswritten := _nframeswritten w; _datawritten := _datawritten w;
     _datalength := _datalength w; _headerwritten := _headerwritten w;
     _form_length_pos := _form_length_pos w;
     _data_length_pos := _data_length_pos w |}.

Definition set_nframeswritten v w :=
  {| _file := _file w; _nchannels := _nchannels w;
     _sampwidth := _sampwidth w; _framerate := _framerate w;
     _nframes := _nframes w; _nframeswritten := v;
     _datawritten := _datawritten w; _datalength := _datalength w;
     _headerwritten := _headerwritten w;
     _form_length_pos := _form_length_pos w;
     _data_length_pos := _data_length_pos w |}.

Definition set_datawritten v w :=
  {| _file := _file w; _nchannels := _nchannels w;
     _sampwidth := _sampwidth w; _framerate := _framerate w;
     _nframes := _nframes w; _nframeswritten := _nframeswritten w;
     _datawritten := v; _datalength := _datalength w;
     _headerwritten := _headerwritten w;
     _form_length_pos := _form_length_pos w;
     _data_length_pos := _data_length_pos w |}.

Definition set_datalength v w :=
  {| _file := _file w; _nchannels := _nchannels w;
     _sampwidth := _sampwidth w; _framerate := _framerate w;
     _nframes := _nframes w; _nframeswritten := _nframeswritten w;
     _datawritten := _datawritten w; _datalength := v;
     _headerwritten := _headerwritten w;
     _form_length_pos := _form_length_pos w;
     _data_length_pos := _data_length_pos w |}.

Definition set_headerwritten v w :=
  {| _file := _file w; _nchannels := _nchannels w;
     _sampwidth := _sampwidth w; _framerate := _framerate w;
     _nframes := _nframes w; _nframeswritten := _nframeswritten w;
     _datawritten := _datawritten w; _datalength := _datalength w;
     _headerwritten := v;
     _form_length_pos := _form_length_pos w;
     _data_length_pos := _data_length_pos w |}.

Definition set_form_length_pos v w :=
  {| _file := _file w; _nchannels := _nchannels w;
     _sampwidth := _sampwidth w; _framerate := _framerate w;
     _nframes := _nframes w; _nframeswritten := _nframeswritten w;
     _datawritten := _datawritten w; _datalength := _datalength w;
     _headerwritten := _headerwritten w;
     _form_length_pos := v;
     _data_length_pos := _data_length_pos w |}.

Definition set_data_length_pos v w :=
  {| _file := _file w; _nchannels := _nchannels w;
     _sampwidth := _sampwidth w; _framerate := _framerate w;
     _nframes := _nframes w; _nframeswritten := _nframeswritten w;
     _datawritten := _datawritten w; _datalength := _datalength w;
     _headerwritten := _headerwritten w;
     _form_length_pos := _form_length_pos w;
     _data_length_pos := v |}.

Definition set_file v w :=
  {| _file := v; _nchannels := _nchannels w;
     _sampwidth := _sampwidth w; _framerate := _framerate w;
     _nframes := _nframes w; _nframeswritten := _nframeswritten w;
     _datawritten := _datawritten w; _datalength := _datalength w;
     _headerwritten := _headerwritten w;
     _form_length_pos := _form_length_pos w;
     _data_length_pos := _data_length_pos w |}.

Definition setnchannels (nchannels : Z) : SE state unit :=
  let+ written := attr _datawritten in
  if negb (written =? 0)
  then Error "cannot change parameters after starting to write"
  else if nchannels <? 1 then Error "bad # of channels"
  else update (set_nchannels nchannels).

Definition setsampwidth (sampwidth : Z) : SE state unit :=
  let+ written := attr _datawritten in
  if negb (written =? 0)
  then Error "cannot change parameters after starting to write"
  else if (sampwidth <? 1) || (4 <? sampwidth) then Error "bad sample width"
  else update (set_sampwidth sampwidth).

Definition setframerate (framerate : Z) : SE state unit :=
  let+ written := attr _datawritten in
  if negb (written =? 0)
  then Error "cannot change parameters after starting to write"
  else if framerate <=? 0 then Error "bad frame rate"
  else update (set_framerate framerate).

(** [struct.pack('<L4s4sLHHLLHH4s', ...)] of [_write_header] *)
Definition pack_header (datalength nchannels framerate sampwidth : Z)
  : result (list byte) :=
  (let! riff_len := pack_L (36 + datalength) in
   let! fmt_len := pack_L 16 in
   let! format := pack_H WAVE_FORMAT_PCM in
   let! chans := pack_H nchannels in
   let! rate := pack_L framerate in
   let! byte_rate := pack_L (nchannels * framerate * sampwidth) in
   let! block_align := pack_H (nchannels * sampwidth) in
   let! bits := pack_H (sampwidth * 8) in
   ret (riff_len ++ bytes_of "WAVE" ++ bytes_of "fmt " ++ fmt_len ++ format ++ chans
          ++ rate ++ byte_rate ++ block_align ++ bits ++ bytes_of "data"))%py.

Definition _write_header (initlength : Z) : SE state unit :=
  file_write (bytes_of "RIFF") ;+
  let+ nframes := attr _nframes in
  let+ nchannels := attr _nchannels in
  let+ sampwidth := attr _sampwidth in
  let+ framerate := attr _framerate in
  (if nframes =? 0
   then update (set_nframes (initlength / (nchannels * sampwidth)))
   else pure tt) ;+
  let+ nframes := attr _nframes in
  update (set_datalength (nframes * nchannels * sampwidth)) ;+
  let+ datalength := attr _datalength in
  let+ pos := file_tell in
  update (set_form_length_pos pos) ;+
  let+ header := lift (pack_header datalength nchannels framerate sampwidth) in
  file_write header ;+
  let+ pos := file_tell in
  update (set_data_length_pos pos) ;+
  let+ len := lift (pack_L datalength) in
  file_write len ;+
  update (set_headerwritten true).

Definition _ensure_header_written (datasize : Z) : SE state unit :=
  let+ written := attr _headerwritten in
  if written then pure tt
  else
    let+ nchannels := attr _nchannels in
    let+ sampwidth := attr _sampwidth in
    let+ framerate := attr _framerate in
    if nchannels =? 0 then Error "# channels not specified"
    else if sampwidth =? 0 then Error "sample width not specified"
    else if framerate =? 0 then Error "sampling rate not specified"
    else _write_header datasize.

Definition _patchheader : SE state unit :=
  let+ datawritten := attr _datawritten in
  let+ datalength := attr _datalength in
  if datawritten =? datalength then pure tt
  else
    let+ curpos := file_tell in
    let+ form_length_pos := attr _form_length_pos in
    file_seek form_length_pos ;+
    let+ riff_len := lift (pack_L (36 + datawritten)) in
    file_write riff_len ;+
    let+ data_length_pos := attr _data_length_pos in
    file_seek data_length_pos ;+
    let+ len := lift (pack_L datawritten) in
    file_write len ;+
    file_seek curpos ;+
    update (set_datalength datawritten).

(** The data argument is [None] when the provider sent a blob without
    bytes: [memoryview(None)] is a [TypeError]. *)
Definition writeframesraw (data : option (list byte)) : SE state unit :=
  let+ data :=
    match data with
    | Some d => pure d
    | None =>
        throw (Exn TypeError
          "memoryview: a bytes-like object is required, not 'NoneType'")
    end in
  let len := Z.of_nat (length data) in
  _ensure_header_written len ;+
  let+ sampwidth := attr _sampwidth in
  let+ nchannels := attr _nchannels in
  let nframes := len / (sampwidth * nchannels) in
  file_write data ;+
  let+ datawritten := attr _datawritten in
  update (set_datawritten (datawritten + len)) ;+
  let+ nframeswritten := attr _nframeswritten in
  update (set_nframeswritten (nframeswritten + nframes)).

Definition writeframes (data : option (list byte)) : SE state unit :=
  writeframesraw data ;+
  let+ datalength := attr _datalength in
  let+ datawritten := attr _datawritten in
  if negb (datalength =? datawritten) then _patchheader else pure tt.

(** [close]: the file was passed in as an object, so it is flushed and
    let go of, not closed. *)
Definition close : SE state unit :=
  finally
    (let+ f := attr _file in
     if f then
       _ensure_header_written 0 ;+
       let+ datalength := attr _datalength in
       let+ datawritten := attr _datawritten in
       if negb (datalength =? datawritten) then _patchheader else pure tt
     else pure tt)
    (update (set_file false)).

(** [with w: body]: [__exit__] closes the writer on both outcomes and
    never swallows the body's exception; an exception raised by [close]
    itself takes its place. *)
Definition with_writer {A} (body : SE state A) : SE state A :=
  fun st =>
    match body st with
    | (r, st') =>
        match close st' with
        | (inl e, st'') => (inl e, st'')
        | (inr _, st'') => (r, st'')
        end
    end.

End Wave.

(** ** The [google.genai.types] values the tool builds and reads *)

Module Genai.

Record PrebuiltVoiceConfig : Type := { voice_name : string }.

Record VoiceConfig : Type :=
  { prebuilt_voice_config : PrebuiltVoiceConfig }.

Record SpeakerVoiceConfig : Type :=
  { speaker : string; speaker_voice_config : VoiceConfig }.

Record MultiSpeakerVoiceConfig : Type :=
  { speaker_voice_configs : list SpeakerVoiceConfig }.

(** Every field of these models is optional; an argument that is not
    passed is [None]. *)
Record SpeechConfig : Type := {
  voice_config : option VoiceConfig;
  multi_speaker_voice_config : option MultiSpeakerVoiceConfig
}.

Record GenerateContentConfig : Type := {
  response_modalities : list string;
  speech_config : SpeechConfig
}.

(** The arguments of one [client.models.generate_content] call. *)
Record Request : Type := {
  model : string;
  contents : string;
  config : GenerateContentConfig
}.

Record Blob : Type := {
  data : option (list byte);
  mime_type : option string
}.

Record Part : Type := { inline_data : option Blob }.

Record Content : Type := { parts : option (list Part) }.

Record Candidate : Type := { content : option Content }.

Record GenerateContentResponse : Type :=
  { candidates : option (list Candidate) }.

(** [types.Part.from_bytes(data=..., mime_type=...)] *)
Definition Part_from_bytes (d : list byte) (m : string) : Part :=
  {| inline_data := Some {| data := Some d; mime_type := Some m |} |}.

End Genai.

(** ** tenacity's retry loop

    [Retrying.__call__] with [stop=stop_after_attempt(n)],
    [wait=wait_exponential(multiplier, min, max)] (base 2) and
    [retry=retry_if_exception_type(cls)]; [reraise] keeps its default
    [False], so giving up raises [RetryError] from the last attempt.
    The outcome of attempt [k] is kept in a [Future] object made for it;
    [future_at k] is the address the runtime gives that object. *)

Module Tenacity.

Import Eff.
Local Open Scope py_scope.

Record Retrying : Type := {
  stop_after_attempt : nat;
  wait_multiplier : Z;
  wait_min : Z;
  wait_max : Z;
  retry_if_exception_type : exn_class
}.

(** [wait_exponential.__call__]: the wait after attempt [attempt_number]
    has failed. *)
Definition wait_exponential (r : Retrying) (attempt_number : nat) : Z :=
  let exp := 2 ^ (Z.of_nat attempt_number - 1) in
  let result := wait_multiplier r * exp in
  Z.max (Z.max 0 (wait_min r)) (Z.min result (wait_max r)).

(** Whether the outcome of an attempt asks for another one: an explicit
    [TryAgain], or an exception of the configured class. *)
Definition wants_retry (r : Retrying) (e : exn) : bool :=
  isinstance e TryAgain || isinstance e (retry_if_exception_type r).

(** The loop from attempt [attempt_number] on.  The stop condition
    [attempt_number >= n] is the case [remaining = 0], where [remaining]
    counts the attempts still allowed after this one. *)
Fixpoint attempts {St A} (r : Retrying) (future_at : nat -> string)
    (sleep : Z -> SE St unit) (fn : SE St A) (remaining : nat)
    (attempt_number : nat) : SE St A :=
  fun st =>
    match fn st with
    | (inr a, st') => (inr a, st')
    | (inl e, st') =>
        if wants_retry r e then
          match remaining with
          | O => (inl (RetryError (future_at attempt_number) e), st')
          | S remaining' =>
              (sleep (wait_exponential r attempt_number) ;+
               attempts r future_at sleep fn remaining' (S attempt_number))
                st'
          end
        else (inl e, st')
    end.

Definition call {St A} (r : Retrying) (future_at : nat -> string)
    (sleep : Z -> SE St unit) (fn : SE St A) : SE St A :=
  attempts r future_at sleep fn (stop_after_attempt r - 1) 1.

End Tenacity.

(** ** The tool ([app/tools/audio_generator.py]) *)

Module AudioGenerator.

Import Str Bytes Fmt Eff Genai.
Local Open Scope py_scope.

(** Lines 39-63.  [wav_buffer] is read with [getvalue] once the [with]
    block has closed the writer. *)
Definition _wrap_pcm_in_wav (pcm_data : option (list byte))
    (sample_rate channels sample_width : Z) : result (list byte) :=
  let wav_buffer := BytesIO_new in
  match
    Wave.with_writer
      (Wave.setnchannels channels ;+
       Wave.setsampwidth sample_width ;+
       Wave.setframerate sample_rate ;+
       Wave.writeframes pcm_data)
      (Wave.open_wb wav_buffer)
  with
  | (inl e, _) => raise e
  | (inr _, st) => ret (getvalue (Wave.file st))
  end.

(** Lines 66-83.  The [except] clause names the two classes it catches
    and falls through to the default. *)
Definition _parse_sample_rate_from_mime (mime_type : string) : result Z :=
  if contains "rate=" mime_type then
    try_except
      (let! parts := split mime_type "rate=" in
       let! after := getitem parts 1 in
       let! fields := split after ";" in
       let! rate_str := getitem fields 0 in
       py_int rate_str)
      [ValueError; IndexError]
      (fun _ => ret 24000)
  else ret 24000.

(** *** [generate_audio_overview] (lines 86-260)

    What the tool is given from outside: the two settings of
    [app/config.py], the behaviour of the collaborators it calls, and
    the addresses the runtime gives the [Future] objects of the retry
    loop (they show in the text of a [RetryError] and nowhere else).
    [generate_content] is indexed by the number of calls made before, so
    that successive attempts may differ. *)
Record Env : Type := {
  USE_VERTEX_AI : bool;
  TTS_MODEL : string;
  Client : result unit;                               (* genai.Client() *)
  generate_content : nat -> Request -> result GenerateContentResponse;
  save_artifact : string -> Part -> result Z;         (* tool_context *)
  future_at : nat -> string             (* id of the Future of attempt k *)
}.

(** What the tool can change: the session state behind
    [tool_context.state], and, for the record, the requests sent to the
    provider, the sleeps of the retry loop and the artifacts stored.
    Log records are not modelled. *)
Record World : Type := {
  state : gmap string string;
  requests : list Request;
  sleeps : list Z;
  artifacts : list (string * Part * Z)
}.

(** The values of the result dictionary. *)
Inductive value : Type :=
  | VStr (s : string)
  | VBool (v : bool)
  | VInt (n : Z).

Definition dict (items : list (string * value)) : gmap string value :=
  list_to_map items.

Definition state_setitem (k v : string) : SE World unit :=
  modify (fun w => {| state := <[k := v]> (state w);
                      requests := requests w; sleeps := sleeps w;
                      artifacts := artifacts w |}).

Definition time_sleep (seconds : Z) : SE World unit :=
  modify (fun w => {| state := state w; requests := requests w;
                      sleeps := sleeps w ++ [seconds];
                      artifacts := artifacts w |}).

Definition call_generate_content (E : Env) (req : Request)
  : SE World GenerateContentResponse :=
  fun w =>
    (generate_content E (length (requests w)) req,
     {| state := state w; requests := requests w ++ [req];
        sleeps := sleeps w; artifacts := artifacts w |}).

Definition call_save_artifact (E : Env) (filename : string)
    (artifact : Part) : SE World Z :=
  fun w =>
    match save_artifact E filename artifact with
    | inl e => (inl e, w)
    | inr version =>
        (inr version,
         {| state := state w; requests := requests w; sleeps := sleeps w;
            artifacts := artifacts w ++ [(filename, artifact, version)] |})
    end.

(** Lines 121-159 *)
Definition speech_config_for (use_vertex_ai : bool) : SpeechConfig :=
  if use_vertex_ai then
    {| voice_config :=
         Some {| prebuilt_voice_config := {| voice_name := "Kore" |} |};
       multi_speaker_voice_config := None |}
  else
    {| voice_config := None;
       multi_speaker_voice_config :=
         Some {| speaker_voice_configs :=
           [ {| speaker := "Host A";
                speaker_voice_config :=
                  {| prebuilt_voice_config := {| voice_name := "Kore" |} |} |};
             {| speaker := "Host B";
                speaker_voice_config :=
                  {| prebuilt_voice_config := {| voice_name := "Puck" |} |} |}
           ] |} |}.

(** Lines 162-170: the decorator's arguments *)
Definition retry_policy : Tenacity.Retrying :=
  {| Tenacity.stop_after_attempt := 3;
     Tenacity.wait_multiplier := 2;
     Tenacity.wait_min := 2;
     Tenacity.wait_max := 30;
     Tenacity.retry_if_exception_type := ServerError |}.

(** Lines 171-179 *)
Definition generate_with_retry (E : Env) (podcast_script : string)
    (speech_config : SpeechConfig) : SE World GenerateContentResponse :=
  Tenacity.call retry_policy (future_at E) time_sleep
    (call_generate_content E
       {| model := TTS_MODEL E;
          contents := podcast_script;
          config := {| response_modalities := ["AUDIO"];
                       speech_config := speech_config |} |}).

(** Line 202: true division; the quotient is kept exact. *)
Definition duration_seconds (len sample_rate : Z) : result Q :=
  if sample_rate * 2 =? 0
  then raise (Exn ZeroDivisionError "division by zero")
  else ret (inject_Z len / inject_Z (sample_rate * 2))%Q.

(** Line 203: [f"{int(d // 60)}:{int(d % 60):02d}"] *)
Definition duration_str (d : Q) : string :=
  let minutes := Qfloor (d / inject_Z 60) in
  let seconds := Qfloor (d - inject_Z 60 * inject_Z minutes) in
  str_int minutes +:+ ":" +:+ format_02d seconds.

Definition artifact_filename : string := "audio_overview.wav".

(** Line 190: [part.inline_data.mime_type or "audio/L16"]; [None] and
    the empty string are false. *)
Definition raw_mime_type_of (blob : Blob) : string :=
  match mime_type blob with
  | Some (String c m) => String c m
  | _ => "audio/L16"
  end.

(** Lines 226-235: the result when the artifact was saved *)
Definition saved_result (version : Z) (audio_bytes : list byte)
    (mime_type duration_str : string) : gmap string value :=
  dict
    [ ("status", VStr "success");
      ("message", VStr ("Audio overview generated and saved as artifact '"
                          +:+ artifact_filename +:+ "'"));
      ("artifact_saved", VBool true);
      ("artifact_filename", VStr artifact_filename);
      ("artifact_version", VInt version);
      ("mime_type", VStr mime_type);
      ("duration_estimate", VStr duration_str);
      ("size_bytes", VInt (Z.of_nat (length audio_bytes))) ].

(** Lines 239-247: the result when saving raised *)
Definition fallback_result (save_error : exn) (audio_bytes : list byte)
    (mime_type duration_str : string) : gmap string value :=
  dict
    [ ("status", VStr "success");
      ("message", VStr "Audio overview generated but artifact save failed");
      ("artifact_saved", VBool false);
      ("audio_data", VStr (b64encode audio_bytes));
      ("mime_type", VStr mime_type);
      ("duration_estimate", VStr duration_str);
      ("save_error", VStr (str_exn save_error)) ].

(** Lines 250-253 *)
Definition no_audio_result : gmap string value :=
  dict
    [ ("status", VStr "error");
      ("error_message",
       VStr ("No audio was generated in the response. "
               +:+ "The model may have encountered an issue.")) ].

(** Lines 257-260 *)
Definition failure_result (e : exn) : gmap string value :=
  dict
    [ ("status", VStr "error");
      ("error_message",
       VStr ("Failed to generate audio overview: " +:+ str_exn e)) ].

(** Lines 189-247: the body run for the first part that carries inline
    data; both of its branches return. *)
Definition handle_inline_data (E : Env) (blob : Blob)
  : SE World (gmap string value) :=
  let raw_audio_bytes := data blob in
  let raw_mime_type := raw_mime_type_of blob in
  let+ sample_rate := lift (_parse_sample_rate_from_mime raw_mime_type) in
  let+ audio_bytes :=
    lift (_wrap_pcm_in_wav raw_audio_bytes sample_rate 1 2) in
  let mime_type := "audio/wav" in
  let+ len :=
    match raw_audio_bytes with
    | Some d => pure (Z.of_nat (length d))
    | None =>
        throw (Exn TypeError "object of type 'NoneType' has no len()")
    end in
  let+ d := lift (duration_seconds len sample_rate) in
  let duration_str := duration_str d in
  catch
    (let audio_artifact := Part_from_bytes audio_bytes mime_type in
     let+ version := call_save_artifact E artifact_filename audio_artifact in
     let b64_audio := b64encode audio_bytes in
     state_setitem "audio_overview_base64"
       ("data:" +:+ mime_type +:+ ";base64," +:+ b64_audio) ;+
     state_setitem "audio_overview_duration" duration_str ;+
     pure (saved_result version audio_bytes mime_type duration_str))
    [Exception]
    (fun save_error =>
       pure (fallback_result save_error audio_bytes mime_type duration_str)).

(** Lines 187-188: the loop over the parts of the first candidate; the
    first part with inline data ends it. *)
Fixpoint for_part (E : Env) (parts : list Part)
  : SE World (gmap string value) :=
  match parts with
  | [] => pure no_audio_result
  | part :: rest =>
      match inline_data part with
      | Some blob => handle_inline_data E blob
      | None => for_part E rest
      end
  end.

(** Lines 186-253: what is done with the response *)
Definition read_response (E : Env) (response : GenerateContentResponse)
  : SE World (gmap string value) :=
  match candidates response with
  | Some (first :: _) =>
      let+ content :=
        match content first with
        | Some c => pure c
        | None =>
            throw (Exn AttributeError
              "'NoneType' object has no attribute 'parts'")
        end in
      let+ parts :=
        match parts content with
        | Some ps => pure ps
        | None =>
            throw (Exn TypeError "'NoneType' object is not iterable")
        end in
      for_part E parts
  | _ => pure no_audio_result
  end.

Definition generate_audio_overview (E : Env) (podcast_script : string)
  : SE World (gmap string value) :=
  catch
    (lift (Client E) ;+
     let speech_config := speech_config_for (USE_VERTEX_AI E) in
     let+ response := generate_with_retry E podcast_script speech_config in
     read_response E response)
    [Exception]
    (fun e => pure (failure_result e)).

End AudioGenerator.

(** ** The audio overview agent ([sub_agents/audio_overview/agent.py]) *)

Module AudioOverviewAgent.

(** The double quote character. *)
Definition dq : string := String "034"%char EmptyString.

(** Lines 35-131 *)
Definition AUDIO_OVERVIEW_INSTRUCTION_MULTI_SPEAKER : string :=
  "You are a podcast script writer creating an engaging audio summary.

Your task is to generate a conversational podcast-style audio overview of the location intelligence analysis.

TARGET LOCATION: {target_location}
BUSINESS TYPE: {business_type}
CURRENT DATE: {current_date}

## Strategic Report Data
{strategic_report}

## Your Mission
Create an engaging 2-3 minute podcast script with two hosts discussing the analysis findings,
then use the generate_audio_overview tool to convert it to audio.

## Podcast Style
- **NotebookLM-style**: Conversational, friendly, informative
- **Two Hosts**: Host A (narrator/interviewer) and Host B (analyst/expert)
- **Tone**: Professional but approachable, with natural reactions
- **Length**: 2-3 minutes (~400-600 words)

## Script Format
Write the script with speaker labels like this:
```
Host A: Welcome back to Location Intelligence! Today we're diving into...
Host B: Yeah, this is a really interesting analysis. We looked at...
Host A: So what were the key findings?
Host B: Well, the data shows...
```

## Required Sections in Your Script

### 1. Opening (~30 seconds)
- Host A welcomes listeners and introduces the topic
- Host B confirms the business type and location
- Set up why this analysis matters

### 2. Market Overview (~45 seconds)
- Key market characteristics discovered
- Demographics and trends
- Host B shares the most surprising finding

### 3. Competitive Landscape (~45 seconds)
- Number of competitors found
- What makes the top recommendation stand out
- Host A asks about potential concerns, Host B addresses them

### 4. Recommendation & Verdict (~30 seconds)
- Top location recommendation and score
- Market validation verdict
- Key next steps for the entrepreneur

### 5. Closing (~15 seconds)
- Host A summarizes the bottom line
- Host B offers one final tip
- Sign-off

## Steps

### Step 1: Review the Strategic Report
Carefully read the strategic_report data to understand:
- The target location and business type
- Market research findings
- Competitor analysis results
- Top recommendation and score
- Key strengths and concerns

### Step 2: Write the Podcast Script
Compose an engaging script following the format above.
Make it conversational with natural dialogue patterns:
- Use filler phrases occasionally (" +:+
  dq +:+
  "you know" +:+
  dq +:+
  ", " +:+
  dq +:+
  "right" +:+
  dq +:+
  ")
- Add reactions (" +:+
  dq +:+
  "That's interesting!" +:+
  dq +:+
  ", " +:+
  dq +:+
  "Exactly!" +:+
  dq +:+
  ", " +:+
  dq +:+
  "I see" +:+
  dq +:+
  ")
- Ask follow-up questions
- Reference specific numbers and findings

### Step 3: Generate Audio
Call the generate_audio_overview tool with your complete script.
The script should be the full dialogue with speaker labels.

### Step 4: Report Result
Confirm the audio was generated successfully.
If there's an error, report it clearly.

## Example Script Opening

Host A: Welcome to Location Intelligence, the podcast where we break down market analysis for entrepreneurs! Today we have a fascinating case study.
Host B: That's right! Someone is looking to open a coffee shop in Indiranagar, Bangalore, and we ran the full analysis.
Host A: So what did we find? Is it a good opportunity?
Host B: Well, let me tell you - the numbers are really interesting. We found 47 competitors in the area, which might sound like a lot, but...

## Output
The generate_audio_overview tool will return:
- status: " +:+
  dq +:+
  "success" +:+
  dq +:+
  " or " +:+
  dq +:+
  "error" +:+
  dq +:+
  "
- artifact_saved: True if audio was saved
- duration_estimate: Approximate audio length
- error_message: Details if failed
".

(** Lines 134-229 *)
Definition AUDIO_OVERVIEW_INSTRUCTION_SINGLE_SPEAKER : string :=
  "You are a professional narrator creating an engaging audio summary.

Your task is to generate a narrative audio overview of the location intelligence analysis.

TARGET LOCATION: {target_location}
BUSINESS TYPE: {business_type}
CURRENT DATE: {current_date}

## Strategic Report Data
{strategic_report}

## Your Mission
Create an engaging 2-3 minute narrative script that summarizes the analysis findings,
then use the generate_audio_overview tool to convert it to audio.

## Narration Style
- **Professional narrator**: Clear, informative, engaging
- **Single voice**: Write as a cohesive narrative (no dialogue or speaker labels)
- **Tone**: Authoritative but friendly, like a business news report
- **Length**: 2-3 minutes (~400-600 words)

## Script Format
Write as flowing narrative paragraphs. Do NOT use speaker labels.
```
Welcome to this Location Intelligence report. Today we're analyzing an exciting business opportunity...

The market research reveals some fascinating insights about this location...

When we look at the competitive landscape, we find...
```

## Required Sections in Your Script

### 1. Introduction (~30 seconds)
- Welcome the listener
- Introduce the business type and location
- Set up why this analysis matters

### 2. Market Overview (~45 seconds)
- Key market characteristics discovered
- Demographics and trends
- The most surprising or important finding

### 3. Competitive Landscape (~45 seconds)
- Number of competitors found
- What makes the top recommendation stand out
- Address any potential concerns

### 4. Recommendation & Verdict (~30 seconds)
- Top location recommendation and score
- Market validation verdict
- Key next steps for the entrepreneur

### 5. Closing (~15 seconds)
- Summarize the bottom line
- Offer one final tip
- Sign-off

## Steps

### Step 1: Review the Strategic Report
Carefully read the strategic_report data to understand:
- The target location and business type
- Market research findings
- Competitor analysis results
- Top recommendation and score
- Key strengths and concerns

### Step 2: Write the Narrative Script
Compose an engaging narrative following the structure above.
Make it professional but accessible:
- Use clear transitions between sections
- Reference specific numbers and findings
- Keep sentences flowing naturally for spoken delivery

### Step 3: Generate Audio
Call the generate_audio_overview tool with your complete script.
The script should be plain narrative text without speaker labels.

### Step 4: Report Result
Confirm the audio was generated successfully.
If there's an error, report it clearly.

## Example Script Opening

Welcome to this Location Intelligence report. Today we're analyzing a compelling business opportunity - opening a coffee shop in Indiranagar, Bangalore. We've conducted comprehensive research to help you make an informed decision.

Let's start with what the market data tells us. Indiranagar has emerged as one of Bangalore's most vibrant commercial districts, with a young, affluent population that appreciates quality coffee experiences...

## Output
The generate_audio_overview tool will return:
- status: " +:+
  dq +:+
  "success" +:+
  dq +:+
  " or " +:+
  dq +:+
  "error" +:+
  dq +:+
  "
- artifact_saved: True if audio was saved
- duration_estimate: Approximate audio length
- error_message: Details if failed
".

(** Lines 232-235 *)
Definition AUDIO_OVERVIEW_INSTRUCTION (use_vertex_ai : bool) : string :=
  if use_vertex_ai then AUDIO_OVERVIEW_INSTRUCTION_SINGLE_SPEAKER
  else AUDIO_OVERVIEW_INSTRUCTION_MULTI_SPEAKER.

(** Lines 237-254: the fields of the agent that do not come from
    modules outside this development. *)
Record LlmAgent : Type := {
  name : string;
  description : string;
  instruction : string;
  tools : list string;
  output_key : string
}.

Definition audio_overview_agent (use_vertex_ai : bool) : LlmAgent :=
  {| name := "AudioOverviewAgent";
     description :=
       "Generates audio overview using Gemini TTS "
         +:+ "(multi-speaker in AI Studio, single-speaker in Vertex AI)";
     instruction := AUDIO_OVERVIEW_INSTRUCTION use_vertex_ai;
     tools := ["generate_audio_overview"];
     output_key := "audio_overview_result" |}.

End AudioOverviewAgent.

(** ** Vocabulary of the statements *)

Module Spec.

Import Str Bytes Fmt Genai AudioGenerator.

(** A string of decimal digits and the integer it denotes. *)
Fixpoint all_digits (s : string) : bool :=
  match s with
  | EmptyString => true
  | String c s' => is_digit c && all_digits s'
  end.

Fixpoint decimal_from (acc : Z) (s : string) : Z :=
  match s with
  | EmptyString => acc
  | String c s' => decimal_from (10 * acc + digit_value c) s'
  end.

Definition decimal_value (s : string) : Z := decimal_from 0 s.

(** The MIME string carries a parameter [rate=<n>], [n] written in
    decimal digits and ended by [;] or by the end of the string. *)
Definition has_rate_param (mime : string) (n : Z) : Prop :=
  exists pre ds post,
    mime = pre +:+ "rate=" +:+ ds +:+ post
    /\ ds <> EmptyString /\ all_digits ds = true /\ decimal_value ds = n
    /\ (post = EmptyString \/ exists r, post = ";" +:+ r).

(** The same, at the first place where [rate=] occurs in the string:
    no occurrence starts inside [pre]. *)
Definition first_rate_at (pre : string) : Prop :=
  contains "rate=" (pre +:+ "rate") = false.

(** The text in front of the first occurrence, the whole string when
    there is none: the first element of the split. *)
Definition before (sep s : string) : string :=
  match partition sep s with
  | Some (a, _) => a
  | None => s
  end.

(** The 44 bytes in front of the samples of a PCM file: the RIFF chunk,
    the format chunk and the head of the data chunk. *)
Definition wav_header (nchannels sampwidth framerate datalength : Z)
  : list byte :=
  bytes_of "RIFF" ++ le_bytes 4 (36 + datalength)
    ++ bytes_of "WAVE" ++ bytes_of "fmt " ++ le_bytes 4 16
    ++ le_bytes 2 1 ++ le_bytes 2 nchannels ++ le_bytes 4 framerate
    ++ le_bytes 4 (nchannels * framerate * sampwidth)
    ++ le_bytes 2 (nchannels * sampwidth) ++ le_bytes 2 (sampwidth * 8)
    ++ bytes_of "data" ++ le_bytes 4 datalength.

Definition header_size : nat := 44.

(** Fields of the format chunk as a reader finds them. *)
Definition field (offset size : nat) (wav : list byte) : option Z :=
  let bs := take size (List.skipn offset wav) in
  if (length bs =? size)%nat then Some (le_value bs) else None.

Definition declared_channels : list byte -> option Z := field 22 2.
Definition declared_sample_rate : list byte -> option Z := field 24 4.
Definition declared_bits_per_sample : list byte -> option Z := field 34 2.
Definition declared_data_length : list byte -> option Z := field 40 4.

(** The first part of a list that carries inline data. *)
Fixpoint first_inline_data (ps : list Part) : option Blob :=
  match ps with
  | [] => None
  | p :: rest =>
      match inline_data p with
      | Some blob => Some blob
      | None => first_inline_data rest
      end
  end.

(** The world after [n] more calls of the provider with the request
    [req] and the sleeps [slept] in between, and the outcome of the
    [k]-th call from [w] on (counted from 0). *)
Definition after_attempts (req : Request) (w : World) (n : nat)
    (slept : list Z) : World :=
  {| state := state w;
     requests := requests w ++ repeat req n;
     sleeps := sleeps w ++ slept;
     artifacts := artifacts w |}.

Definition outcome (E : Env) (req : Request) (w : World) (k : nat)
  : result GenerateContentResponse :=
  generate_content E (length (requests w) + k) req.

(** The request of [generate_with_retry]. *)
Definition tts_request (E : Env) (podcast_script : string)
    (cfg : SpeechConfig) : Request :=
  {| model := TTS_MODEL E;
     contents := podcast_script;
     config := {| response_modalities := ["AUDIO"];
                  speech_config := cfg |} |}.

(** The duration estimate of a payload at a sample rate. *)
Definition duration_estimate (pcm : list byte) (sample_rate : Z) : string :=
  duration_str
    (inject_Z (Z.of_nat (length pcm)) / inject_Z (sample_rate * 2))%Q.

(** The world after the artifact was saved as [version] and the two
    state keys were written. *)
Definition after_save (w : World) (audio_bytes : list byte)
    (duration_str : string) (version : Z) : World :=
  {| state :=
       <["audio_overview_duration" := duration_str]>
         (<["audio_overview_base64" :=
              "data:" +:+ "audio/wav" +:+ ";base64,"
                +:+ b64encode audio_bytes]> (state w));
     requests := requests w;
     sleeps := sleeps w;
     artifacts :=
       artifacts w
         ++ [(artifact_filename, Part_from_bytes audio_bytes "audio/wav",
              version)] |}.

(** The blob the tool works on: the first part with inline data among
    the parts of the first candidate. *)
Definition first_audio (r : GenerateContentResponse) : option Blob :=
  match candidates r with
  | Some (first :: _) =>
      match content first with
      | Some ct =>
          match parts ct with
          | Some ps => first_inline_data ps
          | None => None
          end
      | None => None
      end
  | _ => None
  end.

(** The two speech configurations in the words of the specification: a
    single narrator with one voice, and speakers with a voice each. *)
Definition prebuilt_voice (voice : string) : VoiceConfig :=
  {| prebuilt_voice_config := {| voice_name := voice |} |}.

Definition single_narrator (voice : string) : SpeechConfig :=
  {| voice_config := Some (prebuilt_voice voice);
     multi_speaker_voice_config := None |}.

Definition dual_speaker (voices : list (string * string)) : SpeechConfig :=
  {| voice_config := None;
     multi_speaker_voice_config :=
       Some {| speaker_voice_configs :=
                 map (fun lv =>
                        {| speaker := fst lv;
                           speaker_voice_config := prebuilt_voice (snd lv) |})
                     voices |} |}.

(** Some part of some candidate carries inline data. *)
Definition part_has_audio (p : Part) : bool :=
  match inline_data p with Some _ => true | None => false end.

Definition candidate_has_audio (c : Candidate) : bool :=
  match content c with
  | Some ct =>
      match parts ct with
      | Some ps => existsb part_has_audio ps
      | None => false
      end
  | None => false
  end.

Definition has_audio_part (r : GenerateContentResponse) : bool :=
  match candidates r with
  | Some cs => existsb candidate_has_audio cs
  | None => false
  end.

End Spec.

(** ** Concrete runs *)

Module Scenario.

Import Bytes Genai AudioGenerator.

Definition empty_world : World :=
  {| state := ∅; requests := []; sleeps := []; artifacts := [] |}.

Definition overloaded : exn :=
  Exn ServerError "503 UNAVAILABLE. The model is overloaded.".

Definition invalid_argument : exn :=
  Exn ClientError "400 INVALID_ARGUMENT.".

Definition store_down : exn :=
  Exn Exception "artifact service unavailable".

(** A response whose first candidate has a text part and an audio part. *)
Definition audio_response (pcm : list byte) (mime : string)
  : GenerateContentResponse :=
  {| candidates := Some
       [ {| content := Some {| parts := Some
              [ {| inline_data := None |};
                {| inline_data :=
                     Some {| data := Some pcm; mime_type := Some mime |} |}
              ] |} |} ] |}.

Definition text_only_response : GenerateContentResponse :=
  {| candidates := Some
       [ {| content := Some {| parts := Some [ {| inline_data := None |} ]
                            |} |} ] |}.

Definition env (provider : nat -> Request -> result GenerateContentResponse)
    (store : string -> Part -> result Z) : Env :=
  {| USE_VERTEX_AI := false;
     TTS_MODEL := "tts-model";
     Client := inr tt;
     generate_content := provider;
     save_artifact := store;
     future_at := fun _ => "0x7f3c2a1b5e90" |}.

(** Overloaded on the first two calls, then the response. *)
Definition flaky (resp : GenerateContentResponse)
  : nat -> Request -> result GenerateContentResponse :=
  fun n _ => if (n <? 2)%nat then inl overloaded else inr resp.

Definition always (r : result GenerateContentResponse)
  : nat -> Request -> result GenerateContentResponse :=
  fun _ _ => r.

Definition store_ok : string -> Part -> result Z := fun _ _ => inr 0.
Definition store_fails : string -> Part -> result Z :=
  fun _ _ => inl store_down.

Definition pcm4 : list byte := [x01; x02; x03; x04].
Definition gemini_mime : string := "audio/L16;codec=pcm;rate=24000".

End Scenario.


(** ** Vocabulary of the properties beyond the claims *)

Module Contract.

Import Str Bytes Fmt Eff Genai AudioGenerator Spec.

(** The text the parser hands to [int]: what stands between the first
    [rate=] and the next [rate=] or [;]. *)
Definition rate_field (mime : string) : option string :=
  match partition "rate=" mime with
  | None => None
  | Some (_, r) => Some (before ";" (before "rate=" r))
  end.

(** The value of the parser, written without exceptions. *)
Definition parsed_rate (mime : string) : Z :=
  match rate_field mime with
  | None => 24000
  | Some v =>
      match py_int v with
      | inr n => n
      | inl _ => 24000
      end
  end.

(** The exception [_wrap_pcm_in_wav] ends with when a parameter is
    refused: the one [close] raises for the first parameter, in the order
    channels, sample width, frame rate, that was never set. *)
Definition refused_parameter (channels sample_width : Z) : exn :=
  Exn WaveError
    (if channels <? 1 then "# channels not specified"
     else if (sample_width <? 1) || (4 <? sample_width)
          then "sample width not specified"
          else "sampling rate not specified").

(** The parameters and the payload length fit the fields of the header. *)
Definition fits_header (channels sample_width sample_rate len : Z) : Prop :=
  1 <= channels <= 65535 /\ 1 <= sample_width <= 4
  /\ channels * sample_width <= 65535
  /\ 0 < sample_rate
  /\ channels * sample_rate * sample_width <= 4294967295
  /\ 36 + len <= 4294967295.

(** Whole seconds of a payload of [len] bytes of 16-bit mono samples. *)
Definition whole_seconds (len sample_rate : Z) : Z := len / (sample_rate * 2).

(** A computation raises only exceptions that satisfy [P]. *)
Definition raises_only {St A} (P : exn -> Prop) (m : SE St A) : Prop :=
  forall s e s', m s = (inl e, s') -> P e.

Definition is_Exception (e : exn) : Prop := isinstance e Exception = true.

(** The exceptions of [wave] and [struct], and the [TypeError] of a
    payload that is no bytes object. *)
Definition wave_exn (e : exn) : Prop :=
  class_of e = WaveError \/ class_of e = StructError
  \/ class_of e = TypeError.

(** The collaborators of the tool raise nothing but instances of
    [Exception]: no cancellation, no interrupt. *)
Definition raises_Exceptions_only (E : Env) : Prop :=
  (forall e, Client E = inl e -> is_Exception e)
  /\ (forall n req e, generate_content E n req = inl e -> is_Exception e)
  /\ (forall f p e, save_artifact E f p = inl e -> is_Exception e).

(** The sleeps of the retry loop after [m] calls. *)
Definition sleeps_before (m : nat) : list Z := take (m - 1) [2; 4].

(** What the retry loop makes of the outcome of its last call, whose
    [Future] sits at the address [at_]. *)
Definition final_outcome (at_ : string) (r : result GenerateContentResponse)
  : result GenerateContentResponse :=
  match r with
  | inr resp => inr resp
  | inl e =>
      if Tenacity.wants_retry retry_policy e then inl (RetryError at_ e)
      else inl e
  end.

(** The first field of the header of 16-bit mono audio that does not
    fit its 32 bits, in the order [struct.pack] takes them: the RIFF
    size (36 more than the bytes of the whole frames), the sample rate,
    the byte rate. *)
Definition first_overflow (len sample_rate : Z) : Z :=
  if 4294967295 <? 36 + len / 2 * 2 then 36 + len / 2 * 2
  else if 4294967295 <? sample_rate then sample_rate
  else 1 * sample_rate * 2.

(** The results of the tool that do not report a saved artifact. *)
Inductive unsaved_result : gmap string value -> Prop :=
  | returned_no_audio : unsaved_result no_audio_result
  | returned_failure (e : exn) : unsaved_result (failure_result e)
  | returned_fallback (e : exn) (audio : list byte) (dur : string) :
      unsaved_result (fallback_result e audio "audio/wav" dur).

(** The container the tool builds from a blob of the response. *)
Definition container_of (blob : Blob) (pcm : list byte) : list byte :=
  wav_header 1 2 (parsed_rate (raw_mime_type_of blob))
    (Z.of_nat (length pcm)) ++ pcm.

Definition duration_of (blob : Blob) (pcm : list byte) : string :=
  duration_estimate pcm (parsed_rate (raw_mime_type_of blob)).

(** The blob can be wrapped: it carries bytes, and its sample rate and
    the length of its payload fit the header. *)
Definition wrappable (blob : Blob) (pcm : list byte) : Prop :=
  data blob = Some pcm
  /\ 0 < parsed_rate (raw_mime_type_of blob) <= 2147483647
  /\ Z.of_nat (length pcm) <= 4294967259.

(** Reading base64 text back, as a consumer of the data URI does: the
    place of a character in the alphabet, and four characters to three
    bytes, fewer before padding. *)
Fixpoint index_from (i : Z) (c : ascii) (s : string) : Z :=
  match s with
  | EmptyString => 0
  | String x s' => if Ascii.eqb c x then i else index_from (i + 1) c s'
  end.

Definition b64_index (c : ascii) : Z := index_from 0 c b64_alphabet.

Fixpoint b64decode (s : string) : list byte :=
  match s with
  | String a (String b (String c (String d rest))) =>
      let n0 := b64_index a in
      let n1 := b64_index b in
      let n2 := b64_index c in
      let n3 := b64_index d in
      if Ascii.eqb c "="
      then [byte_of_Z (n0 * 4 + n1 / 16)]
      else if Ascii.eqb d "="
      then [byte_of_Z (n0 * 4 + n1 / 16);
            byte_of_Z (n1 mod 16 * 16 + n2 / 4)]
      else byte_of_Z (n0 * 4 + n1 / 16)
             :: byte_of_Z (n1 mod 16 * 16 + n2 / 4)
             :: byte_of_Z (n2 mod 4 * 64 + n3)
             :: b64decode rest
  | _ => []
  end.

End Contract.
Import Str Bytes Fmt Eff Genai AudioGenerator AudioOverviewAgent Spec.
Import Contract.

(** ** Strings: [startswith], [partition], [split] *)

Section StringLemmas.

Lemma append_assoc (a b c : string) : (a +:+ b) +:+ c = a +:+ (b +:+ c).
Proof. induction a as [|x a IH]; simpl; [reflexivity | now rewrite IH]. Qed.

Lemma append_nil_r (a : string) : a +:+ "" = a.
Proof. induction a as [|x a IH]; simpl; [reflexivity | now rewrite IH]. Qed.

Lemma length_append (a b : string) :
  String.length (a +:+ b) = (String.length a + String.length b)%nat.
Proof. induction a as [|x a IH]; simpl; [reflexivity | now rewrite IH]. Qed.

Lemma startswith_cons (a : ascii) (p : string) (x : ascii) (s : string) :
  startswith (String a p) (String x s) = Ascii.eqb a x && startswith p s.
Proof. reflexivity. Qed.

Lemma contains_cons (sub : string) (x : ascii) (s : string) :
  contains sub (String x s) = startswith sub (String x s) || contains sub s.
Proof. reflexivity. Qed.

Lemma startswith_app (p s : string) : startswith p (p +:+ s) = true.
Proof.
  induction p as [|x p IH]; simpl; [reflexivity |].
  now rewrite Ascii.eqb_refl, IH.
Qed.

Lemma drop_app (p s : string) : drop (String.length p) (p +:+ s) = s.
Proof. induction p as [|x p IH]; simpl; [now destruct s | exact IH]. Qed.

(** A prefix test that has enough text to decide is not changed by more
    text. *)
Lemma startswith_long (p s t : string) :
  (String.length p <= String.length s)%nat ->
  startswith p (s +:+ t) = startswith p s.
Proof.
  revert s; induction p as [|x p IH]; intros [|y s] Hlen; simpl in *;
    try reflexivity; try lia.
  rewrite IH by lia. reflexivity.
Qed.

(** A prefix test that succeeds only after a character [c] was added
    must have used [c]. *)
Lemma startswith_through (p s t : string) (c : ascii) :
  startswith p (s +:+ String c t) = true ->
  startswith p s = true \/ contains (String c "") p = true.
Proof.
  revert s; induction p as [|x p IH]; intros s H; simpl in *.
  - now left.
  - destruct s as [|y s]; simpl in *.
    + right. apply andb_true_iff in H as [H _].
      apply Ascii.eqb_eq in H; subst x. rewrite Ascii.eqb_refl.
      now destruct p.
    + apply andb_true_iff in H as [Hxy H].
      destruct (IH _ H) as [IH1 | IH1].
      * left. now rewrite Hxy, IH1.
      * right. rewrite IH1. now rewrite orb_true_r.
Qed.

Lemma partition_length (sep s a r : string) :
  partition sep s = Some (a, r) ->
  String.length s = (String.length a + String.length sep + String.length r)%nat.
Proof.
  revert a r; induction s as [|x s IH]; intros a r; simpl.
  - destruct (startswith sep "") eqn:E; [|discriminate].
    intros [= <- <-]. destruct sep; [reflexivity | discriminate].
  - destruct (startswith sep (String x s)) eqn:E.
    + intros [= <- <-]. simpl.
      clear IH. revert x s E.
      induction sep as [|y sep IHs]; intros x s E; simpl in *; [reflexivity|].
      apply andb_true_iff in E as [_ E].
      destruct s as [|z s]; simpl.
      * destruct sep; [reflexivity | discriminate].
      * f_equal. apply (IHs z s E).
    + destruct (partition sep s) as [[a' r']|] eqn:P; [|discriminate].
      intros [= <- <-]. simpl. now rewrite (IH _ _ eq_refl).
Qed.

(** Enough fuel: any amount from the length of the string on gives the
    same list, so [split] cuts at every occurrence. *)
Lemma split_from_fuel (sep : string) :
  sep <> "" ->
  forall f1 f2 s,
    (String.length s <= f1)%nat -> (String.length s <= f2)%nat ->
    split_from f1 sep s = split_from f2 sep s.
Proof.
  intros Hsep. induction f1 as [|f1 IH]; intros f2 s H1 H2.
  - destruct s; [|simpl in H1; lia].
    destruct f2; simpl; destruct (startswith sep "") eqn:E; try reflexivity;
      destruct sep; try discriminate; congruence.
  - simpl. destruct (partition sep s) as [[a r]|] eqn:P.
    + pose proof (partition_length _ _ _ _ P) as L.
      assert (0 < String.length sep)%nat by (destruct sep; simpl; [congruence | lia]).
      destruct f2 as [|f2]; [lia|].
      simpl. rewrite P. f_equal. apply IH; lia.
    + destruct f2; simpl; now rewrite P.
Qed.

Lemma split_from_unfold (sep s : string) :
  sep <> "" ->
  split_from (String.length s) sep s =
  match partition sep s with
  | None => [s]
  | Some (a, r) => a :: split_from (String.length r) sep r
  end.
Proof.
  intros Hsep. destruct (partition sep s) as [[a r]|] eqn:P.
  - pose proof (partition_length _ _ _ _ P) as L.
    assert (0 < String.length sep)%nat by (destruct sep; simpl; [congruence | lia]).
    destruct (String.length s) as [|n] eqn:E; [lia|].
    simpl. rewrite P. f_equal. apply split_from_fuel; [assumption | lia | lia].
  - destruct (String.length s); simpl; now rewrite P.
Qed.

Lemma split_from_head (fuel : nat) (sep s : string) :
  exists tl, split_from fuel sep s = before sep s :: tl.
Proof.
  unfold before. destruct fuel; simpl;
    destruct (partition sep s) as [[a r]|]; eauto.
Qed.

Lemma contains_partition (sep s : string) :
  contains sep s = true -> exists a r, partition sep s = Some (a, r).
Proof.
  induction s as [|x s IH]; simpl; intros H.
  - rewrite orb_false_r in H. rewrite H. eauto.
  - destruct (startswith sep (String x s)); [eauto|].
    simpl in H. destruct (IH H) as (a & r & ->). eauto.
Qed.

Lemma partition_none (sep s : string) :
  contains sep s = false -> partition sep s = None.
Proof.
  induction s as [|x s IH]; simpl; intros H;
    apply orb_false_iff in H as [H1 H2]; rewrite H1; [reflexivity|].
  now rewrite (IH H2).
Qed.

Lemma partition_some_contains (sep s a r : string) :
  partition sep s = Some (a, r) -> contains sep s = true.
Proof.
  intros P. destruct (contains sep s) eqn:E; [reflexivity|].
  rewrite (partition_none _ _ E) in P. discriminate.
Qed.

Lemma partition_here (sep s : string) :
  startswith sep s = true ->
  partition sep s = Some ("", drop (String.length sep) s).
Proof. intros H. destruct s; simpl; now rewrite H. Qed.

Lemma partition_skip (sep : string) (x : ascii) (s : string) :
  startswith sep (String x s) = false ->
  partition sep (String x s) =
  match partition sep s with
  | Some (a, r) => Some (String x a, r)
  | None => None
  end.
Proof. intros H. simpl. now rewrite H. Qed.

(** The first occurrence: [sep0 ++ c] does not start inside [pre]. *)
Lemma partition_first (sep0 : string) (c : ascii) (pre x : string) :
  contains (sep0 +:+ String c "") (pre +:+ sep0) = false ->
  partition (sep0 +:+ String c "") (pre +:+ (sep0 +:+ String c "") +:+ x)
  = Some (pre, x).
Proof.
  set (sep := sep0 +:+ String c "").
  induction pre as [|a pre IH]; intros H.
  - simpl. rewrite partition_here by apply startswith_app.
    now rewrite drop_app.
  - simpl in H. apply orb_false_iff in H as [H1 H2].
    change (String a pre +:+ sep +:+ x) with (String a (pre +:+ sep +:+ x)).
    rewrite partition_skip.
    + now rewrite (IH H2).
    + replace (String a (pre +:+ sep +:+ x))
        with (String a (pre +:+ sep0) +:+ String c x).
      * rewrite startswith_long; [exact H1|].
        unfold sep. simpl. rewrite !length_append. simpl. lia.
      * unfold sep. simpl. f_equal.
        rewrite !append_assoc. reflexivity.
Qed.

Lemma contains_startswith_false (sep s : string) :
  contains sep s = false -> startswith sep s = false.
Proof. destruct s; simpl; intros H; now apply orb_false_iff in H as [H _]. Qed.

(** A separator that does not occur in [v], and cannot use [c], is
    looked for behind [v ++ c]. *)
Lemma partition_through (sep v : string) (c : ascii) (r : string) :
  contains sep v = false -> contains (String c "") sep = false ->
  partition sep (v +:+ String c r) =
  match partition sep r with
  | Some (a, r') => Some (v +:+ String c a, r')
  | None => None
  end.
Proof.
  intros Hv Hc.
  assert (Hno : forall s, contains sep s = false ->
                  startswith sep (s +:+ String c r) = false).
  { intros s Hs. destruct (startswith sep (s +:+ String c r)) eqn:E;
      [|reflexivity].
    apply startswith_through in E as [E | E]; [|congruence].
    apply contains_startswith_false in Hs. congruence. }
  induction v as [|a v IH].
  - change ("" +:+ String c r) with (String c r).
    rewrite partition_skip by (apply (Hno "" Hv)). reflexivity.
  - change (String a v +:+ String c r) with (String a (v +:+ String c r)).
    rewrite partition_skip by (apply (Hno (String a v) Hv)).
    simpl in Hv. apply orb_false_iff in Hv as [_ Hv].
    rewrite (IH Hv). now destruct (partition sep r) as [[? ?]|].
Qed.

End StringLemmas.

(** ** [int] *)

Section IntLemmas.

Lemma py_int_raises_ValueError (s : string) (e : exn) :
  py_int s = inl e -> isinstance e ValueError = true.
Proof.
  unfold py_int.
  destruct (lstrip s) as [|c r]; simpl;
    repeat match goal with
    | |- context [if ?b then _ else _] => destruct b
    | |- context [match ?x with _ => _ end] => destruct x
    end; simpl; intros [= <-]; reflexivity.
Qed.

Lemma digit_not_space (c : ascii) : is_digit c = true -> is_space c = false.
Proof.
  unfold is_digit, is_space. intros H.
  apply andb_true_iff in H as [H1 H2].
  apply Z.leb_le in H1, H2.
  repeat match goal with
  | |- context [?a <=? ?b] => destruct (Z.leb_spec a b)
  | |- context [?a =? ?b] => destruct (Z.eqb_spec a b)
  end; simpl; try reflexivity; exfalso; lia.
Qed.

Lemma digit_not_char (c d : ascii) :
  is_digit c = true -> is_digit d = false -> Ascii.eqb c d = false.
Proof.
  intros Hc Hd. destruct (Ascii.eqb_spec c d); [congruence | reflexivity].
Qed.

Lemma scan_digits_all (ds : string) :
  all_digits ds = true ->
  forall acc n,
    scan_digits ds false acc n
    = Some (decimal_from acc ds, (n + String.length ds)%nat, "").
Proof.
  induction ds as [|c ds IH]; simpl; intros H acc n.
  - now rewrite Nat.add_0_r.
  - apply andb_true_iff in H as [Hc Hds]. rewrite Hc.
    rewrite (IH Hds).
    now replace (n + S (String.length ds))%nat
      with (S n + String.length ds)%nat by lia.
Qed.

(** A non-empty string of at most 4300 decimal digits is read as the
    integer it denotes. *)
Lemma py_int_digits (ds : string) :
  ds <> "" -> all_digits ds = true ->
  (String.length ds <= int_max_str_digits)%nat ->
  py_int ds = inr (decimal_value ds).
Proof.
  intros Hne Hall Hlen. destruct ds as [|c ds]; [congruence|].
  pose proof Hall as Hall'. simpl in Hall'.
  apply andb_true_iff in Hall' as [Hc _].
  unfold py_int. simpl lstrip. rewrite (digit_not_space c Hc).
  rewrite (digit_not_char c "+" Hc eq_refl), (digit_not_char c "-" Hc eq_refl).
  replace (startswith "_" (String c ds)) with false
    by (change (startswith "_" (String c ds))
          with (Ascii.eqb "_" c && startswith "" ds);
        now rewrite Ascii.eqb_sym, (digit_not_char c "_" Hc eq_refl)).
  cbv iota. rewrite (scan_digits_all _ Hall).
  change (0 + String.length (String c ds))%nat with (S (String.length ds)).
  change (S (String.length ds) =? 0)%nat with false. cbv iota.
  change (all_space "") with true. simpl negb. cbv iota.
  destruct (Nat.ltb_spec int_max_str_digits (S (String.length ds))) as [L|L].
  - simpl in Hlen. lia.
  - unfold ret, decimal_value. f_equal. lia.
Qed.

End IntLemmas.

(** ** The sample-rate hint *)

Section ParseSampleRate.

Lemma parse_no_rate (mime : string) :
  contains "rate=" mime = false ->
  _parse_sample_rate_from_mime mime = inr 24000.
Proof. intros H. unfold _parse_sample_rate_from_mime. now rewrite H. Qed.

(** What the parser hands to [int]: the text between the first [rate=]
    and the next [;]. *)
Lemma parse_rate_str (pre v post : string) :
  first_rate_at pre ->
  contains ";" v = false -> contains "rate=" v = false ->
  (post = "" \/ exists r, post = ";" +:+ r) ->
  _parse_sample_rate_from_mime (pre +:+ "rate=" +:+ v +:+ post)
  = match py_int v with
    | inr n => inr n
    | inl _ => inr 24000
    end.
Proof.
  intros Hpre Hsemi Hrate Hpost.
  pose proof (partition_first "rate" "=" pre (v +:+ post) Hpre) as P.
  change ("rate" +:+ "=") with "rate=" in P.
  set (mime := pre +:+ "rate=" +:+ v +:+ post) in *.
  unfold _parse_sample_rate_from_mime.
  rewrite (partition_some_contains _ _ _ _ P).
  unfold split. change (String.eqb "rate=" "") with false. cbv iota.
  rewrite split_from_unfold by discriminate. rewrite P.
  unfold ret at 1. unfold Py.bind at 1.
  destruct (split_from_head (String.length (v +:+ post)) "rate=" (v +:+ post))
    as [tl ->].
  unfold getitem at 1. simpl nth_error. unfold ret at 1, Py.bind at 1.
  change (String.eqb ";" "") with false. cbv iota.
  unfold ret at 1, Py.bind at 1.
  destruct (split_from_head
              (String.length (before "rate=" (v +:+ post))) ";"
              (before "rate=" (v +:+ post))) as [tl' ->].
  unfold getitem. simpl nth_error. unfold ret at 1, Py.bind at 1.
  assert (Hv : before ";" (before "rate=" (v +:+ post)) = v).
  { destruct Hpost as [-> | [r ->]].
    - rewrite append_nil_r. unfold before.
      rewrite (partition_none _ _ Hrate), (partition_none _ _ Hsemi).
      reflexivity.
    - change (";" +:+ r) with (String ";" r).
      unfold before at 2. rewrite partition_through by (assumption || reflexivity).
      assert (Hcut : forall z, before ";" (v +:+ String ";" z) = v).
      { intros z. unfold before.
        pose proof (partition_first "" ";" v z) as Q.
        rewrite append_nil_r in Q. change ("" +:+ ";") with ";" in Q.
        change (v +:+ ";" +:+ z) with (v +:+ String ";" z) in Q.
        now rewrite (Q Hsemi). }
      destruct (partition "rate=" r) as [[a r']|]; apply Hcut. }
  rewrite Hv. unfold try_except.
  destruct (py_int v) as [e|n] eqn:E; [|reflexivity].
  apply py_int_raises_ValueError in E. simpl existsb. rewrite E. reflexivity.
Qed.

Lemma all_digits_no_char (c : ascii) (ds : string) :
  is_digit c = false -> all_digits ds = true ->
  contains (String c "") ds = false.
Proof.
  intros Hc. induction ds as [|d ds IH]; [reflexivity|].
  intros H. simpl in H. apply andb_true_iff in H as [Hd Hds].
  rewrite contains_cons, startswith_cons, (IH Hds).
  now rewrite Ascii.eqb_sym, (digit_not_char d c Hd Hc).
Qed.

Lemma all_digits_no_rate (ds : string) :
  all_digits ds = true -> contains "rate=" ds = false.
Proof.
  induction ds as [|d ds IH]; [reflexivity|].
  intros H. simpl in H. apply andb_true_iff in H as [Hd Hds].
  rewrite contains_cons, (IH Hds).
  change "rate=" with (String "r" "ate="). rewrite startswith_cons.
  now rewrite Ascii.eqb_sym, (digit_not_char d "r" Hd eq_refl).
Qed.

Lemma parse_first_rate (pre ds post : string) :
  first_rate_at pre ->
  ds <> "" -> all_digits ds = true ->
  (String.length ds <= int_max_str_digits)%nat ->
  (post = "" \/ exists r, post = ";" +:+ r) ->
  _parse_sample_rate_from_mime (pre +:+ "rate=" +:+ ds +:+ post)
  = inr (decimal_value ds).
Proof.
  intros Hpre Hne Hall Hlen Hpost.
  rewrite parse_rate_str; auto using all_digits_no_rate.
  - now rewrite py_int_digits.
  - now apply all_digits_no_char.
Qed.

(** The parser never raises: the only exceptions of its body are the
    ones it catches. *)
Lemma parse_total (mime : string) :
  exists n, _parse_sample_rate_from_mime mime = inr n.
Proof.
  unfold _parse_sample_rate_from_mime.
  destruct (contains "rate=" mime) eqn:C; [|eauto].
  destruct (contains_partition _ _ C) as (a & r & P).
  unfold split. change (String.eqb "rate=" "") with false. cbv iota.
  rewrite split_from_unfold by discriminate. rewrite P.
  unfold ret at 1, Py.bind at 1.
  destruct (split_from_head (String.length r) "rate=" r) as [tl ->].
  unfold getitem at 1. simpl nth_error. unfold ret at 1, Py.bind at 1.
  change (String.eqb ";" "") with false. cbv iota.
  unfold ret at 1, Py.bind at 1.
  destruct (split_from_head (String.length (before "rate=" r)) ";"
              (before "rate=" r)) as [tl' ->].
  unfold getitem. simpl nth_error. unfold ret at 1, Py.bind at 1.
  unfold try_except.
  destruct (py_int _) as [e|n] eqn:E; [|eauto].
  apply py_int_raises_ValueError in E. simpl existsb. rewrite E. eauto.
Qed.

(** The parser without its exception handling. *)
Lemma parse_is_parsed_rate (mime : string) :
  _parse_sample_rate_from_mime mime = inr (parsed_rate mime).
Proof.
  unfold _parse_sample_rate_from_mime, parsed_rate, rate_field.
  destruct (contains "rate=" mime) eqn:C.
  - destruct (contains_partition _ _ C) as (a & r & P). rewrite P.
    unfold split. change (String.eqb "rate=" "") with false. cbv iota.
    rewrite split_from_unfold by discriminate. rewrite P.
    unfold ret at 1, Py.bind at 1.
    destruct (split_from_head (String.length r) "rate=" r) as [tl ->].
    unfold getitem at 1. simpl nth_error. unfold ret at 1, Py.bind at 1.
    change (String.eqb ";" "") with false. cbv iota.
    unfold ret at 1, Py.bind at 1.
    destruct (split_from_head (String.length (before "rate=" r)) ";"
                (before "rate=" r)) as [tl' ->].
    unfold getitem. simpl nth_error. unfold ret at 1, Py.bind at 1.
    unfold try_except.
    destruct (py_int _) as [e|n] eqn:E; [|reflexivity].
    apply py_int_raises_ValueError in E. simpl existsb. now rewrite E.
  - now rewrite (partition_none _ _ C).
Qed.

End ParseSampleRate.

(** ** The WAV writer *)

Section WaveLemmas.

Lemma bind_ok {St A B} (m : SE St A) (k : A -> SE St B) s a s' :
  m s = (inr a, s') -> Eff.bind m k s = k a s'.
Proof. intros H. unfold Eff.bind. now rewrite H. Qed.

Lemma bind_err {St A B} (m : SE St A) (k : A -> SE St B) s e s' :
  m s = (inl e, s') -> Eff.bind m k s = (inl e, s').
Proof. intros H. unfold Eff.bind. now rewrite H. Qed.

Lemma bind_assoc {St A B C} (m : SE St A) (k : A -> SE St B)
    (k' : B -> SE St C) s :
  Eff.bind (Eff.bind m k) k' s
  = Eff.bind m (fun a => Eff.bind (k a) k') s.
Proof. unfold Eff.bind. destruct (m s) as [[e|a] s']; reflexivity. Qed.

Lemma pack_L_ok (x : Z) :
  0 <= x <= 4294967295 -> pack_L x = inr (le_bytes 4 x).
Proof.
  intros [H1 H2]. unfold pack_L.
  apply Z.leb_le in H1, H2. now rewrite H1, H2.
Qed.

Lemma pack_L_err (x : Z) :
  4294967295 < x -> pack_L x = inl (L_range_error x).
Proof.
  intros H. unfold pack_L.
  replace (x <=? 4294967295) with false by (symmetry; apply Z.leb_gt; lia).
  now rewrite andb_false_r.
Qed.

(** Below 2^64 the number reaches the range check of the format. *)
Lemma L_range_error_format (x : Z) :
  0 <= x <= 18446744073709551615 ->
  L_range_error x
  = Exn StructError "'L' format requires 0 <= number <= 4294967295".
Proof.
  intros [H1 H2]. unfold L_range_error.
  replace (x <? 0) with false by (symmetry; apply Z.ltb_ge; lia).
  replace (18446744073709551615 <? x) with false
    by (symmetry; apply Z.ltb_ge; lia).
  reflexivity.
Qed.

Lemma pack_H_ok (x : Z) :
  0 <= x <= 65535 -> pack_H x = inr (le_bytes 2 x).
Proof.
  intros [H1 H2]. unfold pack_H.
  apply Z.leb_le in H1, H2. now rewrite H1, H2.
Qed.

(** Writing at the end of the buffer appends. *)
Lemma write_at_end (f : BytesIO) (data : list byte) :
  position f = length (buffer f) ->
  write data f
  = {| buffer := buffer f ++ data;
       position := (position f + length data)%nat |}.
Proof.
  destruct f as [buf p]; simpl; intros ->.
  destruct data as [|x data]; simpl.
  - now rewrite app_nil_r, Nat.add_0_r.
  - rewrite Nat.sub_diag. simpl. rewrite !app_nil_r.
    rewrite firstn_all.
    rewrite skipn_all2 by lia.
    now rewrite app_nil_r.
Qed.

End WaveLemmas.

Ltac wave_norm :=
  cbv beta;
  cbn [Wave.open_wb Wave.set_nchannels Wave.set_sampwidth Wave.set_framerate
       Wave.set_nframes Wave.set_nframeswritten Wave.set_datawritten
       Wave.set_datalength Wave.set_headerwritten Wave.set_form_length_pos
       Wave.set_data_length_pos Wave.set_file
       Wave.self Wave.file Wave._file Wave._nchannels Wave._sampwidth
       Wave._framerate Wave._nframes Wave._nframeswritten Wave._datalength
       Wave._datawritten Wave._headerwritten Wave._form_length_pos
       Wave._data_length_pos BytesIO_new buffer position tell seek].

Local Arguments byte_of_Z : simpl never.

Ltac wave_step :=
  repeat rewrite bind_assoc;
  erewrite bind_ok by reflexivity;
  wave_norm; cbn [le_bytes]; simpl write; wave_norm.

Ltac wave_run := repeat wave_step.

Lemma wrap_ok (pcm : list byte) (rate : Z) :
  0 < rate -> 2 * rate <= 4294967295 ->
  36 + Z.of_nat (length pcm) <= 4294967295 ->
  _wrap_pcm_in_wav (Some pcm) rate 1 2
  = inr (wav_header 1 2 rate (Z.of_nat (length pcm)) ++ pcm).
Proof.
  intros Hr Hr2 Hlen.
  remember (Z.of_nat (length pcm)) as len eqn:Elen.
  assert (Hl0 : 0 <= len) by lia.
  remember (len `div` 2 * 2) as D eqn:ED.
  assert (HD : 0 <= D <= len) by (subst D; Z.div_mod_to_equations; lia).
  unfold _wrap_pcm_in_wav, Wave.with_writer.
  wave_run.
  unfold Wave.setframerate. wave_run.
  replace (rate <=? 0) with false by (symmetry; apply Z.leb_gt; lia).
  cbn [negb Z.eqb]. cbv iota. wave_run.
  unfold Wave.writeframes, Wave.writeframesraw. wave_run.
  unfold Wave._ensure_header_written. wave_run.
  cbn [Z.eqb]. cbv iota.
  replace (rate =? 0) with false by (symmetry; apply Z.eqb_neq; lia).
  cbv iota.
  unfold Wave._write_header. wave_run.
  rewrite <- Elen. change (1 * 2) with 2.
  replace (len `div` 2 * 1 * 2) with D by lia.
  unfold Wave.pack_header, Wave.WAVE_FORMAT_PCM.
  rewrite !pack_L_ok by lia.
  wave_run.
  rewrite (write_at_end _ pcm) by reflexivity.
  cbn [buffer position app].
  replace (0 + len) with len by lia.
  destruct (Z.eqb_spec D len) as [Heq | Hne]; cbn [negb]; cbv iota.
  - rewrite Heq in *.
    unfold Eff.pure at 1. unfold Wave.close, Eff.finally.
    wave_run. rewrite Z.eqb_refl. cbn [negb]. cbv iota.
    unfold Eff.pure at 1. wave_norm. unfold Wave.update, Eff.modify.
    wave_norm. unfold ret, getvalue. wave_norm.
    reflexivity.
  - unfold Wave._patchheader. wave_run.
    replace (len =? D) with false by (symmetry; apply Z.eqb_neq; lia).
    cbv iota. wave_run.
    rewrite !pack_L_ok by lia. wave_run.
    unfold Wave.update at 1, Eff.modify at 1. wave_norm.
    unfold Wave.close, Eff.finally.
    wave_run. rewrite Z.eqb_refl. cbn [negb]. cbv iota.
    unfold Eff.pure at 1. wave_norm. unfold Wave.update, Eff.modify.
    wave_norm. unfold ret, getvalue. wave_norm.
    rewrite !app_nil_r. reflexivity.
Qed.

Section WaveFacts.

Lemma Z_of_byte_of_Z (z : Z) : Z_of_byte (byte_of_Z z) = z mod 256.
Proof.
  unfold Z_of_byte, byte_of_Z.
  assert (H : 0 <= z mod 256 < 256) by (apply Z.mod_pos_bound; lia).
  destruct (Byte.of_N (Z.to_N (z mod 256))) as [x|] eqn:E.
  - apply Byte.to_of_N in E. rewrite E. apply Z2N.id. lia.
  - apply Byte.of_N_None_iff in E. lia.
Qed.

Lemma le_value_le_bytes (n : nat) (x : Z) :
  0 <= x < 256 ^ Z.of_nat n -> le_value (le_bytes n x) = x.
Proof.
  revert x; induction n as [|n IH]; intros x H.
  - simpl in *. lia.
  - cbn [le_bytes le_value]. rewrite Z_of_byte_of_Z.
    rewrite IH.
    + symmetry. rewrite Z.add_comm. apply Z.div_mod. lia.
    + rewrite Nat2Z.inj_succ, Z.pow_succ_r in H by lia.
      split; [apply Z.div_pos; lia |].
      apply Z.div_lt_upper_bound; lia.
Qed.

Lemma length_le_bytes (n : nat) (x : Z) : length (le_bytes n x) = n.
Proof. revert x; induction n; intros x; simpl; [reflexivity | now rewrite IHn]. Qed.

Lemma length_wav_header (c w r d : Z) :
  length (wav_header c w r d) = header_size.
Proof. reflexivity. Qed.

(** What a reader finds in the header. *)
Lemma declared_in_header (c w r d : Z) (pcm : list byte) :
  0 <= c < 65536 -> 0 <= r < 4294967296 -> 0 <= w * 8 < 65536 ->
  0 <= d < 4294967296 ->
  declared_channels (wav_header c w r d ++ pcm) = Some c
  /\ declared_sample_rate (wav_header c w r d ++ pcm) = Some r
  /\ declared_bits_per_sample (wav_header c w r d ++ pcm) = Some (w * 8)
  /\ declared_data_length (wav_header c w r d ++ pcm) = Some d.
Proof.
  intros Hc Hr Hw Hd.
  unfold declared_channels, declared_sample_rate, declared_bits_per_sample,
    declared_data_length, field, wav_header.
  cbn [bytes_of list_byte_of_string le_bytes app List.skipn take length
       Nat.eqb].
  repeat split; f_equal.
  - apply (le_value_le_bytes 2 c). simpl; lia.
  - apply (le_value_le_bytes 4 r). simpl; lia.
  - apply (le_value_le_bytes 2 (w * 8)). simpl; lia.
  - apply (le_value_le_bytes 4 d). simpl; lia.
Qed.

(** A frame rate that is not positive is refused by [setframerate]; the
    [close] of the [with] block then finds no frame rate set. *)
Lemma wrap_bad_rate (pcm : option (list byte)) (rate : Z) :
  rate <= 0 ->
  _wrap_pcm_in_wav pcm rate 1 2
  = inl (Exn WaveError "sampling rate not specified").
Proof.
  intros Hr.
  unfold _wrap_pcm_in_wav, Wave.with_writer.
  wave_run.
  unfold Wave.setframerate. wave_run.
  replace (rate <=? 0) with true by (symmetry; apply Z.leb_le; lia).
  cbn [negb Z.eqb]. cbv iota.
  erewrite bind_err by reflexivity.
  reflexivity.
Qed.

(** A header field that overflows its 32 bits: [struct.pack] refuses
    the header at the first such field, in [writeframes] and again in
    the [close] of the [with] block. *)
Lemma pack_header_overflow (D rate : Z) :
  0 <= D -> 0 < rate ->
  2147483647 < rate \/ 4294967295 < 36 + D ->
  Wave.pack_header D 1 rate 2
  = inl (L_range_error
           (if 4294967295 <? 36 + D then 36 + D
            else if 4294967295 <? rate then rate else 1 * rate * 2)).
Proof.
  intros HD Hr H. unfold Wave.pack_header, Wave.WAVE_FORMAT_PCM.
  destruct (Z.ltb_spec 4294967295 (36 + D)) as [G|L].
  - rewrite (pack_L_err (36 + D)) by lia. reflexivity.
  - rewrite (pack_L_ok (36 + D)) by lia. rewrite (pack_L_ok 16) by lia.
    rewrite !pack_H_ok by lia. cbn [Py.bind].
    destruct (Z.ltb_spec 4294967295 rate) as [G2|L2].
    + rewrite (pack_L_err rate) by lia. reflexivity.
    + rewrite (pack_L_ok rate) by lia. cbn [Py.bind].
      rewrite (pack_L_err (1 * rate * 2)) by lia. reflexivity.
Qed.

Lemma wrap_header_overflow (pcm : list byte) (rate : Z) :
  0 < rate ->
  2147483647 < rate \/ 4294967295 < 36 + Z.of_nat (length pcm) ->
  _wrap_pcm_in_wav (Some pcm) rate 1 2
  = inl (L_range_error (first_overflow (Z.of_nat (length pcm)) rate)).
Proof.
  intros Hr Hbig. unfold first_overflow.
  remember (Z.of_nat (length pcm)) as len eqn:Elen.
  assert (Hl0 : 0 <= len) by lia.
  remember (len `div` 2 * 2) as D eqn:ED.
  assert (HD : 0 <= D <= len) by (subst D; Z.div_mod_to_equations; lia).
  assert (Hover : 2147483647 < rate \/ 4294967295 < 36 + D)
    by (subst D; Z.div_mod_to_equations; lia).
  unfold _wrap_pcm_in_wav, Wave.with_writer.
  wave_run.
  unfold Wave.setframerate. wave_run.
  replace (rate <=? 0) with false by (symmetry; apply Z.leb_gt; lia).
  cbn [negb Z.eqb]. cbv iota. wave_run.
  unfold Wave.writeframes, Wave.writeframesraw. wave_run.
  unfold Wave._ensure_header_written. wave_run.
  cbn [Z.eqb]. cbv iota.
  replace (rate =? 0) with false by (symmetry; apply Z.eqb_neq; lia).
  cbv iota.
  unfold Wave._write_header. wave_run.
  rewrite <- Elen. change (1 * 2) with 2.
  replace (len `div` 2 * 1 * 2) with D by lia.
  rewrite (pack_header_overflow D rate) by lia.
  repeat rewrite bind_assoc.
  erewrite bind_err by reflexivity.
  unfold Wave.close, Eff.finally.
  wave_run.
  unfold Wave._ensure_header_written. wave_run.
  cbn [Z.eqb]. cbv iota.
  replace (rate =? 0) with false by (symmetry; apply Z.eqb_neq; lia).
  cbv iota.
  unfold Wave._write_header. wave_run.
  destruct (Z.eqb_spec (len `div` 2) 0) as [Z0|NZ].
  - wave_run. change (0 `div` (1 * 2) * 1 * 2) with 0.
    rewrite (pack_header_overflow 0 rate) by lia.
    replace D with 0 by lia.
    repeat rewrite bind_assoc.
    erewrite bind_err by reflexivity. reflexivity.
  - wave_run. change (1 * 2) with 2.
    replace (len `div` 2 * 1 * 2) with D by lia.
    rewrite (pack_header_overflow D rate) by lia.
    repeat rewrite bind_assoc.
    erewrite bind_err by reflexivity. reflexivity.
Qed.

(** A payload that overflows the 32-bit length fields. *)
Lemma wrap_too_long (pcm : list byte) (rate : Z) :
  0 < rate ->
  4294967295 < 36 + Z.of_nat (length pcm) `div` 2 * 2
  <= 18446744073709551615 ->
  _wrap_pcm_in_wav (Some pcm) rate 1 2
  = inl (Exn StructError "'L' format requires 0 <= number <= 4294967295").
Proof.
  intros Hr Hbig.
  rewrite wrap_header_overflow
    by (try assumption; right; Z.div_mod_to_equations; lia).
  unfold first_overflow.
  replace (4294967295 <? 36 + Z.of_nat (length pcm) `div` 2 * 2) with true
    by (symmetry; apply Z.ltb_lt; lia).
  apply f_equal, L_range_error_format. lia.
Qed.


End WaveFacts.

(** ** The duration estimate in integer arithmetic *)

Section Duration.

Lemma Qfloor_minus_Z (x : Q) (k : Z) :
  Qfloor (x - inject_Z k) = Qfloor x - k.
Proof.
  destruct x as [n p]. unfold Qminus, Qplus, Qopp, inject_Z, Qfloor.
  cbn [Qnum Qden]. rewrite Pos.mul_1_r, Z.mul_1_r.
  rewrite Z.div_add by lia. lia.
Qed.

(** The estimate is the whole number of seconds of the payload, split
    into minutes and seconds. *)
Lemma duration_estimate_floor (pcm : list byte) (rate : Z) :
  0 < rate ->
  let seconds := Z.of_nat (length pcm) / (rate * 2) in
  duration_estimate pcm rate
  = str_int (seconds / 60) +:+ ":" +:+ format_02d (seconds mod 60).
Proof.
  intros Hr seconds. unfold duration_estimate, duration_str.
  set (a := Z.of_nat (length pcm)). set (b := rate * 2).
  assert (Hb : 0 < b) by (unfold b; lia).
  assert (Hm : Qfloor (inject_Z a / inject_Z b / inject_Z 60) = seconds / 60).
  { transitivity (Qfloor (inject_Z a / inject_Z (b * 60))).
    - apply Qfloor_comp. rewrite inject_Z_mult. field.
      intros H. unfold Qeq in H. simpl in H. lia.
    - rewrite <- Zdiv_Qdiv. unfold seconds. fold a b.
      rewrite Z.div_div by lia. reflexivity. }
  rewrite Hm. rewrite <- inject_Z_mult, Qfloor_minus_Z, <- Zdiv_Qdiv.
  fold seconds. f_equal. f_equal. f_equal.
  rewrite Z.mod_eq by lia. reflexivity.
Qed.

End Duration.

(** ** The retry executor *)

Section Retry.

Variable E : Env.
Variable req : Request.

Let fn := call_generate_content E req.

Local Abbreviation after_attempts := (Spec.after_attempts req).
Local Abbreviation outcome := (Spec.outcome E req).

Lemma attempts_unfold {A} r fa (f : SE World A) remaining k w :
  Tenacity.attempts r fa time_sleep f remaining k w
  = match f w with
    | (inr a, w') => (inr a, w')
    | (inl e, w') =>
        if Tenacity.wants_retry r e then
          match remaining with
          | O => (inl (RetryError (fa k) e), w')
          | S remaining' =>
              Eff.bind (time_sleep (Tenacity.wait_exponential r k))
                (fun _ => Tenacity.attempts r fa time_sleep f remaining' (S k))
                w'
          end
        else (inl e, w')
    end.
Proof. destruct remaining; reflexivity. Qed.

Lemma fn_run (w : World) (n : nat) (slept : list Z) :
  fn (after_attempts w n slept)
  = (outcome w n, after_attempts w (S n) slept).
Proof.
  unfold fn, call_generate_content, Spec.after_attempts, Spec.outcome. cbn [requests state sleeps artifacts].
  rewrite length_app, repeat_length. f_equal. f_equal.
  rewrite <- app_assoc. f_equal.
  change [req] with (repeat req 1). rewrite <- repeat_app.
  f_equal. lia.
Qed.

Lemma sleep_run (w : World) (n : nat) (slept : list Z) (d : Z) :
  time_sleep d (after_attempts w n slept)
  = (inr tt, after_attempts w n (slept ++ [d])).
Proof.
  unfold time_sleep, Eff.modify, Spec.after_attempts. cbn [requests state sleeps artifacts].
  now rewrite <- app_assoc.
Qed.

Lemma after_attempts_0 (w : World) : after_attempts w 0 [] = w.
Proof.
  destruct w. unfold Spec.after_attempts. cbn. now rewrite !app_nil_r.
Qed.

(** One turn of the loop. *)
Lemma attempts_success r fa remaining k w n slept resp :
  outcome w n = inr resp ->
  Tenacity.attempts r fa time_sleep fn remaining k (after_attempts w n slept)
  = (inr resp, after_attempts w (S n) slept).
Proof.
  intros H. now rewrite attempts_unfold, fn_run, H.
Qed.

Lemma attempts_propagate r fa remaining k w n slept e :
  outcome w n = inl e -> Tenacity.wants_retry r e = false ->
  Tenacity.attempts r fa time_sleep fn remaining k (after_attempts w n slept)
  = (inl e, after_attempts w (S n) slept).
Proof.
  intros H Hr. now rewrite attempts_unfold, fn_run, H, Hr.
Qed.

Lemma attempts_give_up r fa k w n slept e :
  outcome w n = inl e -> Tenacity.wants_retry r e = true ->
  Tenacity.attempts r fa time_sleep fn 0 k (after_attempts w n slept)
  = (inl (RetryError (fa k) e), after_attempts w (S n) slept).
Proof. intros H Hr. now rewrite attempts_unfold, fn_run, H, Hr. Qed.

Lemma attempts_again r fa remaining k w n slept e :
  outcome w n = inl e -> Tenacity.wants_retry r e = true ->
  Tenacity.attempts r fa time_sleep fn (S remaining) k (after_attempts w n slept)
  = Tenacity.attempts r fa time_sleep fn remaining (S k)
      (after_attempts w (S n) (slept ++ [Tenacity.wait_exponential r k])).
Proof.
  intros H Hr. rewrite attempts_unfold, fn_run, H, Hr.
  unfold Eff.bind. now rewrite sleep_run.
Qed.

(** The loop ends, and leaves the session state and the artifacts as
    they were: it only calls the provider and sleeps. *)
Lemma attempts_frame r fa remaining k w n slept :
  exists res m slept',
    Tenacity.attempts r fa time_sleep fn remaining k (after_attempts w n slept)
    = (res, after_attempts w m slept')
    /\ (n < m <= n + S remaining)%nat.
Proof.
  revert k n slept. induction remaining as [|remaining IH]; intros k n slept.
  - destruct (outcome w n) as [e|resp] eqn:O.
    + destruct (Tenacity.wants_retry r e) eqn:R.
      * eexists _, _, _. split; [eapply attempts_give_up; eassumption | lia].
      * eexists _, _, _. split; [eapply attempts_propagate; eassumption | lia].
    + eexists _, _, _. split; [eapply attempts_success; eassumption | lia].
  - destruct (outcome w n) as [e|resp] eqn:O.
    + destruct (Tenacity.wants_retry r e) eqn:R.
      * rewrite (attempts_again _ _ _ _ _ _ _ _ O R).
        destruct (IH (S k) (S n) (slept ++ [Tenacity.wait_exponential r k]))
          as (res & m & slept' & H & Hm).
        eexists _, _, _. split; [exact H | lia].
      * eexists _, _, _. split; [eapply attempts_propagate; eassumption | lia].
    + eexists _, _, _. split; [eapply attempts_success; eassumption | lia].
Qed.

Lemma wait_exponential_policy (k : nat) :
  (1 <= k)%nat ->
  Tenacity.wait_exponential retry_policy k
  = Z.min (2 * 2 ^ (Z.of_nat k - 1)) 30.
Proof.
  intros Hk. unfold Tenacity.wait_exponential, retry_policy.
  cbn [Tenacity.wait_multiplier Tenacity.wait_min Tenacity.wait_max].
  assert (0 < 2 ^ (Z.of_nat k - 1)) by (apply Z.pow_pos_nonneg; lia).
  lia.
Qed.

Lemma transient_wants_retry (e : exn) :
  isinstance e ServerError = true ->
  Tenacity.wants_retry retry_policy e = true.
Proof.
  intros H. unfold Tenacity.wants_retry. cbn [retry_policy Tenacity.retry_if_exception_type].
  rewrite H. apply orb_true_r.
Qed.

End Retry.

Lemma generate_with_retry_unfold E script cfg w :
  generate_with_retry E script cfg w
  = Tenacity.attempts retry_policy (future_at E) time_sleep
      (call_generate_content E (tts_request E script cfg)) 2 1
      (after_attempts (tts_request E script cfg) w 0 []).
Proof. now rewrite after_attempts_0. Qed.

Section RetryRuns.

Variables (E : Env) (script : string) (cfg : SpeechConfig) (w : World).

Let req := tts_request E script cfg.

Lemma retry_then_success (e1 e2 : exn) (resp : GenerateContentResponse) :
  outcome E req w 0 = inl e1 -> isinstance e1 ServerError = true ->
  outcome E req w 1 = inl e2 -> isinstance e2 ServerError = true ->
  outcome E req w 2 = inr resp ->
  generate_with_retry E script cfg w
  = (inr resp, after_attempts req w 3 [2; 4]).
Proof.
  intros O1 T1 O2 T2 O3. rewrite generate_with_retry_unfold. fold req.
  rewrite (attempts_again E req _ _ _ _ _ _ _ _ O1 (transient_wants_retry _ T1)).
  rewrite (attempts_again E req _ _ _ _ _ _ _ _ O2 (transient_wants_retry _ T2)).
  now rewrite (attempts_success E req _ _ _ _ _ _ _ _ O3).
Qed.

Lemma retry_propagates (e : exn) :
  outcome E req w 0 = inl e ->
  isinstance e ServerError = false -> isinstance e TryAgain = false ->
  generate_with_retry E script cfg w
  = (inl e, after_attempts req w 1 []).
Proof.
  intros O1 T1 T2. rewrite generate_with_retry_unfold. fold req.
  apply attempts_propagate; [exact O1|].
  unfold Tenacity.wants_retry.
  cbn [retry_policy Tenacity.retry_if_exception_type].
  now rewrite T1, T2.
Qed.

Lemma retry_gives_up (e1 e2 e3 : exn) :
  outcome E req w 0 = inl e1 -> isinstance e1 ServerError = true ->
  outcome E req w 1 = inl e2 -> isinstance e2 ServerError = true ->
  outcome E req w 2 = inl e3 -> isinstance e3 ServerError = true ->
  generate_with_retry E script cfg w
  = (inl (RetryError (future_at E 3) e3), after_attempts req w 3 [2; 4]).
Proof.
  intros O1 T1 O2 T2 O3 T3. rewrite generate_with_retry_unfold. fold req.
  rewrite (attempts_again E req _ _ _ _ _ _ _ _ O1 (transient_wants_retry _ T1)).
  rewrite (attempts_again E req _ _ _ _ _ _ _ _ O2 (transient_wants_retry _ T2)).
  now rewrite (attempts_give_up E req _ _ _ _ _ _ _ O3 (transient_wants_retry _ T3)).
Qed.

End RetryRuns.


(** ** The tool *)

Section Tool.

Variable E : Env.

Lemma catch_ok {St A} (m : SE St A) cls h s a s' :
  m s = (inr a, s') -> catch m cls h s = (inr a, s').
Proof. intros H. unfold catch. now rewrite H. Qed.

Lemma catch_raised {St A} (m : SE St A) cls h s e s' :
  m s = (inl e, s') ->
  catch m cls h s
  = if existsb (isinstance e) cls then h e s' else (inl e, s').
Proof. intros H. unfold catch. now rewrite H. Qed.

Lemma for_part_first (ps : list Part) :
  for_part E ps
  = match first_inline_data ps with
    | Some blob => handle_inline_data E blob
    | None => pure no_audio_result
    end.
Proof.
  induction ps as [|p ps IH]; simpl; [reflexivity|].
  now destruct (inline_data p).
Qed.

Lemma first_inline_data_none (ps : list Part) :
  existsb part_has_audio ps = false -> first_inline_data ps = None.
Proof.
  induction ps as [|p ps IH]; simpl; [reflexivity|].
  unfold part_has_audio at 1. destruct (inline_data p); [discriminate|].
  exact IH.
Qed.

Lemma wrap_ok_rate (pcm : option (list byte)) (rate : Z) (wav : list byte) :
  _wrap_pcm_in_wav pcm rate 1 2 = inr wav -> 0 < rate.
Proof.
  intros H. destruct (Z_le_gt_dec rate 0) as [L|G]; [|lia].
  rewrite (wrap_bad_rate pcm rate L) in H. discriminate.
Qed.

(** The body for an audio part whose payload was wrapped: what happens
    next depends on the artifact store alone. *)
Lemma handle_inline_data_run (blob : Blob) (pcm audio : list byte)
    (rate : Z) (w : World) :
  data blob = Some pcm ->
  _parse_sample_rate_from_mime (raw_mime_type_of blob) = inr rate ->
  _wrap_pcm_in_wav (Some pcm) rate 1 2 = inr audio ->
  handle_inline_data E blob w
  = match save_artifact E artifact_filename
            (Part_from_bytes audio "audio/wav") with
    | inr version =>
        (inr (saved_result version audio "audio/wav"
                (duration_estimate pcm rate)),
         after_save w audio (duration_estimate pcm rate) version)
    | inl e =>
        if isinstance e Exception
        then (inr (fallback_result e audio "audio/wav"
                     (duration_estimate pcm rate)), w)
        else (inl e, w)
    end.
Proof.
  intros Hdata Hparse Hwrap.
  pose proof (wrap_ok_rate _ _ _ Hwrap) as Hrate.
  unfold handle_inline_data. rewrite Hdata, Hparse.
  unfold lift at 1. unfold Eff.bind at 1. rewrite Hwrap.
  unfold lift at 1. unfold Eff.bind at 1.
  unfold Eff.pure at 1. unfold Eff.bind at 1.
  unfold duration_seconds.
  replace (rate * 2 =? 0) with false by (symmetry; apply Z.eqb_neq; lia).
  unfold ret, lift at 1. unfold Eff.bind at 1.
  fold (duration_estimate pcm rate).
  unfold catch, Eff.bind at 1, call_save_artifact.
  destruct (save_artifact E artifact_filename
              (Part_from_bytes audio "audio/wav")) as [e|version].
  - cbn [existsb]. rewrite orb_false_r. destruct w; reflexivity.
  - destruct w; reflexivity.
Qed.

Lemma gao_retry_raised (script : string) (w w1 : World) (e : exn) :
  Client E = inr tt ->
  generate_with_retry E script (speech_config_for (USE_VERTEX_AI E)) w
  = (inl e, w1) ->
  generate_audio_overview E script w
  = if isinstance e Exception then (inr (failure_result e), w1)
    else (inl e, w1).
Proof.
  intros HC HR. unfold generate_audio_overview.
  erewrite catch_raised.
  - cbn [existsb]. rewrite orb_false_r. reflexivity.
  - rewrite HC. unfold lift, Eff.bind. now rewrite HR.
Qed.

Lemma gao_retry_returned (script : string) (w w1 : World)
    (resp : GenerateContentResponse) :
  Client E = inr tt ->
  generate_with_retry E script (speech_config_for (USE_VERTEX_AI E)) w
  = (inr resp, w1) ->
  generate_audio_overview E script w
  = catch (read_response E resp) [Exception]
      (fun e => pure (failure_result e)) w1.
Proof.
  intros HC HR. unfold generate_audio_overview, catch.
  rewrite HC. unfold lift, Eff.bind. now rewrite HR.
Qed.

(** A response without an audio part: the plain error result, or the
    caught [AttributeError] / [TypeError] of a candidate without content
    or parts. *)
Lemma read_response_no_audio (resp : GenerateContentResponse) (w : World) :
  has_audio_part resp = false ->
  exists msg,
    catch (read_response E resp) [Exception]
      (fun e => pure (failure_result e)) w
    = (inr (dict [("status", VStr "error"); ("error_message", VStr msg)]),
       w).
Proof.
  intros H. unfold has_audio_part in H. unfold read_response.
  destruct (candidates resp) as [[|first cs]|]; try (eexists; reflexivity).
  simpl in H. apply orb_false_iff in H as [H _].
  unfold candidate_has_audio in H.
  unfold catch, Eff.bind, Eff.pure, Eff.throw.
  destruct (content first) as [ct|]; [|eexists; reflexivity].
  destruct (parts ct) as [ps|]; [|eexists; reflexivity].
  rewrite for_part_first, (first_inline_data_none _ H).
  eexists. reflexivity.
Qed.

End Tool.

Section ToolFrames.

Variable E : Env.

Lemma generate_with_retry_frame (script : string) (cfg : SpeechConfig)
    (w : World) :
  exists res m slept,
    generate_with_retry E script cfg w
    = (res, after_attempts (tts_request E script cfg) w m slept)
    /\ (1 <= m <= 3)%nat.
Proof.
  rewrite generate_with_retry_unfold.
  destruct (attempts_frame E (tts_request E script cfg) retry_policy
              (future_at E) 2 1 w 0 [])
    as (res & m & slept & H & Hm).
  exists res, m, slept. split; [exact H | lia].
Qed.

Lemma generate_with_retry_state (script : string) (cfg : SpeechConfig)
    (w w1 : World) res :
  generate_with_retry E script cfg w = (res, w1) ->
  state w1 = state w /\ artifacts w1 = artifacts w.
Proof.
  destruct (generate_with_retry_frame script cfg w)
    as (res' & m & slept & H & _).
  rewrite H. intros [= _ <-]. split; reflexivity.
Qed.

Lemma read_response_first_audio (resp : GenerateContentResponse)
    (blob : Blob) (w : World) :
  first_audio resp = Some blob ->
  read_response E resp w = handle_inline_data E blob w.
Proof.
  unfold first_audio, read_response.
  destruct (candidates resp) as [[|first cs]|]; try discriminate.
  unfold Eff.bind at 1 2, Eff.pure, Eff.throw.
  destruct (content first) as [ct|]; [|discriminate].
  destruct (parts ct) as [ps|]; [|discriminate].
  intros H. now rewrite for_part_first, H.
Qed.

Lemma catch_pure_snd {St A} (m : SE St A) cls (f : exn -> A) (s : St) :
  snd (catch m cls (fun e => pure (f e)) s) = snd (m s).
Proof.
  unfold catch. destruct (m s) as [[e|a] s']; [|reflexivity].
  now destruct (existsb (isinstance e) cls).
Qed.

(** Reading the response sends nothing to the provider. *)
Lemma handle_inline_data_requests (blob : Blob) (w : World) :
  requests (snd (handle_inline_data E blob w)) = requests w.
Proof.
  unfold handle_inline_data, Eff.bind, lift, catch, call_save_artifact,
    state_setitem, Eff.modify, Eff.pure, Eff.throw.
  destruct (_parse_sample_rate_from_mime _); [reflexivity|].
  destruct (_wrap_pcm_in_wav _ _ _ _); [reflexivity|].
  destruct (data blob); [|reflexivity].
  destruct (duration_seconds _ _); [reflexivity|].
  destruct (save_artifact E _ _) as [e|v]; [|reflexivity].
  now destruct (existsb (isinstance e) [Exception]).
Qed.

Lemma read_response_requests (resp : GenerateContentResponse) (w : World) :
  requests (snd (read_response E resp w)) = requests w.
Proof.
  destruct (first_audio resp) as [blob|] eqn:F.
  - rewrite (read_response_first_audio _ _ _ F).
    apply handle_inline_data_requests.
  - unfold first_audio in F. unfold read_response.
    destruct (candidates resp) as [[|first cs]|]; try reflexivity.
    unfold Eff.bind at 1 2, Eff.pure, Eff.throw.
    destruct (content first) as [ct|]; [|reflexivity].
    destruct (parts ct) as [ps|]; [|reflexivity].
    now rewrite for_part_first, F.
Qed.

(** One invocation sends at most three requests, all of them the same:
    the script with the speech configuration chosen from the flag. *)
Lemma generate_audio_overview_requests (script : string) (w : World) :
  exists m,
    (m <= 3)%nat
    /\ requests (snd (generate_audio_overview E script w))
       = requests w
         ++ repeat
              (tts_request E script (speech_config_for (USE_VERTEX_AI E)))
              m.
Proof.
  destruct (Client E) as [e|[]] eqn:HC.
  - exists 0%nat. split; [lia|].
    unfold generate_audio_overview. rewrite catch_pure_snd.
    rewrite HC. cbn. now rewrite app_nil_r.
  - destruct (generate_with_retry_frame script
                (speech_config_for (USE_VERTEX_AI E)) w)
      as (res & m & slept & H & Hm).
    exists m. split; [lia|].
    destruct res as [e|resp].
    + rewrite (gao_retry_raised E _ _ _ _ HC H).
      now destruct (isinstance e Exception).
    + rewrite (gao_retry_returned E _ _ _ _ HC H).
      rewrite catch_pure_snd, read_response_requests. reflexivity.
Qed.

(** With a client, at least one request is sent. *)
Lemma generate_audio_overview_sends (script : string) (w : World) :
  Client E = inr tt ->
  exists m,
    (1 <= m <= 3)%nat
    /\ requests (snd (generate_audio_overview E script w))
       = requests w
         ++ repeat
              (tts_request E script (speech_config_for (USE_VERTEX_AI E)))
              m.
Proof.
  intros HC.
  destruct (generate_with_retry_frame script
              (speech_config_for (USE_VERTEX_AI E)) w)
    as (res & m & slept & H & Hm).
  exists m. split; [exact Hm|].
  destruct res as [e|resp].
  - rewrite (gao_retry_raised E _ _ _ _ HC H).
    now destruct (isinstance e Exception).
  - rewrite (gao_retry_returned E _ _ _ _ HC H).
    rewrite catch_pure_snd, read_response_requests. reflexivity.
Qed.

End ToolFrames.
(** ** What the tool does once the payload is wrapped *)

Section Publication.

Variable E : Env.
Variables (script : string) (w w1 : World).
Variables (resp : GenerateContentResponse) (blob : Blob).
Variables (pcm audio : list byte) (rate : Z).

(** Audio was synthesized and encoded: the retried call returned a
    response, its first audio part carries the payload [pcm], and the
    payload was wrapped into [audio]. *)
Hypothesis client_ok : Client E = inr tt.
Hypothesis synthesized :
  generate_with_retry E script (speech_config_for (USE_VERTEX_AI E)) w
  = (inr resp, w1).
Hypothesis audio_part : first_audio resp = Some blob.
Hypothesis payload : data blob = Some pcm.
Hypothesis parsed :
  _parse_sample_rate_from_mime (raw_mime_type_of blob) = inr rate.
Hypothesis encoded : _wrap_pcm_in_wav (Some pcm) rate 1 2 = inr audio.


End Publication.

(** * The claims *)

(** ** The sample rate of the container (C1) *)

(** C1, as stated, fails: of two [rate=] parameters the parser reads the
    first, so the string carries [rate=24000] and 16000 is returned. *)
Lemma second_rate_param_not_returned :
  has_rate_param "audio/L16;rate=16000;rate=24000" 24000
  /\ _parse_sample_rate_from_mime "audio/L16;rate=16000;rate=24000"
     = inr 16000
  /\ 16000 <> 24000.
Proof.
  split; [|split; [vm_compute; reflexivity | lia]].
  exists "audio/L16;rate=16000;", "24000", "".
  repeat split; try reflexivity; [discriminate | now left].
Qed.

(** The container half of C1 fails as well: the parser returns 0 for
    [rate=0], and no container is produced for that rate. *)
Lemma rate_zero_gives_no_container :
  has_rate_param "audio/L16;codec=pcm;rate=0" 0
  /\ _parse_sample_rate_from_mime "audio/L16;codec=pcm;rate=0" = inr 0
  /\ _wrap_pcm_in_wav (Some [x00; x00]) 0 1 2
     = inl (Exn WaveError "sampling rate not specified").
Proof.
  split; [|split; vm_compute; reflexivity].
  exists "audio/L16;codec=pcm;", "0", "".
  repeat split; try reflexivity; [discriminate | now left].
Qed.

(** C1 (amended).  When the first [rate=] of the MIME string is followed
    by a decimal integer [n] that ends at [;] or at the end of the
    string, the parser returns [n]; for [0 < n < 2^31] and a payload of
    at most 2^32 - 37 bytes the container declares the sample rate [n].
    A string without [rate=], and every string where the text between
    the first [rate=] and the next [rate=] or [;] (the end of the string
    when neither follows) is not accepted by [int], give 24000. *)
Theorem sample_rate_of_first_rate_param
    (pre ds post : string) (pcm : list byte) :
  first_rate_at pre ->
  ds <> "" -> all_digits ds = true ->
  (String.length ds <= int_max_str_digits)%nat ->
  (post = "" \/ exists r, post = ";" +:+ r) ->
  let n := decimal_value ds in
  _parse_sample_rate_from_mime (pre +:+ "rate=" +:+ ds +:+ post) = inr n
  /\ (0 < n <= 2147483647 -> Z.of_nat (length pcm) <= 4294967259 ->
      exists wav,
        _wrap_pcm_in_wav (Some pcm) n 1 2 = inr wav
        /\ declared_sample_rate wav = Some n)
  /\ (forall mime, contains "rate=" mime = false ->
        _parse_sample_rate_from_mime mime = inr 24000)
  /\ (forall mime before_rate after_rate,
        partition "rate=" mime = Some (before_rate, after_rate) ->
        (exists e,
           py_int (before ";" (before "rate=" after_rate)) = inl e) ->
        _parse_sample_rate_from_mime mime = inr 24000).
Proof.
  intros Hpre Hne Hall Hlen Hpost n.
  split; [now apply parse_first_rate|].
  split; [|split].
  - intros Hn Hpcm. eexists. split; [apply wrap_ok; lia|].
    apply declared_in_header; lia.
  - apply parse_no_rate.
  - intros mime a r Hcut [e He].
    rewrite parse_is_parsed_rate. unfold parsed_rate, rate_field.
    now rewrite Hcut, He.
Qed.

Lemma sample_rate_of_first_rate_param_witness :
  _parse_sample_rate_from_mime "audio/L16;codec=pcm;rate=24000" = inr 24000
  /\ exists wav,
       _wrap_pcm_in_wav (Some [x01; x02; x03; x04]) 24000 1 2 = inr wav
       /\ declared_sample_rate wav = Some 24000.
Proof.
  destruct (sample_rate_of_first_rate_param
              "audio/L16;codec=pcm;" "24000" "" [x01; x02; x03; x04])
    as (H1 & H2 & _).
  - reflexivity.
  - discriminate.
  - reflexivity.
  - unfold int_max_str_digits. simpl. lia.
  - now left.
  - change (decimal_value "24000") with 24000 in *.
    split; [exact H1|]. apply H2; simpl; lia.
Defined.

(** ** The container is the header followed by the payload (C2) *)

(** C2, as stated, fails: the length fields of the header are 32 bits
    wide, and a payload of 2^32 - 36 bytes is refused. *)
Lemma wrap_pcm_4GiB_payload_refused :
  _wrap_pcm_in_wav (Some (repeat x00 (Z.to_nat 4294967260))) 24000 1 2
  = inl (Exn StructError "'L' format requires 0 <= number <= 4294967295").
Proof.
  apply wrap_too_long; [lia|].
  rewrite repeat_length, Z2Nat.id by lia.
  split; [reflexivity | discriminate].
Qed.

(** C2 (amended).  For every sample rate [0 < r < 2^31] and every payload
    of at most 2^32 - 37 bytes, the buffer is the 44-byte header that
    declares one channel, 16-bit samples, the rate and the payload
    length, followed by the payload bytes unchanged. *)
Theorem wrap_pcm_in_wav_header_then_payload
    (pcm : list byte) (sample_rate : Z) :
  0 < sample_rate <= 2147483647 ->
  Z.of_nat (length pcm) <= 4294967259 ->
  exists wav,
    _wrap_pcm_in_wav (Some pcm) sample_rate 1 2 = inr wav
    /\ length wav = (header_size + length pcm)%nat
    /\ List.skipn header_size wav = pcm
    /\ take header_size wav
       = wav_header 1 2 sample_rate (Z.of_nat (length pcm))
    /\ declared_channels wav = Some 1
    /\ declared_bits_per_sample wav = Some 16
    /\ declared_sample_rate wav = Some sample_rate
    /\ declared_data_length wav = Some (Z.of_nat (length pcm)).
Proof.
  intros Hr Hlen.
  exists (wav_header 1 2 sample_rate (Z.of_nat (length pcm)) ++ pcm).
  split; [apply wrap_ok; lia|].
  split; [now rewrite length_app, length_wav_header|].
  split; [reflexivity|]. split; [reflexivity|].
  destruct (declared_in_header 1 2 sample_rate (Z.of_nat (length pcm)) pcm)
    as (H1 & H2 & H3 & H4); try lia.
  auto.
Qed.

Lemma wrap_pcm_in_wav_header_then_payload_witness :
  exists wav,
    _wrap_pcm_in_wav (Some [x01; x02; x03]) 24000 1 2 = inr wav
    /\ length wav = 47%nat
    /\ List.skipn 44 wav = [x01; x02; x03].
Proof.
  destruct (wrap_pcm_in_wav_header_then_payload [x01; x02; x03] 24000)
    as (wav & H1 & H2 & H3 & _).
  - lia.
  - simpl. lia.
  - exists wav. auto.
Defined.

(** ** The duration estimate (C3) *)

(** C3, as stated, fails: 96000 bytes at 24000 Hz are two seconds. *)
Lemma duration_of_96000_bytes_is_not_2_00 :
  (let! d := duration_seconds 96000 24000 in ret (duration_str d))%py
  <> inr "2:00".
Proof. vm_compute. discriminate. Qed.

(** C3 (amended).  With [duration_seconds = len / (sample_rate * 2)]
    printed as minutes, a colon and two-digit seconds, a 96000-byte
    payload at 24000 Hz gives ["0:02"]; ["2:00"] is what 5760000 bytes
    give. *)
Theorem duration_of_96000_bytes_at_24000 :
  (let! d := duration_seconds 96000 24000 in ret (duration_str d))%py
  = inr "0:02"
  /\ (let! d := duration_seconds 5760000 24000 in ret (duration_str d))%py
     = inr "2:00".
Proof. split; vm_compute; reflexivity. Qed.

(** ** The retry executor (C4) *)

(** C4, as stated, fails: when the provider is overloaded on all three
    attempts, what comes out of the executor is tenacity's [RetryError],
    which is not a [ServerError]. *)
Lemma retry_exhausted_raises_RetryError :
  fst (generate_with_retry
         (Scenario.env (Scenario.always (inl Scenario.overloaded))
            Scenario.store_ok)
         "script" (speech_config_for false) Scenario.empty_world)
  = inl (RetryError "0x7f3c2a1b5e90" Scenario.overloaded)
  /\ isinstance (RetryError "0x7f3c2a1b5e90" Scenario.overloaded)
       ServerError = false
  /\ RetryError "0x7f3c2a1b5e90" Scenario.overloaded
     <> Scenario.overloaded.
Proof. split; [|split]; [vm_compute; reflexivity.. | discriminate]. Qed.

(** C4 (amended).  With at most 3 attempts and [ServerError] as the
    retried class: two transient failures and a success make exactly 3
    calls, sleeps of 2 and 4 in between, and the success value; an error
    that is neither a [ServerError] nor tenacity's [TryAgain] makes
    exactly 1 call and propagates; three transient failures make 3 calls
    and raise [RetryError] carrying the last failure (in the [Future]
    of the third attempt); the sleep after
    the k-th failed attempt is [min (2 * 2^(k-1)) 30]. *)
Theorem generate_with_retry_attempts
    (E : Env) (script : string) (cfg : SpeechConfig) (w : World) :
  let req := tts_request E script cfg in
  let run := generate_with_retry E script cfg w in
  (forall e1 e2 resp,
      outcome E req w 0 = inl e1 -> isinstance e1 ServerError = true ->
      outcome E req w 1 = inl e2 -> isinstance e2 ServerError = true ->
      outcome E req w 2 = inr resp ->
      run = (inr resp, after_attempts req w 3 [2; 4]))
  /\ (forall e,
      outcome E req w 0 = inl e ->
      isinstance e ServerError = false -> isinstance e TryAgain = false ->
      run = (inl e, after_attempts req w 1 []))
  /\ (forall e1 e2 e3,
      outcome E req w 0 = inl e1 -> isinstance e1 ServerError = true ->
      outcome E req w 1 = inl e2 -> isinstance e2 ServerError = true ->
      outcome E req w 2 = inl e3 -> isinstance e3 ServerError = true ->
      run = (inl (RetryError (future_at E 3) e3),
             after_attempts req w 3 [2; 4]))
  /\ (forall k, (1 <= k)%nat ->
      Tenacity.wait_exponential retry_policy k
      = Z.min (2 * 2 ^ (Z.of_nat k - 1)) 30).
Proof.
  intros req run. subst run req.
  split; [|split; [|split]].
  - intros e1 e2 resp. apply retry_then_success.
  - intros e. apply retry_propagates.
  - intros e1 e2 e3. apply retry_gives_up.
  - apply wait_exponential_policy.
Qed.

Lemma generate_with_retry_attempts_witness :
  let E := Scenario.env
             (Scenario.flaky (Scenario.audio_response Scenario.pcm4
                                Scenario.gemini_mime))
             Scenario.store_ok in
  let cfg := speech_config_for false in
  generate_with_retry E "script" cfg Scenario.empty_world
  = (inr (Scenario.audio_response Scenario.pcm4 Scenario.gemini_mime),
     after_attempts (tts_request E "script" cfg) Scenario.empty_world 3
       [2; 4]).
Proof.
  intros E cfg.
  destruct (generate_with_retry_attempts E "script" cfg Scenario.empty_world)
    as (H & _).
  exact (H Scenario.overloaded Scenario.overloaded _
           eq_refl eq_refl eq_refl eq_refl eq_refl).
Defined.

(** ** Exhausted retries (C5) *)

(** C5, as stated, fails: with the provider overloaded on all three
    attempts the tool raises nothing; its handler turns the [RetryError]
    into a result with status ["error"]. *)
Lemma retry_exhaustion_returns_error_result :
  let run :=
    generate_audio_overview
      (Scenario.env (Scenario.always (inl Scenario.overloaded))
         Scenario.store_ok)
      "script" Scenario.empty_world in
  (exists d, fst run = inr d /\ d !! "status" = Some (VStr "error"))
  /\ length (requests (snd run)) = 3%nat
  /\ ~ (exists e, fst run = inl e).
Proof.
  assert (H : fst (generate_audio_overview
                (Scenario.env (Scenario.always (inl Scenario.overloaded))
                   Scenario.store_ok)
                "script" Scenario.empty_world)
              = inr (failure_result
                       (RetryError "0x7f3c2a1b5e90" Scenario.overloaded)))
    by (vm_compute; reflexivity).
  cbv zeta. split; [eexists; split; [exact H | reflexivity]|].
  split; [vm_compute; reflexivity|].
  intros [e He]. rewrite H in He. discriminate.
Qed.

(** C5 (amended).  When all three attempts fail with the transient
    error, the [RetryError] raised by the retry executor is caught by
    the handler of the tool: the tool returns the result with status
    ["error"] and an [error_message] that begins with
    ["Failed to generate audio overview: "] and goes on with the text of
    the [RetryError], and raises nothing. *)
Theorem retry_exhaustion_is_reported
    (E : Env) (script : string) (w : World) (e1 e2 e3 : exn) :
  let req := tts_request E script (speech_config_for (USE_VERTEX_AI E)) in
  Client E = inr tt ->
  outcome E req w 0 = inl e1 -> isinstance e1 ServerError = true ->
  outcome E req w 1 = inl e2 -> isinstance e2 ServerError = true ->
  outcome E req w 2 = inl e3 -> isinstance e3 ServerError = true ->
  exists d msg,
    generate_audio_overview E script w
    = (inr d, after_attempts req w 3 [2; 4])
    /\ d !! "status" = Some (VStr "error")
    /\ d !! "error_message"
       = Some (VStr ("Failed to generate audio overview: " +:+ msg))
    /\ startswith "RetryError[" msg = true.
Proof.
  intros req HC O1 T1 O2 T2 O3 T3.
  pose proof (retry_gives_up E script (speech_config_for (USE_VERTEX_AI E))
                w e1 e2 e3 O1 T1 O2 T2 O3 T3) as H.
  exists (failure_result (RetryError (future_at E 3) e3)),
         (str_exn (RetryError (future_at E 3) e3)).
  rewrite (gao_retry_raised E _ _ _ _ HC H).
  repeat split; reflexivity.
Qed.

Lemma retry_exhaustion_is_reported_witness :
  exists d,
    fst (generate_audio_overview
           (Scenario.env (Scenario.always (inl Scenario.overloaded))
              Scenario.store_ok)
           "script" Scenario.empty_world)
    = inr d
    /\ d !! "status" = Some (VStr "error").
Proof.
  destruct (retry_exhaustion_is_reported
              (Scenario.env (Scenario.always (inl Scenario.overloaded))
                 Scenario.store_ok)
              "script" Scenario.empty_world
              Scenario.overloaded Scenario.overloaded Scenario.overloaded
              eq_refl eq_refl eq_refl eq_refl eq_refl eq_refl eq_refl)
    as (d & msg & H & Hs & _).
  exists d. rewrite H. split; [reflexivity | exact Hs].
Defined.


(** ** A store that fails (C6) *)




(** ** A response without audio (C7) *)

(** C7.  When the synthesis call returns a response in which no part of
    any candidate carries inline data (no candidates at all included),
    the tool raises nothing and returns a result with status ["error"]
    and an [error_message] string; the session state is as before. *)
Theorem response_without_audio_is_an_error_result
    (E : Env) (script : string) (w w1 : World)
    (resp : GenerateContentResponse) :
  Client E = inr tt ->
  generate_with_retry E script (speech_config_for (USE_VERTEX_AI E)) w
  = (inr resp, w1) ->
  has_audio_part resp = false ->
  exists d msg,
    generate_audio_overview E script w = (inr d, w1)
    /\ d !! "status" = Some (VStr "error")
    /\ d !! "error_message" = Some (VStr msg)
    /\ state w1 = state w.
Proof.
  intros HC HS HA.
  rewrite (gao_retry_returned E _ _ _ _ HC HS).
  destruct (read_response_no_audio E resp w1 HA) as [msg ->].
  eexists _, msg. split; [reflexivity|].
  repeat split; try reflexivity.
  apply (generate_with_retry_state E _ _ _ _ _ HS).
Qed.

Lemma response_without_audio_is_an_error_result_witness :
  exists d msg,
    fst (generate_audio_overview
           (Scenario.env (Scenario.always (inr Scenario.text_only_response))
              Scenario.store_ok)
           "script" Scenario.empty_world)
    = inr d
    /\ d !! "status" = Some (VStr "error")
    /\ d !! "error_message" = Some (VStr msg).
Proof.
  set (E := Scenario.env (Scenario.always (inr Scenario.text_only_response))
              Scenario.store_ok).
  destruct (response_without_audio_is_an_error_result
              E "script" Scenario.empty_world
              (after_attempts
                 (tts_request E "script" (speech_config_for false))
                 Scenario.empty_world 1 [])
              Scenario.text_only_response eq_refl eq_refl eq_refl)
    as (d & msg & H & H1 & H2 & _).
  exists d, msg. rewrite H. auto.
Defined.

(** ** The session state and the store (C10) *)




(** ** The speech mode and the instruction template (C8) *)

Lemma instruction_templates_differ :
  AUDIO_OVERVIEW_INSTRUCTION_SINGLE_SPEAKER
  <> AUDIO_OVERVIEW_INSTRUCTION_MULTI_SPEAKER.
Proof. apply String.eqb_neq. vm_compute. reflexivity. Qed.

(** C8.  Both choices are functions of the one flag [USE_VERTEX_AI]:
    with the flag set, the single-narrator configuration with the voice
    Kore and the narrative template; without it, the two-speaker
    configuration (Host A with Kore, Host B with Puck) and the dialogue
    template.  An invocation of the tool whose client is constructed
    builds the configuration of the flag and sends it: it sends at least
    one and at most three requests, each of them the script with that
    configuration; and no invocation sends a request with another
    configuration. *)
Theorem speech_config_matches_instruction
    (E : Env) (script : string) (w : World) :
  let flag := USE_VERTEX_AI E in
  let run := generate_audio_overview E script w in
  (speech_config_for flag, instruction (audio_overview_agent flag))
  = (if flag
     then (single_narrator "Kore", AUDIO_OVERVIEW_INSTRUCTION_SINGLE_SPEAKER)
     else (dual_speaker [("Host A", "Kore"); ("Host B", "Puck")],
           AUDIO_OVERVIEW_INSTRUCTION_MULTI_SPEAKER))
  /\ "Kore" <> "Puck"
  /\ AUDIO_OVERVIEW_INSTRUCTION_SINGLE_SPEAKER
     <> AUDIO_OVERVIEW_INSTRUCTION_MULTI_SPEAKER
  /\ contains "Do NOT use speaker labels."
       AUDIO_OVERVIEW_INSTRUCTION_SINGLE_SPEAKER = true
  /\ contains "Write the script with speaker labels"
       AUDIO_OVERVIEW_INSTRUCTION_MULTI_SPEAKER = true
  /\ (forall req,
        In req (requests (snd run)) ->
        In req (requests w)
        \/ speech_config (config req) = speech_config_for flag)
  /\ (Client E = inr tt ->
      exists m,
        (1 <= m <= 3)%nat
        /\ requests (snd run)
           = requests w
             ++ repeat
                  {| model := TTS_MODEL E;
                     contents := script;
                     config :=
                       {| response_modalities := ["AUDIO"];
                          speech_config :=
                            if flag
                            then single_narrator "Kore"
                            else dual_speaker
                                   [("Host A", "Kore"); ("Host B", "Puck")]
                       |} |}
                  m).
Proof.
  intros flag run. subst run.
  split; [now destruct flag|].
  split; [discriminate|].
  split; [exact instruction_templates_differ|].
  split; [vm_compute; reflexivity|].
  split; [vm_compute; reflexivity|].
  split.
  - intros req Hin.
    destruct (generate_audio_overview_requests E script w) as (m & _ & Hm).
    rewrite Hm in Hin. apply in_app_or in Hin as [Hin | Hin]; [now left|].
    right. apply repeat_spec in Hin. now subst req.
  - intros HC.
    destruct (generate_audio_overview_sends E script w HC) as (m & Hm & Hreq).
    exists m. split; [exact Hm|]. rewrite Hreq. unfold tts_request.
    fold flag. now destruct flag.
Qed.


Lemma speech_config_matches_instruction_witness :
  let E :=
    Scenario.env (Scenario.always (inl Scenario.overloaded))
      Scenario.store_ok in
  exists m,
    (1 <= m <= 3)%nat
    /\ requests (snd (generate_audio_overview E "script" Scenario.empty_world))
       = repeat
           {| model := "tts-model";
              contents := "script";
              config :=
                {| response_modalities := ["AUDIO"];
                   speech_config :=
                     dual_speaker [("Host A", "Kore"); ("Host B", "Puck")]
                |} |}
           m.
Proof.
  intros E.
  destruct (speech_config_matches_instruction E "script" Scenario.empty_world)
    as (_ & _ & _ & _ & _ & _ & H).
  exact (H eq_refl).
Defined.

(** * Further properties of the tool *)

(** ** The parser *)

(** X1.  [_parse_sample_rate_from_mime] returns for every string and
    never raises: the [IndexError] its handler names cannot occur, and
    the [ValueError] of [int] is the only exception of its body.  The
    value is what [int] makes of the text between the first [rate=] and
    the next [rate=] or [;], and 24000 when there is no [rate=] or [int]
    refuses that text. *)
Theorem parse_sample_rate_total (mime : string) :
  _parse_sample_rate_from_mime mime
  = inr match partition "rate=" mime with
        | None => 24000
        | Some (_, r) =>
            match py_int (before ";" (before "rate=" r)) with
            | inr n => n
            | inl _ => 24000
            end
        end.
Proof.
  rewrite parse_is_parsed_rate. unfold parsed_rate, rate_field.
  now destruct (partition "rate=" mime) as [[a r]|].
Qed.

(** ** The container for any layout of the samples *)

Section WrapAnyLayout.

Variables (pcm : list byte) (rate ch sw : Z).

Lemma wrap_layout_ok :
  fits_header ch sw rate (Z.of_nat (length pcm)) ->
  _wrap_pcm_in_wav (Some pcm) rate ch sw
  = inr (wav_header ch sw rate (Z.of_nat (length pcm)) ++ pcm).
Proof.
  intros (Hc & Hw & Hcw & Hr & Hbr & Hlen).
  remember (Z.of_nat (length pcm)) as len eqn:Elen.
  assert (Hl0 : 0 <= len) by lia.
  assert (Hcw0 : 0 < ch * sw) by nia.
  remember (len `div` (ch * sw) * ch * sw) as D eqn:ED.
  assert (HD : 0 <= D <= len).
  { subst D. rewrite <- Z.mul_assoc.
    pose proof (Z.mul_div_le len (ch * sw) Hcw0).
    pose proof (Z.div_pos len (ch * sw) Hl0 Hcw0). nia. }
  assert (Hrate : rate <= 4294967295) by nia.
  unfold _wrap_pcm_in_wav, Wave.with_writer.
  unfold Wave.setnchannels. wave_run.
  replace (ch <? 1) with false by (symmetry; apply Z.ltb_ge; lia).
  cbn [negb Z.eqb]. cbv iota. wave_run.
  unfold Wave.setsampwidth. wave_run.
  replace (sw <? 1) with false by (symmetry; apply Z.ltb_ge; lia).
  replace (4 <? sw) with false by (symmetry; apply Z.ltb_ge; lia).
  cbn [negb Z.eqb orb]. cbv iota. wave_run.
  unfold Wave.setframerate. wave_run.
  replace (rate <=? 0) with false by (symmetry; apply Z.leb_gt; lia).
  cbn [negb Z.eqb]. cbv iota. wave_run.
  unfold Wave.writeframes, Wave.writeframesraw. wave_run.
  unfold Wave._ensure_header_written. wave_run.
  replace (ch =? 0) with false by (symmetry; apply Z.eqb_neq; lia).
  replace (sw =? 0) with false by (symmetry; apply Z.eqb_neq; lia).
  replace (rate =? 0) with false by (symmetry; apply Z.eqb_neq; lia).
  cbv iota.
  unfold Wave._write_header. wave_run.
  cbn [Z.eqb]. cbv iota. wave_run.
  rewrite <- Elen, <- ED.
  unfold Wave.pack_header, Wave.WAVE_FORMAT_PCM.
  rewrite !pack_L_ok by lia. rewrite !pack_H_ok by lia.
  wave_run.
  rewrite (write_at_end _ pcm) by reflexivity.
  cbn [buffer position app].
  replace (0 + len) with len by lia.
  destruct (Z.eqb_spec D len) as [Heq | Hne]; cbn [negb]; cbv iota.
  - rewrite Heq in *.
    unfold Eff.pure at 1. unfold Wave.close, Eff.finally.
    wave_run. rewrite Z.eqb_refl. cbn [negb]. cbv iota.
    unfold Eff.pure at 1. wave_norm. unfold Wave.update, Eff.modify.
    wave_norm. unfold ret, getvalue. wave_norm.
    reflexivity.
  - unfold Wave._patchheader. wave_run.
    replace (len =? D) with false by (symmetry; apply Z.eqb_neq; lia).
    cbv iota. wave_run.
    rewrite !pack_L_ok by lia. wave_run.
    unfold Wave.update at 1, Eff.modify at 1. wave_norm.
    unfold Wave.close, Eff.finally.
    wave_run. rewrite Z.eqb_refl. cbn [negb]. cbv iota.
    unfold Eff.pure at 1. wave_norm. unfold Wave.update, Eff.modify.
    wave_norm. unfold ret, getvalue. wave_norm.
    rewrite !app_nil_r. reflexivity.
Qed.

Lemma wrap_refused (data : option (list byte)) :
  ch < 1 \/ sw < 1 \/ 4 < sw \/ rate <= 0 ->
  _wrap_pcm_in_wav data rate ch sw = inl (refused_parameter ch sw).
Proof.
  intros H. unfold refused_parameter.
  unfold _wrap_pcm_in_wav, Wave.with_writer.
  unfold Wave.setnchannels. wave_run. cbn [negb Z.eqb]. cbv iota.
  destruct (Z.ltb_spec ch 1) as [Lc|Gc].
  - erewrite bind_err by reflexivity.
    unfold Wave.close, Eff.finally. wave_run.
    unfold Wave._ensure_header_written. wave_run.
    cbn [Z.eqb]. cbv iota.
    erewrite bind_err by reflexivity. reflexivity.
  - wave_run. unfold Wave.setsampwidth. wave_run.
    cbn [negb Z.eqb]. cbv iota.
    assert (Hc0 : (ch =? 0) = false) by (apply Z.eqb_neq; lia).
    destruct ((sw <? 1) || (4 <? sw)) eqn:Ew.
    + erewrite bind_err by reflexivity.
      unfold Wave.close, Eff.finally. wave_run.
      unfold Wave._ensure_header_written. wave_run.
      rewrite Hc0. cbn [Z.eqb]. cbv iota.
      erewrite bind_err by reflexivity. reflexivity.
    + apply orb_false_iff in Ew as [Ew1 Ew2].
      apply Z.ltb_ge in Ew1, Ew2.
      assert (Hr : rate <= 0) by lia.
      wave_run. unfold Wave.setframerate. wave_run.
      replace (rate <=? 0) with true by (symmetry; apply Z.leb_le; lia).
      cbn [negb Z.eqb]. cbv iota.
      erewrite bind_err by reflexivity.
      unfold Wave.close, Eff.finally. wave_run.
      unfold Wave._ensure_header_written. wave_run.
      rewrite Hc0.
      replace (sw =? 0) with false by (symmetry; apply Z.eqb_neq; lia).
      cbn [Z.eqb]. cbv iota.
      erewrite bind_err by reflexivity. reflexivity.
Qed.

End WrapAnyLayout.

(** ** The container of the tool: 16-bit mono *)

Section WrapMono.

Lemma wrap_no_bytes (rate : Z) :
  0 < rate <= 2147483647 ->
  _wrap_pcm_in_wav None rate 1 2
  = inl (Exn TypeError
           "memoryview: a bytes-like object is required, not 'NoneType'").
Proof.
  intros Hr.
  unfold _wrap_pcm_in_wav, Wave.with_writer.
  wave_run.
  unfold Wave.setframerate. wave_run.
  replace (rate <=? 0) with false by (symmetry; apply Z.leb_gt; lia).
  cbn [negb Z.eqb]. cbv iota. wave_run.
  unfold Wave.writeframes, Wave.writeframesraw.
  repeat rewrite bind_assoc.
  erewrite bind_err by reflexivity.
  unfold Wave.close, Eff.finally. wave_run.
  unfold Wave._ensure_header_written. wave_run.
  cbn [Z.eqb]. cbv iota.
  replace (rate =? 0) with false by (symmetry; apply Z.eqb_neq; lia).
  cbv iota.
  unfold Wave._write_header. wave_run.
  cbn [Z.eqb]. cbv iota. wave_run.
  change (0 `div` (1 * 2) * 1 * 2) with 0.
  unfold Wave.pack_header, Wave.WAVE_FORMAT_PCM.
  rewrite !pack_L_ok by lia. rewrite !pack_H_ok by lia.
  wave_run.
  unfold Wave.update at 1, Eff.modify at 1. wave_norm.
  reflexivity.
Qed.

(** The outcome for 16-bit mono audio, case by case. *)
Lemma wrap_mono_cases (pcm : list byte) (rate : Z) :
  _wrap_pcm_in_wav (Some pcm) rate 1 2
  = if rate <=? 0
    then inl (Exn WaveError "sampling rate not specified")
    else if (rate <=? 2147483647)
            && (Z.of_nat (length pcm) <=? 4294967259)
    then inr (wav_header 1 2 rate (Z.of_nat (length pcm)) ++ pcm)
    else inl (Exn StructError
                (if 18446744073709551615
                      <? first_overflow (Z.of_nat (length pcm)) rate
                 then "argument out of range"
                 else "'L' format requires 0 <= number <= 4294967295")).
Proof.
  set (len := Z.of_nat (length pcm)).
  set (field := first_overflow len rate).
  assert (Herr : 0 < rate ->
            L_range_error field
            = Exn StructError
                (if 18446744073709551615 <? field
                 then "argument out of range"
                 else "'L' format requires 0 <= number <= 4294967295")).
  { intros Hr. unfold L_range_error.
    replace (field <? 0) with false; [reflexivity|].
    symmetry. apply Z.ltb_ge. subst field len. unfold first_overflow.
    repeat match goal with
    | |- context [?a <? ?b] => destruct (Z.ltb_spec a b)
    end; try lia; Z.div_mod_to_equations; lia. }
  destruct (Z.leb_spec rate 0) as [L|G].
  - now apply wrap_bad_rate.
  - destruct (Z.leb_spec rate 2147483647) as [L1|G1];
      destruct (Z.leb_spec len 4294967259) as [L2|G2];
      cbn [andb];
      first [ apply wrap_ok; lia
            | rewrite <- Herr by lia; apply wrap_header_overflow; lia ].
Qed.

End WrapMono.

(** ** Which exceptions can be raised *)

Section RaisesOnly.

Context {St : Type} (P : exn -> Prop).

Lemma ro_pure {A} (a : A) : raises_only (St := St) P (pure a).
Proof. intros s e s' H. discriminate. Qed.

Lemma ro_throw {A} (e : exn) : P e -> raises_only (St := St) (A := A) P (throw e).
Proof. intros He s e' s' [= <- _]. exact He. Qed.

Lemma ro_modify (f : St -> St) : raises_only P (modify f).
Proof. intros s e s' H. discriminate. Qed.

Lemma ro_lift {A} (r : result A) :
  (forall e, r = inl e -> P e) -> raises_only (St := St) P (lift r).
Proof. intros Hr s e s' [= H _]. now apply Hr. Qed.

Lemma ro_bind {A B} (m : SE St A) (k : A -> SE St B) :
  raises_only P m -> (forall a, raises_only P (k a)) ->
  raises_only P (Eff.bind m k).
Proof.
  intros Hm Hk s e s' H. unfold Eff.bind in H.
  destruct (m s) as [[e0|a] s0] eqn:M.
  - injection H as <- _. eapply Hm; eassumption.
  - eapply Hk; eassumption.
Qed.

Lemma ro_finally {A} (m : SE St A) (f : SE St unit) :
  raises_only P m -> raises_only P f -> raises_only P (finally m f).
Proof.
  intros Hm Hf s e s' H. unfold finally in H.
  destruct (m s) as [r s0] eqn:M.
  destruct (f s0) as [[e1|[]] s1] eqn:F.
  - injection H as <- _. eapply Hf; eassumption.
  - injection H as -> _. eapply Hm; eassumption.
Qed.

(** A handler for every exception of the body leaves the exceptions of
    the handler. *)
Lemma ro_catch {A} (m : SE St A) (cls : list exn_class)
    (h : exn -> SE St A) :
  raises_only (fun e => existsb (isinstance e) cls = true) m ->
  (forall e, raises_only P (h e)) ->
  raises_only P (catch m cls h).
Proof.
  intros Hm Hh s e s' H. unfold catch in H.
  destruct (m s) as [[e0|a] s0] eqn:M; [|discriminate].
  rewrite (Hm _ _ _ M) in H. eapply Hh; eassumption.
Qed.

End RaisesOnly.

Section WaveRaises.

Local Ltac ro_step :=
  first
    [ apply ro_pure
    | apply ro_modify
    | apply ro_throw; unfold wave_exn; cbn; tauto
    | apply ro_bind; [|intros ?]
    | match goal with
      | |- raises_only _ (if ?b then _ else _) => destruct b
      | |- raises_only _ (match ?x with _ => _ end) => destruct x
      end ].

Lemma ro_attr {A} P (f : Wave.Wave_write -> A) :
  raises_only P (Wave.attr f).
Proof. intros s e s' H. discriminate. Qed.

Lemma ro_file_tell P : raises_only P Wave.file_tell.
Proof. intros s e s' H. discriminate. Qed.

Lemma pack_L_raises (x : Z) (e : exn) :
  pack_L x = inl e -> class_of e = StructError.
Proof. unfold pack_L. destruct (_ && _); [discriminate|]. now intros [= <-]. Qed.

Lemma pack_H_raises (x : Z) (e : exn) :
  pack_H x = inl e -> class_of e = StructError.
Proof. unfold pack_H. destruct (_ && _); [discriminate|]. now intros [= <-]. Qed.

Lemma pack_header_raises (d c r w : Z) (e : exn) :
  Wave.pack_header d c r w = inl e -> class_of e = StructError.
Proof.
  unfold Wave.pack_header, Py.bind.
  repeat match goal with
  | |- context [match pack_L ?x with _ => _ end] =>
      let H := fresh in
      destruct (pack_L x) eqn:H;
      [intros [= <-]; eapply pack_L_raises; eassumption | clear H]
  | |- context [match pack_H ?x with _ => _ end] =>
      let H := fresh in
      destruct (pack_H x) eqn:H;
      [intros [= <-]; eapply pack_H_raises; eassumption | clear H]
  end.
  discriminate.
Qed.

Local Ltac ro_wave :=
  repeat first
    [ apply ro_attr
    | apply ro_file_tell
    | apply ro_lift; intros ? ?; right; left;
      first [ eapply pack_L_raises; eassumption
            | eapply pack_header_raises; eassumption ]
    | ro_step ].

Lemma writeframes_raises (data : option (list byte)) :
  raises_only wave_exn (Wave.writeframes data).
Proof.
  unfold Wave.writeframes, Wave.writeframesraw, Wave.file_write, Wave.update.
  ro_wave.
Qed.

Lemma close_raises : raises_only wave_exn Wave.close.
Proof.
  unfold Wave.close. apply ro_finally.
  - ro_wave.
  - unfold Wave.update. ro_wave.
Qed.

Lemma setters_raise (c w r : Z) :
  raises_only wave_exn (Wave.setnchannels c)
  /\ raises_only wave_exn (Wave.setsampwidth w)
  /\ raises_only wave_exn (Wave.setframerate r).
Proof.
  unfold Wave.setnchannels, Wave.setsampwidth, Wave.setframerate,
    Wave.Error, Wave.update.
  repeat split; ro_wave.
Qed.

Lemma with_writer_raises {A} (body : SE Wave.state A) :
  raises_only wave_exn body -> raises_only wave_exn (Wave.with_writer body).
Proof.
  intros Hb s e s' H. unfold Wave.with_writer in H.
  destruct (body s) as [r s0] eqn:B.
  destruct (Wave.close s0) as [[e1|[]] s1] eqn:C.
  - injection H as <- _. eapply close_raises; eassumption.
  - injection H as -> _. eapply Hb; eassumption.
Qed.

Lemma wrap_raises (data : option (list byte)) (rate ch sw : Z) (e : exn) :
  _wrap_pcm_in_wav data rate ch sw = inl e -> wave_exn e.
Proof.
  unfold _wrap_pcm_in_wav.
  destruct (Wave.with_writer _ _) as [[e0|[]] st] eqn:W; [|discriminate].
  intros [= <-]. eapply with_writer_raises; [|exact W].
  destruct (setters_raise ch sw rate) as (H1 & H2 & H3).
  repeat (apply ro_bind; [assumption | intros ?]).
  apply writeframes_raises.
Qed.

Lemma wave_exn_is_Exception (e : exn) : wave_exn e -> is_Exception e.
Proof.
  unfold wave_exn, is_Exception, isinstance.
  intros [-> | [-> | ->]]; reflexivity.
Qed.

End WaveRaises.

(** X2.  For any channel count, sample width and sample rate that fit
    the fields of the header, and any payload of at most 2^32 - 37
    bytes, whole frames or not, [_wrap_pcm_in_wav] returns the 44-byte
    header followed by the payload unchanged; the header declares the
    parameters given, the byte rate, the block alignment, the length of
    the payload, and a RIFF size that is the length of the file less the
    eight bytes in front of it. *)
Theorem wrap_pcm_in_wav_any_layout
    (pcm : list byte) (sample_rate channels sample_width : Z) :
  fits_header channels sample_width sample_rate (Z.of_nat (length pcm)) ->
  exists wav,
    _wrap_pcm_in_wav (Some pcm) sample_rate channels sample_width = inr wav
    /\ wav = wav_header channels sample_width sample_rate
               (Z.of_nat (length pcm)) ++ pcm
    /\ length wav = (header_size + length pcm)%nat
    /\ field 4 4 wav = Some (Z.of_nat (length wav) - 8)
    /\ declared_channels wav = Some channels
    /\ declared_sample_rate wav = Some sample_rate
    /\ field 28 4 wav = Some (channels * sample_rate * sample_width)
    /\ field 32 2 wav = Some (channels * sample_width)
    /\ declared_bits_per_sample wav = Some (sample_width * 8)
    /\ declared_data_length wav = Some (Z.of_nat (length pcm)).
Proof.
  intros Hfit. pose proof Hfit as (Hc & Hw & Hcw & Hr & Hbr & Hlen).
  eexists. split; [now apply wrap_layout_ok|].
  split; [reflexivity|].
  split; [now rewrite length_app, length_wav_header|].
  destruct (declared_in_header channels sample_width sample_rate
              (Z.of_nat (length pcm)) pcm)
    as (H1 & H2 & H3 & H4); try nia.
  rewrite length_app, length_wav_header.
  repeat split; try assumption;
    unfold field, wav_header;
    cbn [bytes_of list_byte_of_string le_bytes app List.skipn take length
         Nat.eqb]; f_equal.
  - etransitivity;
      [apply (le_value_le_bytes 4 (36 + Z.of_nat (length pcm))); simpl; lia|].
    unfold header_size. lia.
  - apply (le_value_le_bytes 4 (channels * sample_rate * sample_width)).
    simpl; nia.
  - apply (le_value_le_bytes 2 (channels * sample_width)). simpl; nia.
Qed.

Lemma wrap_pcm_in_wav_any_layout_witness :
  exists wav,
    _wrap_pcm_in_wav (Some [x01; x02; x03; x04; x05]) 44100 2 2 = inr wav
    /\ length wav = 49%nat
    /\ field 32 2 wav = Some 4
    /\ declared_data_length wav = Some 5.
Proof.
  destruct (wrap_pcm_in_wav_any_layout [x01; x02; x03; x04; x05] 44100 2 2)
    as (wav & H1 & _ & H2 & _ & _ & _ & _ & H3 & _ & H4).
  - unfold fits_header. simpl. lia.
  - exists wav. auto.
Defined.

(** X3.  A channel count below 1, a sample width outside 1..4 or a
    sample rate that is not positive gives no buffer, whatever the
    payload: the setter's [wave.Error] ends the [with] block, and the
    [close] of the block raises the [wave.Error] that names the first of
    the three parameters that was never set. *)
Theorem wrap_pcm_in_wav_refuses_parameters
    (pcm_data : option (list byte)) (sample_rate channels sample_width : Z) :
  channels < 1 \/ sample_width < 1 \/ 4 < sample_width \/ sample_rate <= 0 ->
  _wrap_pcm_in_wav pcm_data sample_rate channels sample_width
  = inl (Exn WaveError
           (if channels <? 1 then "# channels not specified"
            else if (sample_width <? 1) || (4 <? sample_width)
                 then "sample width not specified"
                 else "sampling rate not specified")).
Proof. apply wrap_refused. Qed.

Lemma wrap_pcm_in_wav_refuses_parameters_witness :
  _wrap_pcm_in_wav (Some [x01; x02]) 24000 1 5
  = inl (Exn WaveError "sample width not specified").
Proof.
  apply (wrap_pcm_in_wav_refuses_parameters (Some [x01; x02]) 24000 1 5).
  lia.
Defined.

(** X4.  With the layout the tool uses (one channel, two bytes a
    sample), [_wrap_pcm_in_wav] is decided by the sample rate and the
    payload length alone: a rate that is not positive is a [wave.Error];
    a rate from 2^31 on or a payload of more than 2^32 - 37 bytes is a
    [struct.error], raised for the first header field that does not fit
    (RIFF size, sample rate, byte rate), with the text of the format
    when that number is below 2^64 and ["argument out of range"] from
    there on; everything else gives the header followed by the
    payload. *)
Theorem wrap_pcm_in_wav_mono_decided (pcm : list byte) (sample_rate : Z) :
  let len := Z.of_nat (length pcm) in
  let field :=
    if 4294967295 <? 36 + len / 2 * 2 then 36 + len / 2 * 2
    else if 4294967295 <? sample_rate then sample_rate
    else 1 * sample_rate * 2 in
  _wrap_pcm_in_wav (Some pcm) sample_rate 1 2
  = if sample_rate <=? 0
    then inl (Exn WaveError "sampling rate not specified")
    else if (sample_rate <=? 2147483647) && (len <=? 4294967259)
    then inr (wav_header 1 2 sample_rate len ++ pcm)
    else inl (Exn StructError
                (if 18446744073709551615 <? field
                 then "argument out of range"
                 else "'L' format requires 0 <= number <= 4294967295")).
Proof. intros len field. apply wrap_mono_cases. Qed.

Lemma wrap_pcm_in_wav_mono_decided_witness :
  _wrap_pcm_in_wav (Some [x01; x02]) 18446744073709551616 1 2
  = inl (Exn StructError "argument out of range")
  /\ _wrap_pcm_in_wav (Some [x01; x02]) 4294967296 1 2
     = inl (Exn StructError "'L' format requires 0 <= number <= 4294967295").
Proof.
  split.
  - apply (wrap_pcm_in_wav_mono_decided [x01; x02] 18446744073709551616).
  - apply (wrap_pcm_in_wav_mono_decided [x01; x02] 4294967296).
Defined.

(** X5.  Whatever its arguments, [_wrap_pcm_in_wav] raises nothing but
    [wave.Error], [struct.error] and the [TypeError] of a payload that
    is no bytes object: all of them instances of [Exception]. *)
Theorem wrap_pcm_in_wav_raises_wave_errors
    (pcm_data : option (list byte)) (sample_rate channels sample_width : Z)
    (e : exn) :
  _wrap_pcm_in_wav pcm_data sample_rate channels sample_width = inl e ->
  (class_of e = WaveError \/ class_of e = StructError
   \/ class_of e = TypeError)
  /\ isinstance e Exception = true.
Proof.
  intros H. apply wrap_raises in H.
  split; [exact H | now apply wave_exn_is_Exception].
Qed.

Lemma wrap_pcm_in_wav_raises_wave_errors_witness :
  exists e,
    _wrap_pcm_in_wav None 24000 1 2 = inl e
    /\ isinstance e Exception = true.
Proof.
  eexists. split; [reflexivity|].
  apply (wrap_pcm_in_wav_raises_wave_errors None 24000 1 2). reflexivity.
Defined.

(** ** The duration estimate for any payload *)

Section DurationAny.

Lemma duration_str_whole_seconds (len rate : Z) :
  0 < rate ->
  duration_str (inject_Z len / inject_Z (rate * 2))%Q
  = str_int (whole_seconds len rate / 60) +:+ ":"
      +:+ format_02d (whole_seconds len rate mod 60).
Proof.
  intros Hr. unfold duration_str, whole_seconds.
  set (b := rate * 2).
  assert (Hb : 0 < b) by (unfold b; lia).
  assert (Hm : Qfloor (inject_Z len / inject_Z b / inject_Z 60)
               = len / b / 60).
  { transitivity (Qfloor (inject_Z len / inject_Z (b * 60))).
    - apply Qfloor_comp. rewrite inject_Z_mult. field.
      intros H. unfold Qeq in H. simpl in H. lia.
    - rewrite <- Zdiv_Qdiv. rewrite Z.div_div by lia. reflexivity. }
  rewrite Hm. rewrite <- inject_Z_mult, Qfloor_minus_Z, <- Zdiv_Qdiv.
  f_equal. f_equal. f_equal.
  rewrite Z.mod_eq by lia. reflexivity.
Qed.

Lemma format_02d_two_digits (n : Z) :
  0 <= n < 60 -> String.length (format_02d n) = 2%nat.
Proof.
  intros H. rewrite <- (Z2Nat.id n) by lia.
  assert (Hk : (Z.to_nat n < 60)%nat) by lia.
  generalize dependent (Z.to_nat n). clear n H. intros k Hk.
  do 60 (destruct k as [|k]; [reflexivity|]). lia.
Qed.

End DurationAny.

(** X6.  For every payload length and every positive sample rate the
    duration estimate is computed without an exception and is the whole
    number of seconds of 16-bit mono audio, the length divided by twice
    the rate and rounded down, printed as its minutes, a colon, and its
    seconds below 60 in exactly two characters. *)
Theorem duration_is_whole_seconds (len sample_rate : Z) :
  0 < sample_rate ->
  let s := len / (sample_rate * 2) in
  (let! d := duration_seconds len sample_rate in ret (duration_str d))%py
  = inr (str_int (s / 60) +:+ ":" +:+ format_02d (s mod 60))
  /\ 0 <= s mod 60 < 60
  /\ String.length (format_02d (s mod 60)) = 2%nat.
Proof.
  intros Hr s.
  assert (Hs : 0 <= s mod 60 < 60) by (apply Z.mod_pos_bound; lia).
  split; [|split; [exact Hs | now apply format_02d_two_digits]].
  unfold duration_seconds.
  replace (sample_rate * 2 =? 0) with false
    by (symmetry; apply Z.eqb_neq; lia).
  cbn [Py.bind ret]. f_equal.
  now apply duration_str_whole_seconds.
Qed.

Lemma duration_is_whole_seconds_witness :
  (let! d := duration_seconds 6000000 24000 in ret (duration_str d))%py
  = inr (str_int (125 / 60) +:+ ":" +:+ format_02d (125 mod 60)).
Proof.
  apply (duration_is_whole_seconds 6000000 24000). lia.
Defined.

(** ** Every run of the retry loop *)

Section RetryTrace.

Variables (E : Env) (script : string) (cfg : SpeechConfig) (w : World).

Let req := tts_request E script cfg.

Lemma retry_trace :
  exists m,
    (1 <= m <= 3)%nat
    /\ generate_with_retry E script cfg w
       = (final_outcome (future_at E m) (outcome E req w (m - 1)),
          after_attempts req w m (sleeps_before m))
    /\ (forall k, (k < m - 1)%nat ->
          exists e, outcome E req w k = inl e
                    /\ Tenacity.wants_retry retry_policy e = true)
    /\ (forall e, (m < 3)%nat -> outcome E req w (m - 1) = inl e ->
          Tenacity.wants_retry retry_policy e = false).
Proof.
  rewrite generate_with_retry_unfold. fold req.
  destruct (outcome E req w 0) as [e1|r1] eqn:O1.
  2:{ exists 1%nat. split; [lia|]. cbn [Nat.sub]. rewrite O1.
      split; [now erewrite attempts_success by eassumption|].
      split; [intros k Hk; lia | discriminate]. }
  destruct (Tenacity.wants_retry retry_policy e1) eqn:R1.
  2:{ exists 1%nat. split; [lia|]. cbn [Nat.sub]. rewrite O1.
      split; [erewrite attempts_propagate by eassumption;
              unfold final_outcome; now rewrite R1|].
      split; [intros k Hk; lia | now intros e _ [= <-]]. }
  rewrite (attempts_again E req _ _ _ _ _ _ _ _ O1 R1).
  destruct (outcome E req w 1) as [e2|r2] eqn:O2.
  2:{ exists 2%nat. split; [lia|]. cbn [Nat.sub]. rewrite O2.
      split; [now erewrite attempts_success by eassumption|].
      split; [|discriminate].
      intros k Hk. assert (k = 0%nat) as -> by lia. eauto. }
  destruct (Tenacity.wants_retry retry_policy e2) eqn:R2.
  2:{ exists 2%nat. split; [lia|]. cbn [Nat.sub]. rewrite O2.
      split; [erewrite attempts_propagate by eassumption;
              unfold final_outcome; now rewrite R2|].
      split; [|now intros e _ [= <-]].
      intros k Hk. assert (k = 0%nat) as -> by lia. eauto. }
  rewrite (attempts_again E req _ _ _ _ _ _ _ _ O2 R2).
  exists 3%nat. split; [lia|]. cbn [Nat.sub].
  split; [|split; [|intros e Hm; lia]].
  - destruct (outcome E req w 2) as [e3|r3] eqn:O3.
    + unfold final_outcome.
      destruct (Tenacity.wants_retry retry_policy e3) eqn:R3.
      * now erewrite attempts_give_up by eassumption.
      * now erewrite attempts_propagate by eassumption.
    + now erewrite attempts_success by eassumption.
  - intros k Hk.
    assert (k = 0 \/ k = 1)%nat as [-> | ->] by lia; eauto.
Qed.

End RetryTrace.

(** X7.  Every run of [generate_with_retry] makes [m] calls, 1 <= m <= 3,
    all with the same request, and sleeps 2 seconds after the first and
    4 after the second failed call: one sleep less than calls.  Every
    call but the last failed with a [ServerError] (or tenacity's
    [TryAgain]); the loop stops before the third call only on a response
    or on an error of another class; the value is the response of the
    last call, its error when that is of another class, and
    [RetryError] around it (in the [Future] of that call) otherwise.  The session state and the
    artifacts are not touched. *)
Theorem generate_with_retry_trace
    (E : Env) (script : string) (cfg : SpeechConfig) (w : World) :
  let req := tts_request E script cfg in
  let run := generate_with_retry E script cfg w in
  exists m,
    (1 <= m <= 3)%nat
    /\ requests (snd run) = requests w ++ repeat req m
    /\ sleeps (snd run) = sleeps w ++ take (m - 1) [2; 4]
    /\ state (snd run) = state w
    /\ artifacts (snd run) = artifacts w
    /\ (forall k, (k < m - 1)%nat ->
          exists e, outcome E req w k = inl e
                    /\ (isinstance e TryAgain || isinstance e ServerError)
                       = true)
    /\ (forall e, (m < 3)%nat -> outcome E req w (m - 1) = inl e ->
          (isinstance e TryAgain || isinstance e ServerError) = false)
    /\ fst run
       = match outcome E req w (m - 1) with
         | inr resp => inr resp
         | inl e =>
             if isinstance e TryAgain || isinstance e ServerError
             then inl (RetryError (future_at E m) e)
             else inl e
         end.
Proof.
  intros req run. subst run.
  destruct (retry_trace E script cfg w) as (m & Hm & Hrun & Hbefore & Hlast).
  exists m. rewrite Hrun. cbn [fst snd after_attempts requests sleeps state
                                artifacts].
  repeat split; try lia; try assumption.
Qed.

(** ** Every run of the tool *)

Section ToolCases.

Variable E : Env.

Lemma wrap_mono_success (pcm audio : list byte) (rate : Z) :
  _wrap_pcm_in_wav (Some pcm) rate 1 2 = inr audio ->
  0 < rate <= 2147483647 /\ Z.of_nat (length pcm) <= 4294967259
  /\ audio = wav_header 1 2 rate (Z.of_nat (length pcm)) ++ pcm.
Proof.
  intros H.
  destruct (Z_le_gt_dec rate 0) as [L|G];
    [rewrite wrap_bad_rate in H by lia; discriminate|].
  destruct (Z_le_gt_dec rate 2147483647) as [L1|G1];
    [|rewrite wrap_header_overflow in H by lia; discriminate].
  destruct (Z_le_gt_dec (Z.of_nat (length pcm)) 4294967259) as [L2|G2];
    [|rewrite wrap_header_overflow in H by lia; discriminate].
  rewrite wrap_ok in H by lia. injection H as <-. repeat split; lia.
Qed.

Lemma handle_inline_data_cases (blob : Blob) (w : World) :
  (exists r, handle_inline_data E blob w = (r, w)
     /\ match r with
        | inr d => exists e audio dur,
                     d = fallback_result e audio "audio/wav" dur
        | inl _ => True
        end)
  \/ (exists pcm version,
        wrappable blob pcm
        /\ save_artifact E artifact_filename
             (Part_from_bytes (container_of blob pcm) "audio/wav")
           = inr version
        /\ handle_inline_data E blob w
           = (inr (saved_result version (container_of blob pcm) "audio/wav"
                     (duration_of blob pcm)),
              after_save w (container_of blob pcm) (duration_of blob pcm)
                version)).
Proof.
  destruct (data blob) as [pcm|] eqn:D.
  - destruct (_wrap_pcm_in_wav (Some pcm)
                (parsed_rate (raw_mime_type_of blob)) 1 2)
      as [e|audio] eqn:W.
    + left. exists (inl e). split; [|exact I].
      unfold handle_inline_data. rewrite D, parse_is_parsed_rate.
      unfold lift at 1. unfold Eff.bind at 1. rewrite W. reflexivity.
    + pose proof (wrap_mono_success _ _ _ W) as (Hr & Hl & ->).
      rewrite (handle_inline_data_run E blob pcm _ _ w D
                 (parse_is_parsed_rate _) W).
      fold (container_of blob pcm). fold (duration_of blob pcm).
      destruct (save_artifact E artifact_filename _) as [e|version] eqn:S.
      * left. destruct (isinstance e Exception);
          eexists; (split; [reflexivity|]);
          [eexists _, _, _; reflexivity | exact I].
      * right. exists pcm, version. unfold wrappable. auto.
  - left. unfold handle_inline_data. rewrite D, parse_is_parsed_rate.
    unfold lift at 1. unfold Eff.bind at 1.
    destruct (_wrap_pcm_in_wav None _ 1 2) as [e|audio];
      eexists; (split; [reflexivity | exact I]).
Qed.

Lemma read_response_cases (resp : GenerateContentResponse) (w : World) :
  (exists r, read_response E resp w = (r, w)
     /\ match r with
        | inr d => unsaved_result d
        | inl _ => True
        end)
  \/ (exists blob pcm version,
        first_audio resp = Some blob
        /\ wrappable blob pcm
        /\ save_artifact E artifact_filename
             (Part_from_bytes (container_of blob pcm) "audio/wav")
           = inr version
        /\ read_response E resp w
           = (inr (saved_result version (container_of blob pcm) "audio/wav"
                     (duration_of blob pcm)),
              after_save w (container_of blob pcm) (duration_of blob pcm)
                version)).
Proof.
  destruct (first_audio resp) as [blob|] eqn:F.
  - rewrite (read_response_first_audio E _ _ w F).
    destruct (handle_inline_data_cases blob w)
      as [(r & H & Hr) | (pcm & v & Hw & Hs & H)].
    + left. exists r. split; [exact H|].
      destruct r as [e|d]; [exact I|].
      destruct Hr as (e & a & dur & ->). apply returned_fallback.
    + right. exists blob, pcm, v. auto.
  - left. unfold first_audio in F. unfold read_response.
    destruct (candidates resp) as [[|first cs]|];
      try (eexists; split; [reflexivity | apply returned_no_audio]).
    unfold Eff.bind at 1 2, Eff.pure, Eff.throw.
    destruct (content first) as [ct|];
      [|eexists; split; [reflexivity | exact I]].
    destruct (parts ct) as [ps|];
      [|eexists; split; [reflexivity | exact I]].
    rewrite for_part_first, F.
    eexists; split; [reflexivity | apply returned_no_audio].
Qed.

Lemma generate_audio_overview_cases (script : string) (w : World) :
  let req := tts_request E script (speech_config_for (USE_VERTEX_AI E)) in
  exists m,
    (m <= 3)%nat
    /\ ((exists r,
           generate_audio_overview E script w
           = (r, after_attempts req w m (sleeps_before m))
           /\ match r with
              | inr d => unsaved_result d
              | inl e => isinstance e Exception = false
              end)
        \/ (exists resp blob pcm version,
              (1 <= m)%nat
              /\ outcome E req w (m - 1) = inr resp
              /\ first_audio resp = Some blob
              /\ wrappable blob pcm
              /\ save_artifact E artifact_filename
                   (Part_from_bytes (container_of blob pcm) "audio/wav")
                 = inr version
              /\ generate_audio_overview E script w
                 = (inr (saved_result version (container_of blob pcm)
                           "audio/wav" (duration_of blob pcm)),
                    after_save (after_attempts req w m (sleeps_before m))
                      (container_of blob pcm) (duration_of blob pcm)
                      version))).
Proof.
  intros req. destruct (Client E) as [e|[]] eqn:HC.
  - exists 0%nat. split; [lia|]. left.
    change (sleeps_before 0) with (@nil Z). rewrite after_attempts_0.
    unfold generate_audio_overview, catch, lift, Eff.bind. rewrite HC.
    cbn [existsb]. rewrite orb_false_r.
    destruct (isinstance e Exception) eqn:I;
      eexists; (split; [reflexivity|]); [apply returned_failure | exact I].
  - destruct (retry_trace E script (speech_config_for (USE_VERTEX_AI E)) w)
      as (m & Hm & Hrun & _ & _).
    fold req in Hrun.
    exists m. split; [lia|].
    destruct (outcome E req w (m - 1)) as [e|resp] eqn:O.
    + left. cbn [final_outcome] in Hrun.
      destruct (Tenacity.wants_retry retry_policy e);
        rewrite (gao_retry_raised E _ _ _ _ HC Hrun);
        destruct (isinstance _ Exception) eqn:I;
        eexists; (split; [reflexivity|]); first [apply returned_failure | exact I].
    + cbn [final_outcome] in Hrun.
      rewrite (gao_retry_returned E _ _ _ _ HC Hrun).
      destruct (read_response_cases resp
                  (after_attempts req w m (sleeps_before m)))
        as [(r & H & Hr) | (blob & pcm & v & HF & Hw & Hs & H)].
      * left. unfold catch. rewrite H.
        destruct r as [e|d]; [|eexists; split; [reflexivity | exact Hr]].
        cbn [existsb]. rewrite orb_false_r.
        destruct (isinstance e Exception) eqn:I;
          eexists; (split; [reflexivity|]); [apply returned_failure | exact I].
      * right. exists resp, blob, pcm, v.
        unfold catch. rewrite H.
        split; [lia|].
        repeat (split; [first [assumption | reflexivity]|]). reflexivity.
Qed.

End ToolCases.

(** ** What the tool can raise *)

Section ToolRaises.

Variable E : Env.
Hypothesis collaborators : raises_Exceptions_only E.

Lemma attempts_raise {A} r fa (fn : SE World A) (remaining k : nat) :
  raises_only is_Exception fn ->
  raises_only is_Exception
    (Tenacity.attempts r fa time_sleep fn remaining k).
Proof.
  intros Hfn. revert k.
  induction remaining as [|n IH]; intros k s e s' H;
    rewrite attempts_unfold in H;
    destruct (fn s) as [[e0|a] s0] eqn:F; try discriminate;
    destruct (Tenacity.wants_retry r e0);
    try (injection H as <- _; first [reflexivity | eapply Hfn; eassumption]).
  unfold Eff.bind, time_sleep, modify in H. eapply IH; eassumption.
Qed.

Lemma call_generate_content_raises (req : Request) :
  raises_only is_Exception (call_generate_content E req).
Proof.
  intros s e s' H. unfold call_generate_content in H.
  injection H as H _.
  pose proof collaborators as (_ & HG & _). eapply HG; eassumption.
Qed.

Lemma handle_inline_data_raises (blob : Blob) :
  raises_only is_Exception (handle_inline_data E blob).
Proof.
  unfold handle_inline_data.
  apply ro_bind;
    [apply ro_lift; intros e He; rewrite parse_is_parsed_rate in He;
     discriminate | intros rate].
  apply ro_bind;
    [apply ro_lift; intros e He;
     apply wrap_raises in He; now apply wave_exn_is_Exception
    | intros audio].
  apply ro_bind;
    [destruct (data blob); [apply ro_pure | now apply ro_throw] | intros len].
  apply ro_bind; [|intros d].
  { apply ro_lift. unfold duration_seconds.
    destruct (rate * 2 =? 0); [now intros e [= <-] | discriminate]. }
  apply ro_catch; [|intros e; apply ro_pure].
  apply ro_bind; [|intros v].
  - intros s e s' H. unfold call_save_artifact in H.
    destruct (save_artifact E _ _) as [e0|v] eqn:S; [|discriminate].
    injection H as <- _. cbn [existsb]. rewrite orb_false_r.
    pose proof collaborators as (_ & _ & HS). eapply HS; eassumption.
  - unfold state_setitem.
    repeat first [apply ro_modify | apply ro_pure
                 | apply ro_bind; [|intros ?]].
Qed.

Lemma read_response_raises (resp : GenerateContentResponse) :
  raises_only is_Exception (read_response E resp).
Proof.
  unfold read_response.
  destruct (candidates resp) as [[|first cs]|]; try apply ro_pure.
  apply ro_bind;
    [destruct (content first); [apply ro_pure | now apply ro_throw]
    | intros ct].
  apply ro_bind;
    [destruct (parts ct); [apply ro_pure | now apply ro_throw]
    | intros ps].
  induction ps as [|p ps IH]; cbn [for_part]; [apply ro_pure|].
  destruct (inline_data p); [apply handle_inline_data_raises | exact IH].
Qed.

Lemma tool_body_raises (script : string) (w : World) (e : exn) (w' : World) :
  generate_audio_overview E script w = (inl e, w') -> False.
Proof.
  unfold generate_audio_overview. intros H.
  assert (Hbody : raises_only is_Exception
            (lift (Client E);+
             let+ response :=
               generate_with_retry E script
                 (speech_config_for (USE_VERTEX_AI E)) in
             read_response E response)%py).
  { apply ro_bind;
      [apply ro_lift; intros e0 He0;
       pose proof collaborators as (HC & _); eapply HC; eassumption
      | intros _].
    apply ro_bind; [|intros resp; apply read_response_raises].
    apply attempts_raise, call_generate_content_raises. }
  unfold catch in H.
  destruct ((lift (Client E);+ _)%py w) as [[e0|d] w0] eqn:B;
    [|discriminate].
  cbn [existsb] in H. rewrite orb_false_r in H.
  rewrite (Hbody _ _ _ B) in H. discriminate.
Qed.

End ToolRaises.

(** X8.  The tool raises no instance of [Exception]: whatever is raised
    inside it, by the client, the retried call, the reading of the
    response or the store, and is an [Exception], ends in a returned
    dictionary.  What does leave the tool is an exception outside that
    class (a cancellation, an interrupt); no state key was written and
    no save was completed then. *)
Theorem tool_raises_no_Exception
    (E : Env) (podcast_script : string) (w : World) (e : exn) :
  fst (generate_audio_overview E podcast_script w) = inl e ->
  isinstance e Exception = false
  /\ state (snd (generate_audio_overview E podcast_script w)) = state w
  /\ artifacts (snd (generate_audio_overview E podcast_script w))
     = artifacts w.
Proof.
  intros H.
  destruct (generate_audio_overview_cases E podcast_script w)
    as (m & _ & [(r & Hrun & Hr) | (resp & blob & pcm & v & _ & _ & _ & _ & _ & Hrun)]);
    rewrite Hrun in *; cbn [fst snd] in *; [|discriminate].
  subst r. auto.
Qed.

Lemma tool_raises_no_Exception_witness :
  isinstance (Exn CancelledError "cancelled") Exception = false.
Proof.
  apply (tool_raises_no_Exception
           (Scenario.env
              (Scenario.always (inl (Exn CancelledError "cancelled")))
              Scenario.store_ok)
           "script" Scenario.empty_world).
  reflexivity.
Defined.

(** X9.  When the collaborators of the tool (the client constructor,
    the provider call, the artifact store) raise nothing but instances
    of [Exception], every invocation returns a dictionary: the tool
    itself raises nothing, whatever the script and the response. *)
Theorem tool_always_returns
    (E : Env) (podcast_script : string) (w : World) :
  raises_Exceptions_only E ->
  exists d, fst (generate_audio_overview E podcast_script w) = inr d.
Proof.
  intros HE.
  destruct (generate_audio_overview E podcast_script w) as [[e|d] w'] eqn:H.
  - destruct (tool_body_raises E HE _ _ _ _ H).
  - now exists d.
Qed.

Lemma tool_always_returns_witness :
  exists d,
    fst (generate_audio_overview
           (Scenario.env (Scenario.always (inl Scenario.invalid_argument))
              Scenario.store_fails)
           "script" Scenario.empty_world)
    = inr d.
Proof.
  apply tool_always_returns. unfold raises_Exceptions_only.
  split; [discriminate|].
  split; [now intros n req e [= <-] | now intros f p e [= <-]].
Defined.

(** ** The returned dictionary and the effects of one invocation *)

Section ResultShapes.

Lemma unsaved_result_shape (d : gmap string value) :
  unsaved_result d ->
  d !! "artifact_saved" <> Some (VBool true)
  /\ ((d !! "status" = Some (VStr "error")
       /\ (exists msg, d !! "error_message" = Some (VStr msg))
       /\ d !! "message" = None
       /\ d !! "artifact_saved" = None
       /\ d !! "duration_estimate" = None)
      \/ (d !! "status" = Some (VStr "success")
          /\ d !! "artifact_saved" = Some (VBool false)
          /\ (exists msg, d !! "message" = Some (VStr msg))
          /\ (exists dur, d !! "duration_estimate" = Some (VStr dur))
          /\ (exists b64, d !! "audio_data" = Some (VStr b64))
          /\ d !! "mime_type" = Some (VStr "audio/wav")
          /\ d !! "error_message" = None)).
Proof.
  intros [| e | e audio dur]; (split; [discriminate|]).
  - left. repeat split; try reflexivity. eexists; reflexivity.
  - left. repeat split; try reflexivity. eexists; reflexivity.
  - right. repeat split; try reflexivity; eexists; reflexivity.
Qed.

End ResultShapes.

(** X10.  Every dictionary the tool returns has one of two shapes.  With
    status ["error"] it holds an [error_message] and neither [message]
    nor [artifact_saved] nor [duration_estimate].  With status
    ["success"] it holds [message], [artifact_saved], [duration_estimate]
    and [mime_type] ["audio/wav"], no [error_message], and, when the
    artifact was not saved, the audio itself under [audio_data]. *)
Theorem tool_result_shapes
    (E : Env) (podcast_script : string) (w : World) (d : gmap string value) :
  fst (generate_audio_overview E podcast_script w) = inr d ->
  (d !! "status" = Some (VStr "error")
   /\ (exists msg, d !! "error_message" = Some (VStr msg))
   /\ d !! "message" = None
   /\ d !! "artifact_saved" = None
   /\ d !! "duration_estimate" = None)
  \/ (d !! "status" = Some (VStr "success")
      /\ (exists msg, d !! "message" = Some (VStr msg))
      /\ (exists dur, d !! "duration_estimate" = Some (VStr dur))
      /\ d !! "mime_type" = Some (VStr "audio/wav")
      /\ d !! "error_message" = None
      /\ (d !! "artifact_saved" = Some (VBool true)
          \/ d !! "artifact_saved" = Some (VBool false)
             /\ exists b64, d !! "audio_data" = Some (VStr b64))).
Proof.
  intros H.
  destruct (generate_audio_overview_cases E podcast_script w)
    as (m & _ & [(r & Hrun & Hr)
                | (resp & blob & pcm & v & _ & _ & _ & _ & _ & Hrun)]);
    rewrite Hrun in H; cbn [fst] in H.
  - subst r. apply unsaved_result_shape in Hr as [_ [Herr | Hok]].
    + now left.
    + right. destruct Hok as (H1 & H2 & H3 & H4 & H5 & H6 & H7).
      repeat split; try assumption. right. now split.
  - injection H as <-. right.
    repeat split; try reflexivity; try (eexists; reflexivity).
    now left.
Qed.

Lemma tool_result_shapes_witness :
  no_audio_result !! "status" = Some (VStr "error")
  \/ no_audio_result !! "status" = Some (VStr "success").
Proof.
  destruct (tool_result_shapes
              (Scenario.env
                 (Scenario.always (inr Scenario.text_only_response))
                 Scenario.store_ok)
              "script" Scenario.empty_world no_audio_result eq_refl)
    as [(H & _) | (H & _)]; [now left | now right].
Defined.

(** X11.  What one invocation does to the outside: it sends [m <= 3]
    requests, all of them the script with the speech configuration of
    the flag, sleeps 2 and then 4 seconds between them, and stores at
    most one artifact, named ["audio_overview.wav"] and of MIME type
    ["audio/wav"]. *)
Theorem tool_effects_bounded
    (E : Env) (podcast_script : string) (w : World) :
  let req :=
    tts_request E podcast_script (speech_config_for (USE_VERTEX_AI E)) in
  let w' := snd (generate_audio_overview E podcast_script w) in
  exists m,
    (m <= 3)%nat
    /\ requests w' = requests w ++ repeat req m
    /\ sleeps w' = sleeps w ++ take (m - 1) [2; 4]
    /\ (artifacts w' = artifacts w
        \/ exists audio version,
             artifacts w'
             = artifacts w
               ++ [("audio_overview.wav",
                    Part_from_bytes audio "audio/wav", version)]).
Proof.
  intros req w'. subst w'.
  destruct (generate_audio_overview_cases E podcast_script w)
    as (m & Hm & [(r & Hrun & Hr)
                 | (resp & blob & pcm & v & _ & _ & _ & _ & _ & Hrun)]);
    rewrite Hrun; exists m; cbn [snd after_save after_attempts requests
                                 sleeps artifacts];
    repeat split; try assumption; try reflexivity.
  - now left.
  - right. eexists _, _. reflexivity.
Qed.

(** X12.  The tool writes no key of the session state besides
    [audio_overview_base64] and [audio_overview_duration]: every other
    key reads after the invocation as it did before. *)
Theorem tool_state_frame
    (E : Env) (podcast_script : string) (w : World) (k : string) :
  k <> "audio_overview_base64" -> k <> "audio_overview_duration" ->
  state (snd (generate_audio_overview E podcast_script w)) !! k
  = state w !! k.
Proof.
  intros K1 K2.
  destruct (generate_audio_overview_cases E podcast_script w)
    as (m & Hm & [(r & Hrun & Hr)
                 | (resp & blob & pcm & v & _ & _ & _ & _ & _ & Hrun)]);
    rewrite Hrun; cbn [snd after_save after_attempts state];
    [reflexivity|].
  rewrite !lookup_insert_ne by congruence. reflexivity.
Qed.

Lemma tool_state_frame_witness :
  state (snd (generate_audio_overview
                (Scenario.env
                   (Scenario.always
                      (inr (Scenario.audio_response Scenario.pcm4
                              Scenario.gemini_mime)))
                   Scenario.store_ok)
                "script"
                {| state := {["target_location" := "Bangalore"]};
                   requests := []; sleeps := []; artifacts := [] |}))
    !! "target_location"
  = Some "Bangalore".
Proof.
  rewrite tool_state_frame; [reflexivity | discriminate | discriminate].
Defined.

(** X13.  The artifact and the two state keys go together.  Either the
    tool stored one artifact, reports [artifact_saved] true with the
    version the store gave, and the state holds the data URI of the
    stored bytes and the duration it reports; or the tool stored
    nothing, does not report [artifact_saved] true, and the state is the
    one before the invocation. *)
Theorem tool_saves_all_or_nothing
    (E : Env) (podcast_script : string) (w : World) :
  let run := generate_audio_overview E podcast_script w in
  (exists audio dur version,
     fst run = inr (saved_result version audio "audio/wav" dur)
     /\ artifacts (snd run)
        = artifacts w
          ++ [(artifact_filename, Part_from_bytes audio "audio/wav",
               version)]
     /\ save_artifact E artifact_filename (Part_from_bytes audio "audio/wav")
        = inr version
     /\ state (snd run) !! "audio_overview_base64"
        = Some ("data:audio/wav;base64," +:+ b64encode audio)
     /\ state (snd run) !! "audio_overview_duration" = Some dur)
  \/ ((forall d, fst run = inr d ->
         d !! "artifact_saved" <> Some (VBool true))
      /\ artifacts (snd run) = artifacts w
      /\ state (snd run) = state w).
Proof.
  intros run. subst run.
  destruct (generate_audio_overview_cases E podcast_script w)
    as (m & Hm & [(r & Hrun & Hr)
                 | (resp & blob & pcm & v & _ & _ & _ & _ & Hsave & Hrun)]);
    rewrite Hrun; cbn [fst snd after_save after_attempts state artifacts].
  - right. split; [|split; reflexivity].
    intros d ->. now apply unsaved_result_shape in Hr as [Hr _].
  - left. eexists _, _, _.
    split; [reflexivity|]. split; [reflexivity|]. split; [exact Hsave|].
    split.
    + rewrite lookup_insert_ne by discriminate. now rewrite lookup_insert_eq.
    + now rewrite lookup_insert_eq.
Qed.

(** X14.  What a saved artifact is.  Whenever the tool reports
    [artifact_saved] true, the retried call ended with a response, the
    first part with inline data among the parts of its first candidate
    carried bytes, and the one artifact stored is the 44-byte header for
    16-bit mono audio at the rate parsed from that part's MIME type,
    followed by exactly those bytes.  The dictionary reports the version
    the store returned, the size of the container and the duration of
    the payload at that rate. *)
Theorem saved_artifact_wraps_first_audio
    (E : Env) (podcast_script : string) (w : World)
    (d : gmap string value) :
  let req :=
    tts_request E podcast_script (speech_config_for (USE_VERTEX_AI E)) in
  let run := generate_audio_overview E podcast_script w in
  fst run = inr d ->
  d !! "artifact_saved" = Some (VBool true) ->
  exists m resp blob pcm rate version,
    (1 <= m <= 3)%nat
    /\ outcome E req w (m - 1) = inr resp
    /\ first_audio resp = Some blob
    /\ data blob = Some pcm
    /\ _parse_sample_rate_from_mime (raw_mime_type_of blob) = inr rate
    /\ 0 < rate <= 2147483647
    /\ artifacts (snd run)
       = artifacts w
         ++ [("audio_overview.wav",
              Part_from_bytes
                (wav_header 1 2 rate (Z.of_nat (length pcm)) ++ pcm)
                "audio/wav",
              version)]
    /\ d !! "artifact_filename" = Some (VStr "audio_overview.wav")
    /\ d !! "artifact_version" = Some (VInt version)
    /\ d !! "size_bytes" = Some (VInt (44 + Z.of_nat (length pcm)))
    /\ d !! "duration_estimate" = Some (VStr (duration_estimate pcm rate)).
Proof.
  intros req run Hd Hsaved. subst run.
  destruct (generate_audio_overview_cases E podcast_script w)
    as (m & Hm & [(r & Hrun & Hr)
                 | (resp & blob & pcm & v & Hm1 & HO & HF & Hw & Hsave
                    & Hrun)]);
    rewrite Hrun in *; cbn [fst snd] in *.
  - subst r. apply unsaved_result_shape in Hr as [Hr _]. contradiction.
  - injection Hd as <-. destruct Hw as (HD & Hrate & Hlen).
    exists m, resp, blob, pcm, (parsed_rate (raw_mime_type_of blob)), v.
    split; [lia|]. split; [exact HO|]. split; [exact HF|].
    split; [exact HD|]. split; [apply parse_is_parsed_rate|].
    split; [exact Hrate|]. split; [reflexivity|].
    split; [reflexivity|]. split; [reflexivity|]. split; [|reflexivity].
    change (saved_result v (container_of blob pcm) "audio/wav"
              (duration_of blob pcm) !! "size_bytes")
      with (Some (VInt (Z.of_nat (length (container_of blob pcm))))).
    unfold container_of. rewrite length_app, length_wav_header.
    unfold header_size. do 2 f_equal. lia.
Qed.

Lemma saved_artifact_wraps_first_audio_witness :
  exists version,
    artifacts
      (snd (generate_audio_overview
              (Scenario.env
                 (Scenario.always
                    (inr (Scenario.audio_response Scenario.pcm4
                            "audio/L16;rate=16000")))
                 Scenario.store_ok)
              "script" Scenario.empty_world))
    = [("audio_overview.wav",
        Part_from_bytes (wav_header 1 2 16000 4 ++ Scenario.pcm4)
          "audio/wav",
        version)].
Proof.
  set (E := Scenario.env
              (Scenario.always
                 (inr (Scenario.audio_response Scenario.pcm4
                         "audio/L16;rate=16000")))
              Scenario.store_ok).
  assert (Hrun : fst (generate_audio_overview E "script" Scenario.empty_world)
                 = inr (saved_result 0
                          (wav_header 1 2 16000 4 ++ Scenario.pcm4)
                          "audio/wav" "0:00"))
    by (vm_compute; reflexivity).
  destruct (saved_artifact_wraps_first_audio
              E "script" Scenario.empty_world _ Hrun eq_refl)
    as (m & resp & blob & pcm & rate & version
        & _ & HO & HF & HD & HR & _ & HA & _).
  injection HO as <-. injection HF as <-. injection HD as <-.
  injection HR as <-. exists version. exact HA.
Defined.

(** ** Responses the tool cannot use *)

Section UnusableAudio.

Variable E : Env.

Lemma handle_inline_data_wrap_fails (blob : Blob) (rate : Z) (e : exn)
    (w : World) :
  _parse_sample_rate_from_mime (raw_mime_type_of blob) = inr rate ->
  _wrap_pcm_in_wav (data blob) rate 1 2 = inl e ->
  handle_inline_data E blob w = (inl e, w).
Proof.
  intros HR HW. unfold handle_inline_data. rewrite HR.
  unfold lift at 1. unfold Eff.bind at 1. rewrite HW. reflexivity.
Qed.

Lemma handle_inline_data_no_bytes (blob : Blob) (w : World) :
  data blob = None ->
  exists e, handle_inline_data E blob w = (inl e, w) /\ wave_exn e.
Proof.
  intros HD.
  destruct (_wrap_pcm_in_wav (data blob)
              (parsed_rate (raw_mime_type_of blob)) 1 2) as [e|audio] eqn:W.
  - exists e. split; [|eapply wrap_raises; exact W].
    eapply handle_inline_data_wrap_fails; [apply parse_is_parsed_rate|exact W].
  - eexists. split.
    + unfold handle_inline_data. rewrite parse_is_parsed_rate.
      unfold lift at 1. unfold Eff.bind at 1. rewrite W. rewrite HD.
      reflexivity.
    + right. right. reflexivity.
Qed.

Lemma gao_audio_part_raises (script : string) (w w1 : World)
    (resp : GenerateContentResponse) (blob : Blob) (e : exn) :
  Client E = inr tt ->
  generate_with_retry E script (speech_config_for (USE_VERTEX_AI E)) w
  = (inr resp, w1) ->
  first_audio resp = Some blob ->
  handle_inline_data E blob w1 = (inl e, w1) ->
  isinstance e Exception = true ->
  generate_audio_overview E script w = (inr (failure_result e), w1).
Proof.
  intros HC HS HF HH HE.
  rewrite (gao_retry_returned E _ _ _ _ HC HS).
  unfold catch. rewrite (read_response_first_audio E _ _ _ HF), HH.
  cbn [existsb]. now rewrite HE.
Qed.

End UnusableAudio.

(** X15.  Only the first candidate of the response is read.  When it
    carries no inline data, whatever the candidates after it carry, the
    tool returns a result with status ["error"], stores nothing and
    leaves the session state as it was. *)
Theorem later_candidates_are_not_read
    (E : Env) (podcast_script : string) (w w1 : World)
    (first : Candidate) (rest : list Candidate) :
  Client E = inr tt ->
  generate_with_retry E podcast_script (speech_config_for (USE_VERTEX_AI E)) w
  = (inr {| candidates := Some (first :: rest) |}, w1) ->
  candidate_has_audio first = false ->
  exists msg,
    generate_audio_overview E podcast_script w
    = (inr (dict [("status", VStr "error"); ("error_message", VStr msg)]),
       w1)
    /\ state w1 = state w /\ artifacts w1 = artifacts w.
Proof.
  intros HC HS HA.
  rewrite (gao_retry_returned E _ _ _ _ HC HS).
  change (read_response E {| candidates := Some (first :: rest) |})
    with (read_response E {| candidates := Some [first] |}).
  destruct (read_response_no_audio E {| candidates := Some [first] |} w1)
    as [msg ->].
  - unfold has_audio_part. cbn [candidates existsb]. now rewrite HA.
  - exists msg. split; [reflexivity|].
    apply (generate_with_retry_state E _ _ _ _ _ HS).
Qed.

Lemma later_candidates_are_not_read_witness :
  let second :=
    {| content := Some {| parts := Some
         [ {| inline_data :=
                Some {| data := Some Scenario.pcm4;
                        mime_type := Some Scenario.gemini_mime |} |} ] |} |} in
  let resp :=
    {| candidates := Some
         [ {| content := Some {| parts := Some [ {| inline_data := None |} ]
                              |} |};
           second ] |} in
  has_audio_part resp = true
  /\ exists msg,
       fst (generate_audio_overview
              (Scenario.env (Scenario.always (inr resp)) Scenario.store_ok)
              "script" Scenario.empty_world)
       = inr (dict [("status", VStr "error"); ("error_message", VStr msg)]).
Proof.
  intros second resp. split; [reflexivity|].
  destruct (later_candidates_are_not_read
              (Scenario.env (Scenario.always (inr resp)) Scenario.store_ok)
              "script" Scenario.empty_world _ _ [second]
              eq_refl eq_refl eq_refl)
    as (msg & H & _).
  exists msg. now rewrite H.
Defined.

(** X16.  An audio part whose MIME type is missing, empty, or carries no
    [rate=] is taken to be sampled at 24000 Hz: for a payload that fits,
    the container declares 24000 and the duration is that of the payload
    at 24000 Hz, and what the tool returns then depends on the store
    alone. *)
Theorem audio_without_rate_is_24000
    (E : Env) (blob : Blob) (pcm : list byte) (w : World) :
  data blob = Some pcm ->
  Z.of_nat (length pcm) <= 4294967259 ->
  (forall m, mime_type blob = Some m -> contains "rate=" m = false) ->
  let audio := wav_header 1 2 24000 (Z.of_nat (length pcm)) ++ pcm in
  let dur := duration_estimate pcm 24000 in
  _parse_sample_rate_from_mime (raw_mime_type_of blob) = inr 24000
  /\ declared_sample_rate audio = Some 24000
  /\ handle_inline_data E blob w
     = match save_artifact E artifact_filename
               (Part_from_bytes audio "audio/wav") with
       | inr version =>
           (inr (saved_result version audio "audio/wav" dur),
            after_save w audio dur version)
       | inl e =>
           if isinstance e Exception
           then (inr (fallback_result e audio "audio/wav" dur), w)
           else (inl e, w)
       end.
Proof.
  intros HD Hlen Hmime audio dur.
  assert (HR : _parse_sample_rate_from_mime (raw_mime_type_of blob)
               = inr 24000).
  { apply parse_no_rate. unfold raw_mime_type_of.
    destruct (mime_type blob) as [[|c m]|] eqn:M; try reflexivity.
    now apply Hmime. }
  split; [exact HR|]. split.
  - apply declared_in_header; lia.
  - apply (handle_inline_data_run E blob pcm audio 24000 w HD HR).
    apply wrap_ok; lia.
Qed.

Lemma audio_without_rate_is_24000_witness :
  _parse_sample_rate_from_mime
    (raw_mime_type_of {| data := Some Scenario.pcm4; mime_type := None |})
  = inr 24000.
Proof.
  apply (audio_without_rate_is_24000
           (Scenario.env (Scenario.always (inr Scenario.text_only_response))
              Scenario.store_ok)
           {| data := Some Scenario.pcm4; mime_type := None |}
           Scenario.pcm4 Scenario.empty_world).
  - reflexivity.
  - simpl. lia.
  - discriminate.
Defined.

(** X17.  A sample rate the parser accepts but the header cannot hold
    ends the invocation with an error result: a rate that is not
    positive (as in [rate=0] or [rate=-8000]) with the [wave.Error] of
    the writer, a rate from 2^31 on with the [struct.error] of the first
    header field that does not fit, whose text is that of the format
    below 2^64 and ["argument out of range"] from there on (as in
    [rate=18446744073709551616]).  Nothing is stored and the session
    state is not written. *)
Theorem unusable_rate_is_an_error_result
    (E : Env) (podcast_script : string) (w w1 : World)
    (resp : GenerateContentResponse) (blob : Blob) (pcm : list byte)
    (rate : Z) :
  Client E = inr tt ->
  generate_with_retry E podcast_script (speech_config_for (USE_VERTEX_AI E)) w
  = (inr resp, w1) ->
  first_audio resp = Some blob ->
  data blob = Some pcm ->
  _parse_sample_rate_from_mime (raw_mime_type_of blob) = inr rate ->
  rate <= 0 \/ 2147483647 < rate ->
  let len := Z.of_nat (length pcm) in
  let field :=
    if 4294967295 <? 36 + len / 2 * 2 then 36 + len / 2 * 2
    else if 4294967295 <? rate then rate
    else 1 * rate * 2 in
  generate_audio_overview E podcast_script w
  = (inr (failure_result
            (if rate <=? 0
             then Exn WaveError "sampling rate not specified"
             else Exn StructError
                    (if 18446744073709551615 <? field
                     then "argument out of range"
                     else "'L' format requires 0 <= number <= 4294967295"))),
     w1)
  /\ state w1 = state w /\ artifacts w1 = artifacts w.
Proof.
  intros HC HS HF HD HR Hrate len field.
  split; [|apply (generate_with_retry_state E _ _ _ _ _ HS)].
  eapply gao_audio_part_raises; try eassumption.
  - eapply handle_inline_data_wrap_fails; [eassumption|]. rewrite HD.
    rewrite wrap_mono_cases. fold len.
    destruct (Z.leb_spec rate 0) as [L|G]; [reflexivity|].
    replace (rate <=? 2147483647) with false
      by (symmetry; apply Z.leb_gt; lia).
    reflexivity.
  - destruct (rate <=? 0); [reflexivity|].
    now destruct (18446744073709551615 <? field).
Qed.

Lemma unusable_rate_is_an_error_result_witness :
  fst (generate_audio_overview
         (Scenario.env
            (Scenario.always
               (inr (Scenario.audio_response Scenario.pcm4
                       "audio/L16;rate=-8000")))
            Scenario.store_ok)
         "script" Scenario.empty_world)
  = inr (failure_result (Exn WaveError "sampling rate not specified")).
Proof.
  set (E := Scenario.env
              (Scenario.always
                 (inr (Scenario.audio_response Scenario.pcm4
                         "audio/L16;rate=-8000")))
              Scenario.store_ok).
  destruct (unusable_rate_is_an_error_result
              E "script" Scenario.empty_world
              (after_attempts
                 (tts_request E "script" (speech_config_for false))
                 Scenario.empty_world 1 [])
              (Scenario.audio_response Scenario.pcm4 "audio/L16;rate=-8000")
              {| data := Some Scenario.pcm4;
                 mime_type := Some "audio/L16;rate=-8000" |}
              Scenario.pcm4 (-8000)
              eq_refl eq_refl eq_refl eq_refl eq_refl)
    as [H _]; [lia|].
  now rewrite H.
Defined.

(** X18.  An audio part without bytes ([data] is [None]) ends the
    invocation with an error result that carries the message of the
    exception raised on the way, a [TypeError], a [wave.Error] or a
    [struct.error]; nothing is stored and the session state is not
    written. *)
Theorem audio_part_without_bytes_is_an_error_result
    (E : Env) (podcast_script : string) (w w1 : World)
    (resp : GenerateContentResponse) (blob : Blob) :
  Client E = inr tt ->
  generate_with_retry E podcast_script (speech_config_for (USE_VERTEX_AI E)) w
  = (inr resp, w1) ->
  first_audio resp = Some blob ->
  data blob = None ->
  exists e,
    generate_audio_overview E podcast_script w
    = (inr (failure_result e), w1)
    /\ (class_of e = WaveError \/ class_of e = StructError
        \/ class_of e = TypeError)
    /\ failure_result e !! "error_message"
       = Some (VStr ("Failed to generate audio overview: " +:+ str_exn e))
    /\ state w1 = state w /\ artifacts w1 = artifacts w.
Proof.
  intros HC HS HF HD.
  destruct (handle_inline_data_no_bytes E blob w1 HD) as (e & HH & He).
  exists e. split.
  - eapply gao_audio_part_raises; try eassumption.
    now apply wave_exn_is_Exception.
  - split; [exact He|]. split; [reflexivity|].
    apply (generate_with_retry_state E _ _ _ _ _ HS).
Qed.

Lemma audio_part_without_bytes_is_an_error_result_witness :
  let resp :=
    {| candidates := Some
         [ {| content := Some {| parts := Some
                [ {| inline_data :=
                       Some {| data := None;
                               mime_type := Some Scenario.gemini_mime |} |}
                ] |} |} ] |} in
  exists e,
    fst (generate_audio_overview
           (Scenario.env (Scenario.always (inr resp)) Scenario.store_ok)
           "script" Scenario.empty_world)
    = inr (failure_result e)
    /\ isinstance e Exception = true.
Proof.
  intros resp.
  set (E := Scenario.env (Scenario.always (inr resp)) Scenario.store_ok).
  destruct (audio_part_without_bytes_is_an_error_result
              E "script" Scenario.empty_world
              (after_attempts
                 (tts_request E "script" (speech_config_for false))
                 Scenario.empty_world 1 [])
              resp
              {| data := None; mime_type := Some Scenario.gemini_mime |}
              eq_refl eq_refl eq_refl eq_refl)
    as (e & H & He & _).
  exists e. rewrite H. split; [reflexivity|].
  now apply wave_exn_is_Exception.
Defined.

(** ** Failures before any audio *)

(** X19.  When the client cannot be constructed, no request is sent:
    for an [Exception] the tool returns the error result with its
    message and the world is untouched. *)
Theorem client_failure_sends_nothing
    (E : Env) (podcast_script : string) (w : World) (e : exn) :
  Client E = inl e ->
  isinstance e Exception = true ->
  generate_audio_overview E podcast_script w = (inr (failure_result e), w)
  /\ failure_result e !! "status" = Some (VStr "error")
  /\ failure_result e !! "error_message"
     = Some (VStr ("Failed to generate audio overview: " +:+ str_exn e)).
Proof.
  intros HC HE. split; [|split; reflexivity].
  unfold generate_audio_overview, catch, lift, Eff.bind. rewrite HC.
  cbn [existsb]. now rewrite HE.
Qed.

Lemma client_failure_sends_nothing_witness :
  let E :=
    {| USE_VERTEX_AI := true; TTS_MODEL := "tts-model";
       Client := inl (Exn ValueError "Missing key inputs argument!");
       generate_content := Scenario.always (inr Scenario.text_only_response);
       save_artifact := Scenario.store_ok;
       future_at := fun _ => "0x7f3c2a1b5e90" |} in
  requests (snd (generate_audio_overview E "script" Scenario.empty_world))
  = [].
Proof.
  intros E.
  destruct (client_failure_sends_nothing E "script" Scenario.empty_world
              (Exn ValueError "Missing key inputs argument!")
              eq_refl eq_refl) as [H _].
  now rewrite H.
Defined.

(** X20.  An error of the provider that is an [Exception] but neither a
    [ServerError] nor tenacity's [TryAgain] (a [ClientError], say) is
    not retried: after one request and no sleep the tool returns the
    error result with the message of that error. *)
Theorem provider_error_is_not_retried
    (E : Env) (podcast_script : string) (w : World) (e : exn) :
  let req :=
    tts_request E podcast_script (speech_config_for (USE_VERTEX_AI E)) in
  Client E = inr tt ->
  outcome E req w 0 = inl e ->
  isinstance e ServerError = false -> isinstance e TryAgain = false ->
  isinstance e Exception = true ->
  generate_audio_overview E podcast_script w
  = (inr (failure_result e), after_attempts req w 1 [])
  /\ failure_result e !! "error_message"
     = Some (VStr ("Failed to generate audio overview: " +:+ str_exn e)).
Proof.
  intros req HC HO HS HT HE. split; [|reflexivity].
  pose proof (retry_propagates E podcast_script
                (speech_config_for (USE_VERTEX_AI E)) w e HO HS HT) as H.
  rewrite (gao_retry_raised E _ _ _ _ HC H). now rewrite HE.
Qed.

Lemma provider_error_is_not_retried_witness :
  let run :=
    generate_audio_overview
      (Scenario.env (Scenario.always (inl Scenario.invalid_argument))
         Scenario.store_ok)
      "script" Scenario.empty_world in
  fst run = inr (failure_result Scenario.invalid_argument)
  /\ length (requests (snd run)) = 1%nat
  /\ sleeps (snd run) = [].
Proof.
  intros run. subst run.
  destruct (provider_error_is_not_retried
              (Scenario.env (Scenario.always (inl Scenario.invalid_argument))
                 Scenario.store_ok)
              "script" Scenario.empty_world Scenario.invalid_argument
              eq_refl eq_refl eq_refl eq_refl eq_refl) as [H _].
  rewrite H. repeat split.
Defined.

(** ** The base64 text *)

Section Base64.

Lemma b64_char_index (n : Z) :
  0 <= n < 64 ->
  b64_index (b64_char n) = n /\ Ascii.eqb (b64_char n) "=" = false.
Proof.
  intros H. rewrite <- (Z2Nat.id n) by lia.
  assert (Hk : (Z.to_nat n < 64)%nat) by lia.
  generalize dependent (Z.to_nat n). clear n H. intros k Hk.
  do 64 (destruct k as [|k]; [split; vm_compute; reflexivity|]). lia.
Qed.

Lemma Z_of_byte_range (b : byte) : 0 <= Z_of_byte b < 256.
Proof.
  unfold Z_of_byte. pose proof (Byte.to_N_bounded b). lia.
Qed.

Lemma byte_of_Z_of_byte (b : byte) : byte_of_Z (Z_of_byte b) = b.
Proof.
  unfold byte_of_Z. pose proof (Z_of_byte_range b) as H.
  rewrite Z.mod_small by lia. unfold Z_of_byte.
  rewrite N2Z.id, Byte.of_to_N. reflexivity.
Qed.

Lemma byte_of_Z_eq (z : Z) (b : byte) : z = Z_of_byte b -> byte_of_Z z = b.
Proof. intros ->. apply byte_of_Z_of_byte. Qed.

Local Ltac b64_range :=
  repeat match goal with
  | x : byte |- _ =>
      lazymatch goal with
      | _ : 0 <= Z_of_byte x < 256 |- _ => fail
      | _ => pose proof (Z_of_byte_range x)
      end
  end;
  Z.div_mod_to_equations; lia.

Local Ltac b64_index_of n :=
  let H1 := fresh in
  let H2 := fresh in
  assert (0 <= n < 64) as [H1 H2]%b64_char_index by b64_range;
  rewrite ?H1, ?H2; clear H1 H2.

Lemma b64decode_b64encode (data : list byte) :
  b64decode (b64encode data) = data.
Proof.
  remember (length data) as n eqn:En. revert data En.
  induction n as [n IH] using lt_wf_ind. intros data En.
  destruct data as [|x [|y [|z rest]]].
  - reflexivity.
  - cbn [b64encode b64decode]. cbn [Ascii.eqb Bool.eqb].
    b64_index_of (Z_of_byte x / 4).
    b64_index_of (Z_of_byte x mod 4 * 16).
    f_equal. apply byte_of_Z_eq. b64_range.
  - cbn [b64encode b64decode].
    b64_index_of (Z_of_byte x / 4).
    b64_index_of (Z_of_byte x mod 4 * 16 + Z_of_byte y / 16).
    b64_index_of (Z_of_byte y mod 16 * 4).
    cbn [Ascii.eqb Bool.eqb].
    f_equal; [|f_equal]; apply byte_of_Z_eq; b64_range.
  - cbn [b64encode b64decode].
    b64_index_of (Z_of_byte x / 4).
    b64_index_of (Z_of_byte x mod 4 * 16 + Z_of_byte y / 16).
    b64_index_of (Z_of_byte y mod 16 * 4 + Z_of_byte z / 64).
    b64_index_of (Z_of_byte z mod 64).
    rewrite (IH (length rest)) by (simpl in En; first [lia | reflexivity]).
    f_equal; [|f_equal; [|f_equal]]; apply byte_of_Z_eq; b64_range.
Qed.

End Base64.

(** X21.  The base64 text the tool produces loses nothing.  Decoding
    the text written by [base64.b64encode] gives back the bytes, so:
    whenever the tool reports [artifact_saved] true, the session state
    holds under [audio_overview_base64] the prefix
    ["data:audio/wav;base64,"] followed by text that decodes to exactly
    the bytes of the stored artifact, whose number is [size_bytes]. *)
Theorem data_uri_decodes_to_the_artifact
    (E : Env) (podcast_script : string) (w : World)
    (d : gmap string value) :
  let run := generate_audio_overview E podcast_script w in
  fst run = inr d ->
  d !! "artifact_saved" = Some (VBool true) ->
  exists audio version b64,
    artifacts (snd run)
    = artifacts w
      ++ [(artifact_filename, Part_from_bytes audio "audio/wav", version)]
    /\ state (snd run) !! "audio_overview_base64"
       = Some ("data:audio/wav;base64," +:+ b64)
    /\ b64 = b64encode audio
    /\ b64decode b64 = audio
    /\ d !! "size_bytes" = Some (VInt (Z.of_nat (length audio))).
Proof.
  intros run Hd Hsaved. subst run.
  destruct (generate_audio_overview_cases E podcast_script w)
    as (m & Hm & [(r & Hrun & Hr)
                 | (resp & blob & pcm & v & _ & _ & _ & _ & _ & Hrun)]);
    rewrite Hrun in *; cbn [fst snd] in *.
  - subst r. apply unsaved_result_shape in Hr as [Hr _]. contradiction.
  - injection Hd as <-.
    exists (container_of blob pcm), v, (b64encode (container_of blob pcm)).
    cbn [after_save state artifacts].
    split; [reflexivity|]. split; [|split; [reflexivity|split]].
    + rewrite lookup_insert_ne by discriminate.
      now rewrite lookup_insert_eq.
    + apply b64decode_b64encode.
    + reflexivity.
Qed.

Lemma data_uri_decodes_to_the_artifact_witness :
  exists audio version,
    artifacts
      (snd (generate_audio_overview
              (Scenario.env
                 (Scenario.always
                    (inr (Scenario.audio_response Scenario.pcm4
                            Scenario.gemini_mime)))
                 Scenario.store_ok)
              "script" Scenario.empty_world))
    = [(artifact_filename, Part_from_bytes audio "audio/wav", version)]
    /\ b64decode (b64encode audio) = audio.
Proof.
  set (E := Scenario.env
              (Scenario.always
                 (inr (Scenario.audio_response Scenario.pcm4
                         Scenario.gemini_mime)))
              Scenario.store_ok).
  assert (Hrun : fst (generate_audio_overview E "script" Scenario.empty_world)
                 = inr (saved_result 0
                          (wav_header 1 2 24000 4 ++ Scenario.pcm4)
                          "audio/wav" "0:00"))
    by (vm_compute; reflexivity).
  destruct (data_uri_decodes_to_the_artifact
              E "script" Scenario.empty_world _ Hrun eq_refl)
    as (audio & version & b64 & HA & _ & -> & HD & _).
  exists audio, version. split; [exact HA | exact HD].
Defined.
(** ** Runs of the model on concrete inputs *)

Example parse_gemini :
  _parse_sample_rate_from_mime "audio/L16;codec=pcm;rate=24000" = inr 24000.
Proof. vm_compute. reflexivity. Qed.

Example parse_16k :
  _parse_sample_rate_from_mime "audio/L16;rate=16000;codec=pcm" = inr 16000.
Proof. vm_compute. reflexivity. Qed.

(** The first [rate=] may sit inside another parameter name. *)
Example parse_inside_bitrate :
  _parse_sample_rate_from_mime "audio/L16;bitrate=128;rate=24000" = inr 128.
Proof. vm_compute. reflexivity. Qed.

Example parse_not_a_number :
  _parse_sample_rate_from_mime "audio/L16;rate=fast" = inr 24000.
Proof. vm_compute. reflexivity. Qed.

Example parse_signed_and_padded :
  _parse_sample_rate_from_mime "audio/L16;rate= +16_000 ;codec=pcm"
  = inr 16000.
Proof. vm_compute. reflexivity. Qed.

Example split_commas : split "a,b,,c" "," = inr ["a"; "b"; ""; "c"].
Proof. vm_compute. reflexivity. Qed.

Example int_negative : py_int " -1_000 " = inr (-1000).
Proof. vm_compute. reflexivity. Qed.

Example wrap_four_bytes :
  _wrap_pcm_in_wav (Some [x01; x02; x03; x04]) 24000 1 2
  = inr (bytes_of "RIFF" ++ [x28; x00; x00; x00] ++ bytes_of "WAVEfmt "
         ++ [x10; x00; x00; x00; x01; x00; x01; x00;
             xc0; x5d; x00; x00; x80; xbb; x00; x00; x02; x00; x10; x00]
         ++ bytes_of "data" ++ [x04; x00; x00; x00]
         ++ [x01; x02; x03; x04]).
Proof. vm_compute. reflexivity. Qed.

(** An odd number of bytes: the header is patched to the length written,
    no padding byte is added. *)
Example wrap_three_bytes :
  _wrap_pcm_in_wav (Some [x01; x02; x03]) 24000 1 2
  = inr (bytes_of "RIFF" ++ [x27; x00; x00; x00] ++ bytes_of "WAVEfmt "
         ++ [x10; x00; x00; x00; x01; x00; x01; x00;
             xc0; x5d; x00; x00; x80; xbb; x00; x00; x02; x00; x10; x00]
         ++ bytes_of "data" ++ [x03; x00; x00; x00] ++ [x01; x02; x03]).
Proof. vm_compute. reflexivity. Qed.

Example wrap_no_bytes_object :
  _wrap_pcm_in_wav None 24000 1 2
  = inl (Exn TypeError
           "memoryview: a bytes-like object is required, not 'NoneType'").
Proof. vm_compute. reflexivity. Qed.

Example b64_padding :
  b64encode (bytes_of "light w") = "bGlnaHQgdw=="
  /\ b64encode (bytes_of "light wo") = "bGlnaHQgd28="
  /\ b64encode (bytes_of "light wor") = "bGlnaHQgd29y".
Proof. vm_compute. auto. Qed.

Example format_seconds :
  format_02d 2 = "02" /\ format_02d 59 = "59" /\ str_int 120 = "120".
Proof. vm_compute. auto. Qed.

(** Two failed attempts, then two seconds of audio, saved as version 0. *)
Example run_two_seconds :
  let '(r, w) :=
    generate_audio_overview
      (Scenario.env
         (Scenario.flaky
            (Scenario.audio_response (repeat x00 (Z.to_nat 96000))
               Scenario.gemini_mime))
         Scenario.store_ok)
      "script" Scenario.empty_world in
  (match r with
   | inr d => (d !! "status", d !! "duration_estimate", d !! "size_bytes")
   | inl _ => (None, None, None)
   end,
   sleeps w, length (requests w), state w !! "audio_overview_duration")
  = ((Some (VStr "success"), Some (VStr "0:02"), Some (VInt 96044)),
     [2; 4], 3%nat, Some "0:02").
Proof. vm_compute. reflexivity. Qed.

(** An interrupt while saving is not an [Exception]: it leaves the tool. *)
Example run_interrupted_save :
  fst (generate_audio_overview
         (Scenario.env
            (Scenario.always
               (inr (Scenario.audio_response Scenario.pcm4
                       Scenario.gemini_mime)))
            (fun _ _ => inl (Exn KeyboardInterrupt "")))
         "script" Scenario.empty_world)
  = inl (Exn KeyboardInterrupt "").
Proof. vm_compute. reflexivity. Qed.

(** The text handed to [int] ends at the next [rate=] as well. *)
Example parse_rate_then_rate :
  _parse_sample_rate_from_mime "audio/L16;rate=12rate=34;codec=pcm" = inr 12.
Proof. vm_compute. reflexivity. Qed.

(** A rate that no C integer holds. *)
Example run_huge_rate :
  fst (generate_audio_overview
         (Scenario.env
            (Scenario.always
               (inr (Scenario.audio_response Scenario.pcm4
                       "audio/L16;rate=18446744073709551616")))
            Scenario.store_ok)
         "script" Scenario.empty_world)
  = inr (dict [("status", VStr "error");
               ("error_message",
                VStr "Failed to generate audio overview: argument out of range")]).
Proof. vm_compute. reflexivity. Qed.
